(** * ts3automovebot: the idle-mover loop, three revisions

    The repository holds three revisions of one program, a poller that
    moves idle TeamSpeak clients into an AFK channel:

    - [Main]  : src/main.go             (no solo handling, list errors fatal)
    - [Part1] : src/unnamed/part_001    (solo list and grace period)
    - [Part2] : src/unnamed/part_002    (processClients, recentJoins, flag)

    Each revision's loop body is embedded as a function in a small monad
    that threads the remote server (the [ts3.Client] connection and the
    clock, an abstract world that every call may change), the variables
    of the program that survive a cycle ([soloClients], [recentJoins]),
    and the list of observable actions: log lines that carry a decision,
    sleeps, move commands.  Purely informational log lines (channel
    names, the dump of each client, "moving client to afk channel") are
    not recorded.  The process can end inside a cycle, by [Fatal] or by
    the panic of [exec[0]] on an empty reply.

    Of the start-up, the loading of the configuration is embedded
    ([parseEnvConfig], [loadConfigFromEnv]) as a function of the
    environment of the process, [json.Unmarshal] being a variable of
    it; login and server selection are outside the embedding, and the
    loop is stated for any [Config] record.
    Go's [int] is 64 bits wide; ids and idle times are only compared,
    never computed with, so they are integers of [Z], and [Atoi] rejects
    what does not fit; the one product of the program, seconds times
    1000 for the threshold, wraps around. *)

From Stdlib Require Import ZArith String Ascii.
From stdpp Require Import base list gmap.

Local Open Scope string_scope.
Local Open Scope Z_scope.
Local Open Scope list_scope.

(** ** Data of the ts3 library used by the program *)

(** [ts3.Channel]: the fields the program reads. *)
Record Channel := { CID : Z; ChannelName : string }.

(** [ts3.OnlineClient]: the fields the program reads. *)
Record OnlineClient := { ID : Z; ChannelID : Z; Nickname : string }.

(** The two commands the program sends through [client.Server.Exec]:
    ["clientinfo clid=%d"] and ["clientmove clid=%d cid=%d"]. *)
Inductive Command :=
| ClientInfo (clid : Z)
| ClientMove (clid cid : Z).

(** A remote session over an abstract world [W]: every call may fail
    ([None] is the Go [err != nil]) and may change the world.  [Since] is
    [time.Since], in nanoseconds; [Sleep] is [time.Sleep], in seconds. *)
Record Session (W : Type) := {
  ChannelList : W → option (list Channel) * W;
  ClientList : W → option (list OnlineClient) * W;
  Exec : Command → W → option (list string) * W;
  Since : Z → W → Z;
  Sleep : Z → W → W
}.
Arguments ChannelList {W}.
Arguments ClientList {W}.
Arguments Exec {W}.
Arguments Since {W}.
Arguments Sleep {W}.

(** ** [regexp] and [strconv] as the program uses them *)

Definition isDigit (a : ascii) : bool :=
  (48 <=? nat_of_ascii a)%nat && (nat_of_ascii a <=? 57)%nat.

(** The longest run of digits at the head of [s] ([\d+] is greedy). *)
Fixpoint takeDigits (s : string) : string :=
  match s with
  | String a rest => if isDigit a then String a (takeDigits rest) else ""
  | EmptyString => ""
  end.

Fixpoint stripPrefix (p s : string) : option string :=
  match p, s with
  | EmptyString, _ => Some s
  | String a p', String b s' => if Ascii.eqb a b then stripPrefix p' s' else None
  | String _ _, EmptyString => None
  end.

Definition idleTimeKey : string := "client_idle_time=".

(** A match of [client_idle_time=(\d+)] anchored at the head of [s]:
    the captured digits. *)
Definition matchHere (s : string) : option string :=
  match stripPrefix idleTimeKey s with
  | Some rest =>
      match takeDigits rest with
      | EmptyString => None
      | digits => Some digits
      end
  | None => None
  end.

(** [idleTimeRegex.FindStringSubmatch]: the leftmost match, as the whole
    match followed by the capture group; nil when nothing matches. *)
Fixpoint FindStringSubmatch (s : string) : list string :=
  match matchHere s with
  | Some digits => [(idleTimeKey ++ digits)%string; digits]
  | None =>
      match s with
      | String _ rest => FindStringSubmatch rest
      | EmptyString => []
      end
  end.

Definition digitValue (a : ascii) : Z := Z.of_nat (nat_of_ascii a) - 48.

Fixpoint parseDecimal (s : string) (acc : Z) : option Z :=
  match s with
  | EmptyString => Some acc
  | String a rest =>
      if isDigit a then parseDecimal rest (10 * acc + digitValue a) else None
  end.

Definition maxInt : Z := 2 ^ 63 - 1.

(** [strconv.Atoi] on an unsigned decimal string (the capture group never
    carries a sign): an error on an empty string, on a character that is
    not a digit and on a value that does not fit the 64-bit [int]. *)
Definition Atoi (s : string) : option Z :=
  match s with
  | EmptyString => None
  | _ =>
      match parseDecimal s 0 with
      | Some v => if (v <=? maxInt)%Z then Some v else None
      | None => None
      end
  end.

(** ** [strconv], [os] and [encoding/json] as the start-up uses them *)

(** [strconv.Atoi] in full: an optional sign, then at least one digit and
    nothing but digits; the value must fit the 64-bit [int]. *)
Definition AtoiSigned (s : string) : option Z :=
  match s with
  | EmptyString => None
  | String a rest =>
      if Ascii.eqb a "-" then
        match rest with
        | EmptyString => None
        | _ =>
            match parseDecimal rest 0 with
            | Some v => if (v <=? maxInt + 1)%Z then Some (- v) else None
            | None => None
            end
        end
      else if Ascii.eqb a "+" then
        match rest with
        | EmptyString => None
        | _ =>
            match parseDecimal rest 0 with
            | Some v => if (v <=? maxInt)%Z then Some v else None
            | None => None
            end
        end
      else
        match parseDecimal s 0 with
        | Some v => if (v <=? maxInt)%Z then Some v else None
        | None => None
        end
  end.

(** [strconv.ParseBool] *)
Definition ParseBool (str : string) : option bool :=
  if existsb (String.eqb str) ["1"; "t"; "T"; "TRUE"; "true"; "True"] then Some true
  else if existsb (String.eqb str) ["0"; "f"; "F"; "FALSE"; "false"; "False"]
       then Some false
  else None.

(** The 64-bit [int] a product wraps to. *)
Definition wrapInt (z : Z) : Z := (z + 2 ^ 63) mod 2 ^ 64 - 2 ^ 63.

(** The environment of the process, as [os.LookupEnv] reads it. *)
Definition Env : Type := string → option string.

(** What stops the loading of the configuration: the messages of
    [getRequiredEnv] and of the two loaders. *)
Inductive ConfigError :=
| NotSet (key : string)          (* "%s not set" *)
| NotANumber (key : string)      (* "%s is not a number" *)
| NotJsonArray                   (* "TS3_IGNORED_CHANNELS is not a valid json array" *)
| NotBoolean.                    (* "TS3_ALLOW_GRACE_PERIOD is not a boolean" *)

Definition bindE {A B} (r : ConfigError + A) (k : A → ConfigError + B)
    : ConfigError + B :=
  match r with
  | inl e => inl e
  | inr a => k a
  end.

Definition orError {A} (e : ConfigError) (o : option A) : ConfigError + A :=
  match o with
  | Some a => inr a
  | None => inl e
  end.

Declare Scope load_scope.
Delimit Scope load_scope with load.
Notation "'let?' x ':=' r 'in' k" := (bindE r (fun x => k))
  (at level 10, x name, r at level 100, k at level 200) : load_scope.

(** [getRequiredEnv] of part_001 and part_002; src/main.go has the same
    test in line for each variable. *)
Definition getRequiredEnv (env : Env) (key : string) : ConfigError + string :=
  orError (NotSet key) (env key).

(** ** Observable actions of a cycle *)

Inductive ListKind := Channels | Clients.

Inductive ItemError :=
| ExecFailed            (* zap.S().Error(err) after clientinfo *)
| IdleTimeNotFound      (* "client_idle_time not found" *)
| AtoiFailed            (* zap.S().Error(err) after strconv.Atoi *)
| MoveFailed.           (* zap.S().Error(err) after clientmove *)

Inductive SkipReason :=
| AllowedChannel        (* "... but in allowed channel" *)
| AlreadyAfk            (* "... but already in afk channel" *)
| SoloInChannel         (* "... but solo in channel" *)
| GracePeriod.          (* "... but in grace period" *)

Inductive Event :=
| ErrorList (k : ListKind)                       (* Errorf "Error getting ... list" *)
| ErrorItem (e : ItemError)
| InfoRecentJoin (nick : string)                 (* "... ignored for 10 seconds due to recent join" *)
| InfoSkip (r : SkipReason) (nick : string) (secs : Z)
| ExecMove (clid cid : Z)                        (* Exec "clientmove clid=%d cid=%d" *)
| Slept (secs : Z).

(** How the process ends: [zap.S().Fatal]/[log.Fatal], or the run-time
    panic of [exec[0]] on an empty reply. *)
Inductive ExitCause := LogFatal | IndexPanic.

Inductive Status (A : Type) :=
| Running (a : A)
| Exited (why : ExitCause).
Arguments Running {A}.
Arguments Exited {A}.

(** ** The monad of a cycle *)

Section Monad.
Context {W S : Type}.

Record Outcome (A : Type) := {
  trace : list Event;
  world : W;
  store : S;
  status : Status A
}.
Arguments trace {A}.
Arguments world {A}.
Arguments store {A}.
Arguments status {A}.

Definition M (A : Type) : Type := W → S → Outcome A.

Definition ret {A} (a : A) : M A :=
  fun w s => {| trace := []; world := w; store := s; status := Running a |}.

Definition bind {A B} (m : M A) (k : A → M B) : M B :=
  fun w s =>
    let r := m w s in
    match status r with
    | Running a =>
        let r' := k a (world r) (store r) in
        {| trace := trace r ++ trace r'; world := world r';
           store := store r'; status := status r' |}
    | Exited why =>
        {| trace := trace r; world := world r; store := store r;
           status := Exited why |}
    end.

Definition emit (e : Event) : M unit :=
  fun w s => {| trace := [e]; world := w; store := s; status := Running tt |}.

Definition exit {A} (why : ExitCause) : M A :=
  fun w s => {| trace := []; world := w; store := s; status := Exited why |}.

Definition call {A} (f : W → A * W) : M A :=
  fun w s => {| trace := []; world := snd (f w); store := s;
                status := Running (fst (f w)) |}.

Definition ask {A} (f : W → A) : M A :=
  fun w s => {| trace := []; world := w; store := s; status := Running (f w) |}.

Definition get : M S :=
  fun w s => {| trace := []; world := w; store := s; status := Running s |}.

Definition put (s' : S) : M unit :=
  fun w _ => {| trace := []; world := w; store := s'; status := Running tt |}.

(** [for _, x := range l { body }] *)
Fixpoint forRange {A} (l : list A) (body : A → M unit) : M unit :=
  match l with
  | [] => ret tt
  | x :: rest => bind (body x) (fun _ => forRange rest body)
  end.

(** [for { body }], cut after [n] rounds. *)
Fixpoint rounds (n : nat) (body : M unit) : M unit :=
  match n with
  | O => ret tt
  | Datatypes.S n' => bind body (fun _ => rounds n' body)
  end.
End Monad.

Arguments Outcome : clear implicits.
Arguments M : clear implicits.
Arguments trace {W S A}.
Arguments world {W S A}.
Arguments store {W S A}.
Arguments status {W S A}.

Declare Scope prog_scope.
Delimit Scope prog_scope with prog.
Notation "'let!' x ':=' m 'in' k" := (bind m (fun x => k))
  (at level 10, x name, m at level 100, k at level 200) : prog_scope.
Notation "m ;;; k" := (bind m (fun _ => k))
  (at level 100, k at level 200, right associativity) : prog_scope.

(** [time.Sleep(d)] *)
Definition sleep {W S} (srv : Session W) (secs : Z) : M W S unit :=
  (emit (Slept secs) ;;; call (fun w => (tt, Sleep srv secs w)))%prog.

(** [exec[0]]: indexing an empty reply panics. *)
Definition firstLine {W S} (exec : list string) : M W S string :=
  match exec with
  | line :: _ => ret line
  | [] => exit IndexPanic
  end.

(** ** Code shared, verbatim, by the three revisions *)

(** The channel loop: the last channel named [afkChannelName] gives
    [afkChannelId] (which starts at 0), and a channel's id is appended to
    [allowedIdleChannels] once for each entry of the ignore list that
    equals its name. *)
Definition scanIgnored (ignored : list string) (channel : Channel)
    (allowedIdleChannels : list Z) : list Z :=
  fold_left (fun acc ignoredChannel =>
               if String.eqb (ChannelName channel) ignoredChannel
               then (acc ++ [CID channel])%list else acc)
            ignored allowedIdleChannels.

Fixpoint scanChannels (afkChannelName : string) (ignored : list string)
    (channels : list Channel) (afkChannelId : Z) (allowedIdleChannels : list Z)
    : Z * list Z :=
  match channels with
  | [] => (afkChannelId, allowedIdleChannels)
  | channel :: rest =>
      scanChannels afkChannelName ignored rest
        (if String.eqb (ChannelName channel) afkChannelName
         then CID channel else afkChannelId)
        (scanIgnored ignored channel allowedIdleChannels)
  end.

(** [isChannelIgnored] *)
Fixpoint isChannelIgnored (channels : list Z) (id : Z) : bool :=
  match channels with
  | [] => false
  | channel :: rest => if channel =? id then true else isChannelIgnored rest id
  end.

(** [c2.ChannelID == c.ChannelID && c2.ID != c.ID] *)
Definition coOccupant (c c2 : OnlineClient) : bool :=
  (ChannelID c2 =? ChannelID c) && negb (ID c2 =? ID c).

Section Shared.
Context {W S : Type} (srv : Session W).
Local Open Scope prog_scope.

(** The query of a client's idle time, up to the capture group:
    [Exec("clientinfo clid=%d")], [exec[0]], the regular expression and
    the test [len(matches) != 2]; [Some matches[1]] when the loop body
    goes on, [None] when it logs and continues with the next client. *)
Definition clientInfoMatch (clid : Z) : M W S (option string) :=
  let! exec := call (Exec srv (ClientInfo clid)) in
  match exec with
  | None => emit (ErrorItem ExecFailed) ;;; ret None
  | Some exec =>
      let! line := firstLine exec in
      match FindStringSubmatch line with
      | [_; digits] => ret (Some digits)
      | _ => emit (ErrorItem IdleTimeNotFound) ;;; ret None
      end
  end.

(** [Exec("clientmove clid=%d cid=%d")], an error only logged. *)
Definition moveClient (clid afkChannelId : Z) : M W S unit :=
  emit (ExecMove clid afkChannelId) ;;;
  let! moved := call (Exec srv (ClientMove clid afkChannelId)) in
  match moved with
  | None => emit (ErrorItem MoveFailed)
  | Some _ => ret tt
  end.
End Shared.

(** ** src/main.go *)

Module Main.
Record Config := {
  UserName : string;
  Password : string;
  ServerId : Z;
  Url : string;
  AfkChannelName : string;
  MaxIdleTimeMs : Z;
  IgnoredChannels : list string
}.

(** [contains], the same loop as [isChannelIgnored] of the later
    revisions. *)
Definition contains (channels : list Z) (id : Z) : bool :=
  isChannelIgnored channels id.

Section Loop.
Context {W : Type} (srv : Session W) (config : Config).
Local Open Scope prog_scope.

(** The body of [for _, client := range clients]. *)
Definition evalClient (afkChannelId : Z) (allowedIdleChannels : list Z)
    (client : OnlineClient) : M W unit unit :=
  let! matched := clientInfoMatch srv (ID client) in
  match matched with
  | None => ret tt
  | Some digits =>
      match Atoi digits with
      | None => emit (ErrorItem AtoiFailed)
      | Some idleTime =>
          if idleTime >? MaxIdleTimeMs config then
            if contains allowedIdleChannels (ChannelID client) then
              emit (InfoSkip AllowedChannel (Nickname client) (idleTime ÷ 1000))
            else if ChannelID client =? afkChannelId then
              emit (InfoSkip AlreadyAfk (Nickname client) (idleTime ÷ 1000))
            else moveClient srv (ID client) afkChannelId
          else ret tt
      end
  end.

(** The body of [for { ... }] in [main]. *)
Definition cycle : M W unit unit :=
  let! channels := call (ChannelList srv) in
  match channels with
  | None => exit LogFatal
  | Some channels =>
      let '(afkChannelId, allowedIdleChannels) :=
        scanChannels (AfkChannelName config) (IgnoredChannels config)
                     channels 0 [] in
      if afkChannelId =? 0 then exit LogFatal
      else
        let! clients := call (ClientList srv) in
        match clients with
        | None => exit LogFatal
        | Some clients =>
            forRange clients (evalClient afkChannelId allowedIdleChannels) ;;;
            sleep srv 10
        end
  end.

Definition main (n : nat) : M W unit unit := rounds n cycle.
End Loop.
Section Env.
(** [json.Unmarshal] into a [[]string], not in the repository: the decoded
    array, or [None] for an error. *)
Variable Unmarshal : string → option (list string).
Local Open Scope load_scope.

(** [parseEnvConfig]: every failure is a [Fatal]; a missing
    TS3_IGNORED_CHANNELS stands for the empty array. *)
Definition parseEnvConfig (env : Env) : ConfigError + Config :=
  let? userName := getRequiredEnv env "TS3_USER" in
  let? password := getRequiredEnv env "TS3_PASSWORD" in
  let? url := getRequiredEnv env "TS3_URL" in
  let? serverIdStr := getRequiredEnv env "TS3_SERVER_ID" in
  let? serverId := orError (NotANumber "TS3_SERVER_ID") (AtoiSigned serverIdStr) in
  let? afkChannelName := getRequiredEnv env "TS3_AFK_CHANNEL_NAME" in
  let? maxIdleTimeStr := getRequiredEnv env "TS3_MAX_IDLE_TIME_SEC" in
  let? maxIdleTimeMS :=
    orError (NotANumber "TS3_MAX_IDLE_TIME_SEC") (AtoiSigned maxIdleTimeStr) in
  let ignoredChannelsRaw :=
    match env "TS3_IGNORED_CHANNELS" with
    | Some raw => raw
    | None => "[]"
    end in
  let? ignoredChannels := orError NotJsonArray (Unmarshal ignoredChannelsRaw) in
  inr {| UserName := userName; Password := password; Url := url;
         AfkChannelName := afkChannelName;
         MaxIdleTimeMs := wrapInt (maxIdleTimeMS * 1000);
         IgnoredChannels := ignoredChannels; ServerId := serverId |}.
End Env.
End Main.

(** ** src/unnamed/part_001 *)

Module Part1.
Record Config := {
  UserName : string;
  Password : string;
  ServerId : Z;
  Url : string;
  AfkChannelName : string;
  MaxIdleTimeMs : Z;
  IgnoredChannels : list string
}.

(** [for i, v := range soloClients]: the list without the first [v]
    equal to [id], or [None] when the loop ends without a removal. *)
Fixpoint removeSolo (id : Z) (soloClients : list Z) : option (list Z) :=
  match soloClients with
  | [] => None
  | v :: rest =>
      if v =? id then Some rest
      else option_map (cons v) (removeSolo id rest)
  end.

(** [for _, c2 := range clients] of the solo check, from the values of
    [soloClients], [isSolo] and [isGracePeriod] on entry: a co-occupant
    clears [isSolo], removes one recorded id and breaks; any other [c2]
    sets [isSolo] and appends [c.ID]. *)
Fixpoint soloScan (c : OnlineClient) (clients : list OnlineClient)
    (soloClients : list Z) (isSolo isGracePeriod : bool)
    : list Z * bool * bool :=
  match clients with
  | [] => (soloClients, isSolo, isGracePeriod)
  | c2 :: rest =>
      if coOccupant c c2 then
        match removeSolo (ID c) soloClients with
        | Some soloClients' => (soloClients', false, true)
        | None => (soloClients, false, isGracePeriod)
        end
      else soloScan c rest (soloClients ++ [ID c]) true isGracePeriod
  end.

Section Loop.
Context {W : Type} (srv : Session W) (config : Config).
Local Open Scope prog_scope.

(** The body of [for _, c := range clients]; the store is the
    variable [soloClients] of [main]. *)
Definition evalClient (afkChannelId : Z) (allowedIdleChannels : list Z)
    (clients : list OnlineClient) (c : OnlineClient) : M W (list Z) unit :=
  let! matched := clientInfoMatch srv (ID c) in
  match matched with
  | None => ret tt
  | Some digits =>
      match Atoi digits with
      | None => emit (ErrorItem AtoiFailed)
      | Some idleTime =>
          if idleTime >? MaxIdleTimeMs config then
            if isChannelIgnored allowedIdleChannels (ChannelID c) then
              emit (InfoSkip AllowedChannel (Nickname c) (idleTime ÷ 1000))
            else if ChannelID c =? afkChannelId then
              emit (InfoSkip AlreadyAfk (Nickname c) (idleTime ÷ 1000))
            else
              let! soloClients := get in
              let '(soloClients', isSolo, isGracePeriod) :=
                soloScan c clients soloClients false false in
              put soloClients' ;;;
              if isSolo then
                emit (InfoSkip SoloInChannel (Nickname c) (idleTime ÷ 1000))
              else if isGracePeriod then
                emit (InfoSkip GracePeriod (Nickname c) (idleTime ÷ 1000))
              else moveClient srv (ID c) afkChannelId
          else ret tt
      end
  end.

(** The body of [for { ... }] in [main]; a list error sleeps five
    seconds and continues with the next round. *)
Definition cycle : M W (list Z) unit :=
  let! channels := call (ChannelList srv) in
  match channels with
  | None => emit (ErrorList Channels) ;;; sleep srv 5
  | Some channels =>
      let '(afkChannelId, allowedIdleChannels) :=
        scanChannels (AfkChannelName config) (IgnoredChannels config)
                     channels 0 [] in
      if afkChannelId =? 0 then exit LogFatal
      else
        let! clients := call (ClientList srv) in
        match clients with
        | None => emit (ErrorList Clients) ;;; sleep srv 5
        | Some clients =>
            forRange clients
              (evalClient afkChannelId allowedIdleChannels clients) ;;;
            sleep srv 10
        end
  end.

Definition main (n : nat) : M W (list Z) unit := rounds n cycle.
End Loop.

(** [var soloClients []int] *)
Definition initial : list Z := [].
Section Env.
Variable Unmarshal : string → option (list string).
Local Open Scope load_scope.

(** [loadConfigFromEnv]: the first failure is returned. *)
Definition loadConfigFromEnv (env : Env) : ConfigError + Config :=
  let? userName := getRequiredEnv env "TS3_USER" in
  let? password := getRequiredEnv env "TS3_PASSWORD" in
  let? url := getRequiredEnv env "TS3_URL" in
  let? serverIdStr := getRequiredEnv env "TS3_SERVER_ID" in
  let? serverId := orError (NotANumber "TS3_SERVER_ID") (AtoiSigned serverIdStr) in
  let? afkChannelName := getRequiredEnv env "TS3_AFK_CHANNEL_NAME" in
  let? maxIdleTimeStr := getRequiredEnv env "TS3_MAX_IDLE_TIME_SEC" in
  let? maxIdleTime :=
    orError (NotANumber "TS3_MAX_IDLE_TIME_SEC") (AtoiSigned maxIdleTimeStr) in
  let? ignoredChannelsRaw := getRequiredEnv env "TS3_IGNORED_CHANNELS" in
  let? ignoredChannels := orError NotJsonArray (Unmarshal ignoredChannelsRaw) in
  inr {| UserName := userName; Password := password; ServerId := serverId;
         Url := url; AfkChannelName := afkChannelName;
         MaxIdleTimeMs := wrapInt (maxIdleTime * 1000);
         IgnoredChannels := ignoredChannels |}.
End Env.
End Part1.

(** ** src/unnamed/part_002 *)

Module Part2.
Record Config := {
  UserName : string;
  Password : string;
  ServerId : Z;
  Url : string;
  AfkChannelName : string;
  MaxIdleTimeMs : Z;
  IgnoredChannels : list string;
  AllowGracePeriod : bool
}.

(** [10*time.Second], in nanoseconds. *)
Definition tenSeconds : Z := 10 * 1000000000.

(** [isSolo := true; for _, c2 := range clients { ... break }] *)
Fixpoint soloCheck (c : OnlineClient) (clients : list OnlineClient) : bool :=
  match clients with
  | [] => true
  | c2 :: rest => if coOccupant c c2 then false else soloCheck c rest
  end.

Section Loop.
Context {W : Type} (srv : Session W) (config : Config).
Local Open Scope prog_scope.

(** The test on [recentJoins] that opens both loops; the store is the
    package variable [recentJoins], channel id to time of join.  [true]
    when the client is skipped. *)
Definition recentlyJoined (c : OnlineClient) : M W (gmap Z Z) bool :=
  let! recentJoins := get in
  match recentJoins !! ChannelID c with
  | Some joinTime =>
      let! elapsed := ask (Since srv joinTime) in
      if elapsed <=? tenSeconds then
        emit (InfoRecentJoin (Nickname c)) ;;; ret true
      else ret false
  | None => ret false
  end.

(** The body of the inner [for _, c := range clients]. *)
Definition evalClient (afkChannelId : Z) (allowedIdleChannels : list Z)
    (clients : list OnlineClient) (c : OnlineClient) : M W (gmap Z Z) unit :=
  let! skipped := recentlyJoined c in
  if skipped : bool then ret tt
  else
    let! matched := clientInfoMatch srv (ID c) in
    match matched with
    | None => ret tt
    | Some digits =>
        match Atoi digits with
        | None => emit (ErrorItem AtoiFailed)
        | Some idleTime =>
            if idleTime >? MaxIdleTimeMs config then
              if isChannelIgnored allowedIdleChannels (ChannelID c) then
                emit (InfoSkip AllowedChannel (Nickname c) (idleTime ÷ 1000))
              else if ChannelID c =? afkChannelId then
                emit (InfoSkip AlreadyAfk (Nickname c) (idleTime ÷ 1000))
              else if soloCheck c clients then
                emit (InfoSkip SoloInChannel (Nickname c) (idleTime ÷ 1000))
              else moveClient srv (ID c) afkChannelId
            else ret tt
        end
    end.

(** The body of the outer [for _, c := range clients]: once the
    client's reply carries an idle time, the whole client list is
    evaluated by the inner loop. *)
Definition outerClient (afkChannelId : Z) (allowedIdleChannels : list Z)
    (clients : list OnlineClient) (c : OnlineClient) : M W (gmap Z Z) unit :=
  let! skipped := recentlyJoined c in
  if skipped : bool then ret tt
  else
    let! matched := clientInfoMatch srv (ID c) in
    match matched with
    | None => ret tt
    | Some _ =>
        forRange clients
          (evalClient afkChannelId allowedIdleChannels clients)
    end.

Definition processClients : M W (gmap Z Z) unit :=
  let! channels := call (ChannelList srv) in
  match channels with
  | None => emit (ErrorList Channels) ;;; sleep srv 5
  | Some channels =>
      let '(afkChannelId, allowedIdleChannels) :=
        scanChannels (AfkChannelName config) (IgnoredChannels config)
                     channels 0 [] in
      if afkChannelId =? 0 then exit LogFatal
      else
        let! clients := call (ClientList srv) in
        match clients with
        | None => emit (ErrorList Clients) ;;; sleep srv 5
        | Some clients =>
            forRange clients
              (outerClient afkChannelId allowedIdleChannels clients)
        end
  end.

(** The body of [for { ... }] in [main]. *)
Definition cycle : M W (gmap Z Z) unit :=
  processClients ;;; sleep srv 10.

Definition main (n : nat) : M W (gmap Z Z) unit := rounds n cycle.
End Loop.

(** [var recentJoins = make(map[int]time.Time)] *)
Definition initial : gmap Z Z := ∅.
Section Env.
Variable Unmarshal : string → option (list string).
Local Open Scope load_scope.

(** [loadConfigFromEnv]: the first failure is returned. *)
Definition loadConfigFromEnv (env : Env) : ConfigError + Config :=
  let? userName := getRequiredEnv env "TS3_USER" in
  let? password := getRequiredEnv env "TS3_PASSWORD" in
  let? url := getRequiredEnv env "TS3_URL" in
  let? serverIdStr := getRequiredEnv env "TS3_SERVER_ID" in
  let? serverId := orError (NotANumber "TS3_SERVER_ID") (AtoiSigned serverIdStr) in
  let? afkChannelName := getRequiredEnv env "TS3_AFK_CHANNEL_NAME" in
  let? maxIdleTimeStr := getRequiredEnv env "TS3_MAX_IDLE_TIME_SEC" in
  let? maxIdleTime :=
    orError (NotANumber "TS3_MAX_IDLE_TIME_SEC") (AtoiSigned maxIdleTimeStr) in
  let? ignoredChannelsRaw := getRequiredEnv env "TS3_IGNORED_CHANNELS" in
  let? ignoredChannels := orError NotJsonArray (Unmarshal ignoredChannelsRaw) in
  let? allowGracePeriod := getRequiredEnv env "TS3_ALLOW_GRACE_PERIOD" in
  let? allow := orError NotBoolean (ParseBool allowGracePeriod) in
  inr {| UserName := userName; Password := password; ServerId := serverId;
         Url := url; AfkChannelName := afkChannelName;
         MaxIdleTimeMs := wrapInt (maxIdleTime * 1000);
         IgnoredChannels := ignoredChannels; AllowGracePeriod := allow |}.
End Env.
End Part2.

(** ** Concrete servers and snapshots *)

Module Scenario.
(** A server that does not change: the same lists in every cycle, the
    same reply to every [clientinfo], every [clientmove] accepted. *)
Definition fixedServer (channels : option (list Channel))
    (clients : option (list OnlineClient))
    (clientinfo : Z → option (list string)) : Session unit := {|
  ChannelList := fun w => (channels, w);
  ClientList := fun w => (clients, w);
  Exec := fun cmd w =>
    match cmd with
    | ClientInfo clid => (clientinfo clid, w)
    | ClientMove _ _ => (Some [], w)
    end;
  Since := fun _ _ => 0;
  Sleep := fun _ w => w
|}.

(** The snapshot of the specification's worked scenario. *)
Definition channels : list Channel :=
  [ {| CID := 1; ChannelName := "Lobby" |};
    {| CID := 2; ChannelName := "AFK" |};
    {| CID := 3; ChannelName := "Quiet" |} ].

Definition clientA := {| ID := 10; ChannelID := 1; Nickname := "A" |}.
Definition clientB := {| ID := 11; ChannelID := 1; Nickname := "B" |}.
Definition clientC := {| ID := 12; ChannelID := 3; Nickname := "C" |}.

Definition clients : list OnlineClient := [clientA; clientB; clientC].

Definition clientinfo (clid : Z) : option (list string) :=
  if clid =? 10 then Some ["cid=1 client_idle_time=120000 client_nickname=A"]
  else if clid =? 11 then Some ["cid=1 client_idle_time=500 client_nickname=B"]
  else if clid =? 12 then Some ["cid=3 client_idle_time=900000 client_nickname=C"]
  else None.

Definition server : Session unit :=
  fixedServer (Some channels) (Some clients) clientinfo.

Definition mainConfig : Main.Config := {|
  Main.UserName := "serveradmin"; Main.Password := "secret";
  Main.ServerId := 1; Main.Url := "ts.example.org:10011";
  Main.AfkChannelName := "AFK"; Main.MaxIdleTimeMs := 60000;
  Main.IgnoredChannels := ["Quiet"] |}.

Definition part1Config : Part1.Config := {|
  Part1.UserName := "serveradmin"; Part1.Password := "secret";
  Part1.ServerId := 1; Part1.Url := "ts.example.org:10011";
  Part1.AfkChannelName := "AFK"; Part1.MaxIdleTimeMs := 60000;
  Part1.IgnoredChannels := ["Quiet"] |}.

Definition part2Config (allowGracePeriod : bool) : Part2.Config := {|
  Part2.UserName := "serveradmin"; Part2.Password := "secret";
  Part2.ServerId := 1; Part2.Url := "ts.example.org:10011";
  Part2.AfkChannelName := "AFK"; Part2.MaxIdleTimeMs := 60000;
  Part2.IgnoredChannels := ["Quiet"];
  Part2.AllowGracePeriod := allowGracePeriod |}.

(** A client that sits in the AFK channel, idle for two hours. *)
Definition clientD := {| ID := 13; ChannelID := 2; Nickname := "D" |}.

Definition clientinfoD (clid : Z) : option (list string) :=
  if clid =? 13 then Some ["cid=2 client_idle_time=7200000 client_nickname=D"]
  else clientinfo clid.

Definition afkServer : Session unit :=
  fixedServer (Some channels) (Some [clientA; clientB; clientD]) clientinfoD.

(** A server without the AFK channel. *)
Definition noAfkChannels : list Channel :=
  [ {| CID := 1; ChannelName := "Lobby" |};
    {| CID := 3; ChannelName := "Quiet" |} ].

Definition noAfkServer : Session unit :=
  fixedServer (Some noAfkChannels) (Some clients) clientinfo.

(** Servers whose channel list, or client list, cannot be fetched. *)
Definition channelErrorServer : Session unit :=
  fixedServer None (Some clients) clientinfo.

Definition clientErrorServer : Session unit :=
  fixedServer (Some channels) None clientinfo.

(** Client A alone in the lobby. *)
Definition soloClients : list OnlineClient := [clientA; clientC].

Definition soloServer : Session unit :=
  fixedServer (Some channels) (Some soloClients) clientinfo.

(** A server whose snapshot changes from one cycle to the next: the
    world counts the sleeps.  Client A is alone in the lobby in the first
    cycle; from the second cycle on client B is there too, listed first. *)
Definition joinedClients : list OnlineClient := [clientB; clientA; clientC].

Definition phasedServer : Session nat := {|
  ChannelList := fun w => (Some channels, w);
  ClientList := fun w =>
    (Some match w with O => soloClients | _ => joinedClients end, w);
  Exec := fun cmd w =>
    match cmd with
    | ClientInfo clid => (clientinfo clid, w)
    | ClientMove _ _ => (Some [], w)
    end;
  Since := fun _ _ => 0;
  Sleep := fun _ w => S w
|}.
End Scenario.

(** ** Notions used in the statements *)

(** The capture group the program extracts from a [clientinfo] reply. *)
Definition replyDigits (reply : option (list string)) : option string :=
  match reply with
  | Some (line :: _) =>
      match FindStringSubmatch line with
      | [_; digits] => Some digits
      | _ => None
      end
  | _ => None
  end.

(** The idle time the program reads when it queries [clid] in world [w]. *)
Definition idleTimeAt {W} (srv : Session W) (clid : Z) (w : W) : option Z :=
  match replyDigits (Exec srv (ClientInfo clid) w).1 with
  | Some digits => Atoi digits
  | None => None
  end.

(** Whatever the world, the client's reply carries an idle time above
    the threshold. *)
Definition idleBeyond {W} (srv : Session W) (maxIdleTimeMs clid : Z) : Prop :=
  ∀ w, ∃ idleTime, idleTimeAt srv clid w = Some idleTime ∧ idleTime > maxIdleTimeMs.

(** No successful [clientinfo] reply is empty, so [exec[0]] never panics. *)
Definition repliesNonEmpty {W} (srv : Session W) : Prop :=
  ∀ clid w, (Exec srv (ClientInfo clid) w).1 ≠ Some [].

(** No other client of the snapshot shares the channel of [c]. *)
Definition alone (clients : list OnlineClient) (c : OnlineClient) : Prop :=
  ∀ c2, c2 ∈ clients → coOccupant c c2 = false.

(** [afkChannelId] and [allowedIdleChannels] after the channel loop. *)
Definition afkChannelIdOf (afkChannelName : string) (ignored : list string)
    (channels : list Channel) : Z :=
  (scanChannels afkChannelName ignored channels 0 []).1.

Definition allowedIdleChannelsOf (afkChannelName : string) (ignored : list string)
    (channels : list Channel) : list Z :=
  (scanChannels afkChannelName ignored channels 0 []).2.

(** Every move command among the actions satisfies [Q]. *)
Definition movesOnly (Q : Z → Z → Prop) (e : Event) : Prop :=
  ∀ clid cid, e = ExecMove clid cid → Q clid cid.

Definition notMoveOf (clid : Z) (e : Event) : Prop :=
  ∀ cid, e ≠ ExecMove clid cid.

(** The move commands of a trace, in order. *)
Definition moves (t : list Event) : list (Z * Z) :=
  omap (fun e => match e with
                 | ExecMove clid cid => Some (clid, cid)
                 | _ => None
                 end) t.

(** No client is skipped for a recent join. *)
Definition notRecentJoin (e : Event) : Prop := ∀ nick, e ≠ InfoRecentJoin nick.

(** The three ways the query of a client ends: an error logged, the
    panic of [exec[0]], or the capture group. *)
Inductive MatchResult {W} (srv : Session W) (clid : Z) (w : W)
  : list Event → Status (option string) → Prop :=
| MatchError e :
    replyDigits (Exec srv (ClientInfo clid) w).1 = None →
    MatchResult srv clid w [ErrorItem e] (Running None)
| MatchPanic :
    (Exec srv (ClientInfo clid) w).1 = Some [] →
    MatchResult srv clid w [] (Exited IndexPanic)
| MatchDigits digits :
    replyDigits (Exec srv (ClientInfo clid) w).1 = Some digits →
    MatchResult srv clid w [] (Running (Some digits)).

(** The configuration with the grace-period flag set to the given value
    and nothing else changed. *)
Definition setAllowGracePeriod (allowGracePeriod : bool) (config : Part2.Config)
    : Part2.Config := {|
  Part2.UserName := Part2.UserName config;
  Part2.Password := Part2.Password config;
  Part2.ServerId := Part2.ServerId config;
  Part2.Url := Part2.Url config;
  Part2.AfkChannelName := Part2.AfkChannelName config;
  Part2.MaxIdleTimeMs := Part2.MaxIdleTimeMs config;
  Part2.IgnoredChannels := Part2.IgnoredChannels config;
  Part2.AllowGracePeriod := allowGracePeriod |}.

(** How many times [id] is recorded in [soloClients]. *)
Fixpoint occurrences (id : Z) (soloClients : list Z) : nat :=
  match soloClients with
  | [] => O
  | v :: rest => if v =? id then Datatypes.S (occurrences id rest) else occurrences id rest
  end.

(** ** Notions used in the further properties *)

(** The idle time that is read for [clid] in world [w] is above the
    threshold. *)
Definition readAbove {W} (srv : Session W) (maxIdleTimeMs clid : Z) (w : W) : Prop :=
  ∃ idleTime, idleTimeAt srv clid w = Some idleTime ∧ idleTime > maxIdleTimeMs.

(** [recentJoins] holds, for the channel of [c], a join time that is at
    most ten seconds old in world [w]. *)
Definition freshJoin {W} (srv : Session W) (recentJoins : gmap Z Z)
    (c : OnlineClient) (w : W) : Prop :=
  ∃ joinTime, recentJoins !! ChannelID c = Some joinTime ∧
              Since srv joinTime w <= Part2.tenSeconds.

(** Every character of [s] is a decimal digit. *)
Fixpoint allDigits (s : string) : bool :=
  match s with
  | EmptyString => true
  | String a rest => isDigit a && allDigits rest
  end.

(** How many of the move commands of a trace are for [clid]. *)
Definition moveCount (clid : Z) (t : list Event) : nat :=
  occurrences clid (moves t).*1.

(** The variables each loader reads. *)
Definition mainRequired : list string :=
  ["TS3_USER"; "TS3_PASSWORD"; "TS3_URL"; "TS3_SERVER_ID";
   "TS3_AFK_CHANNEL_NAME"; "TS3_MAX_IDLE_TIME_SEC"].

Definition part1Required : list string :=
  mainRequired ++ ["TS3_IGNORED_CHANNELS"].

Definition part2Required : list string :=
  part1Required ++ ["TS3_ALLOW_GRACE_PERIOD"].

(** The configuration of src/main.go as one of part_001, and one of
    part_001 with the flag of part_002. *)
Definition part1OfMain (config : Main.Config) : Part1.Config := {|
  Part1.UserName := Main.UserName config;
  Part1.Password := Main.Password config;
  Part1.ServerId := Main.ServerId config;
  Part1.Url := Main.Url config;
  Part1.AfkChannelName := Main.AfkChannelName config;
  Part1.MaxIdleTimeMs := Main.MaxIdleTimeMs config;
  Part1.IgnoredChannels := Main.IgnoredChannels config |}.

Definition part2OfPart1 (config : Part1.Config) (allowGracePeriod : bool)
    : Part2.Config := {|
  Part2.UserName := Part1.UserName config;
  Part2.Password := Part1.Password config;
  Part2.ServerId := Part1.ServerId config;
  Part2.Url := Part1.Url config;
  Part2.AfkChannelName := Part1.AfkChannelName config;
  Part2.MaxIdleTimeMs := Part1.MaxIdleTimeMs config;
  Part2.IgnoredChannels := Part1.IgnoredChannels config;
  Part2.AllowGracePeriod := allowGracePeriod |}.

(** [env] with [key] set to [value]. *)
Definition setenv (key value : string) (env : Env) : Env :=
  fun k => if String.eqb k key then Some value else env k.

(** The threshold a loader computes from the environment: the decimal
    value of TS3_MAX_IDLE_TIME_SEC, an [int], times 1000 in [int]
    arithmetic. *)
Definition thresholdOf (env : Env) (maxIdleTimeMs : Z) : Prop :=
  ∃ maxIdleTimeStr seconds,
    env "TS3_MAX_IDLE_TIME_SEC" = Some maxIdleTimeStr ∧
    AtoiSigned maxIdleTimeStr = Some seconds ∧
    maxIdleTimeMs = wrapInt (seconds * 1000) ∧
    - 2 ^ 63 <= maxIdleTimeMs <= maxInt ∧
    (- 9223372036854775 <= seconds <= 9223372036854775 →
     maxIdleTimeMs = seconds * 1000).

(** What an error of a loader says of the environment. *)
Definition explains (Unmarshal : string → option (list string)) (env : Env)
    (e : ConfigError) : Prop :=
  match e with
  | NotSet key => key ∈ part2Required ∧ env key = None
  | NotANumber key =>
      key ∈ ["TS3_SERVER_ID"; "TS3_MAX_IDLE_TIME_SEC"] ∧
      ∃ value, env key = Some value ∧ AtoiSigned value = None
  | NotJsonArray =>
      Unmarshal (default "[]" (env "TS3_IGNORED_CHANNELS")) = None
  | NotBoolean =>
      ∃ value, env "TS3_ALLOW_GRACE_PERIOD" = Some value ∧ ParseBool value = None
  end.

(** The seconds the actions spend in [time.Sleep]. *)
Fixpoint slept (t : list Event) : Z :=
  match t with
  | [] => 0
  | Slept secs :: rest => secs + slept rest
  | _ :: rest => slept rest
  end.

Definition notSlept (e : Event) : Prop := ∀ secs, e ≠ Slept secs.

(** ** Further servers, and environments of the process *)

Module Samples.
Import Scenario.

(** Two channels carry the AFK name; one more follows them. *)
Definition twoAfkChannels : list Channel :=
  [ {| CID := 1; ChannelName := "AFK" |};
    {| CID := 2; ChannelName := "Lobby" |};
    {| CID := 4; ChannelName := "AFK" |};
    {| CID := 3; ChannelName := "Quiet" |} ].

(** The channel with the AFK name has id 0. *)
Definition zeroAfkChannels : list Channel :=
  [ {| CID := 1; ChannelName := "Lobby" |};
    {| CID := 0; ChannelName := "AFK" |} ].

Definition zeroAfkServer : Session unit :=
  fixedServer (Some zeroAfkChannels) (Some clients) clientinfo.

(** Every [clientinfo] fails. *)
Definition failingServer : Session unit :=
  fixedServer (Some channels) (Some clients) (fun _ => None).

(** The reply for client A is there, and empty. *)
Definition emptyReplyServer : Session unit :=
  fixedServer (Some channels) (Some clients)
    (fun clid => if clid =? 10 then Some [] else clientinfo clid).

(** Client C listed first, its reply there and empty; client A alone in
    the lobby after it. *)
Definition emptyFirstServer : Session unit :=
  fixedServer (Some channels) (Some [clientC; clientA])
    (fun clid => if clid =? 12 then Some [] else clientinfo clid).

(** Client B listed before client A, in the same channel. *)
Definition joinedServer : Session unit :=
  fixedServer (Some channels) (Some joinedClients) clientinfo.

(** A join into the lobby at time 0. *)
Definition lobbyJoin : gmap Z Z := {[ 1 := 0 ]}.

(** An environment from a list of settings, the first setting of a
    variable counting. *)
Definition envOf (settings : list (string * string)) : Env :=
  fun key => snd <$> List.find (fun setting => String.eqb setting.1 key) settings.

Definition sixSettings : list (string * string) :=
  [ ("TS3_USER", "serveradmin"); ("TS3_PASSWORD", "secret");
    ("TS3_URL", "ts.example.org:10011"); ("TS3_SERVER_ID", "1");
    ("TS3_AFK_CHANNEL_NAME", "AFK"); ("TS3_MAX_IDLE_TIME_SEC", "60") ].

(** The six variables src/main.go requires, and nothing else. *)
Definition sixEnv : Env := envOf sixSettings.

(** All eight variables. *)
Definition fullEnv : Env :=
  envOf (sixSettings ++ [ ("TS3_IGNORED_CHANNELS", "[]");
                          ("TS3_ALLOW_GRACE_PERIOD", "true") ]).

(** All variables but TS3_USER. *)
Definition noUserEnv : Env :=
  envOf (tail sixSettings ++ [ ("TS3_IGNORED_CHANNELS", "[]");
                               ("TS3_ALLOW_GRACE_PERIOD", "true") ]).

(** TS3_MAX_IDLE_TIME_SEC is not a number. *)
Definition badNumberEnv : Env := setenv "TS3_MAX_IDLE_TIME_SEC" "1m" fullEnv.

(** A decoder that knows the empty array only. *)
Definition emptyArrayOnly (raw : string) : option (list string) :=
  if String.eqb raw "[]" then Some [] else None.
End Samples.

(** * Properties *)

(** ** The library functions on sample replies *)

Example FindStringSubmatch_clientinfo :
  FindStringSubmatch "cid=1 client_idle_time=120000 client_nickname=A"
  = ["client_idle_time=120000"; "120000"].
Proof. reflexivity. Qed.

Example FindStringSubmatch_leftmost :
  FindStringSubmatch "client_idle_time= client_idle_time=7x client_idle_time=9"
  = ["client_idle_time=7"; "7"].
Proof. reflexivity. Qed.

Example FindStringSubmatch_no_digits :
  FindStringSubmatch "cid=1 client_idle_time=abc" = [].
Proof. reflexivity. Qed.

Example Atoi_largest : Atoi "9223372036854775807" = Some maxInt.
Proof. reflexivity. Qed.

Example Atoi_out_of_range : Atoi "9223372036854775808" = None.
Proof. reflexivity. Qed.

Example scanChannels_scenario :
  scanChannels "AFK" ["Quiet"] Scenario.channels 0 [] = (2, [3]).
Proof. reflexivity. Qed.

Example soloScan_first_in_list :
  Part1.soloScan Scenario.clientA Scenario.clients [] false false = ([], false, true).
Proof. reflexivity. Qed.

(** ** The monad *)

Section MonadFacts.
Context {W S : Type}.
Implicit Types (w : W) (s : S).

(** A property of every action of every round of the body, under an
    invariant of the store, is a property of every action of the loop. *)
Lemma forRange_trace {A} (P : Event → Prop) (I : S → Prop)
    (l : list A) (body : A → M W S unit) :
  (∀ x w s, x ∈ l → I s →
     Forall P (trace (body x w s)) ∧ I (store (body x w s))) →
  ∀ w s, I s →
    Forall P (trace (forRange l body w s)) ∧ I (store (forRange l body w s)).
Proof.
  induction l as [|x l IH]; intros Hbody w s Hs; simpl.
  - by split.
  - unfold bind.
    destruct (Hbody x w s) as [Ht Hi]; [left | done |].
    destruct (status (body x w s)) as [[]|why]; simpl; [|done].
    destruct (IH (fun y w' s' Hy => Hbody y w' s' (list_elem_of_further _ _ _ Hy))
                 (world (body x w s)) (store (body x w s)) Hi) as [Ht' Hi'].
    split; [by apply Forall_app | done].
Qed.

(** Laws of [bind] at a given world and store. *)
Lemma bind_call {A B} (f : W → A * W) (k : A → M W S B) w s :
  bind (call f) k w s = k (f w).1 (f w).2 s.
Proof. unfold bind, call; cbn. by destruct (k (f w).1 (f w).2 s). Qed.

Lemma bind_get {B} (k : S → M W S B) w s : bind get k w s = k s w s.
Proof. unfold bind, get; cbn. by destruct (k s w s). Qed.

Lemma bind_Forall {A B} (P : Event → Prop) (m : M W S A) (k : A → M W S B) w s :
  Forall P (trace (m w s)) →
  (∀ a w' s', Forall P (trace (k a w' s'))) →
  Forall P (trace (bind m k w s)).
Proof.
  intros Hm Hk. unfold bind. destruct (status (m w s)); cbn; [|done].
  apply Forall_app; auto.
Qed.

Lemma bind_Forall_at {A B} (P : Event → Prop) (m : M W S A) (k : A → M W S B) w s :
  Forall P (trace (m w s)) →
  (∀ a, status (m w s) = Running a →
        Forall P (trace (k a (world (m w s)) (store (m w s))))) →
  Forall P (trace (bind m k w s)).
Proof.
  intros Hm Hk. unfold bind. destruct (status (m w s)); cbn; [|done].
  apply Forall_app; auto.
Qed.

Lemma bind_store {A B} (I : S → Prop) (m : M W S A) (k : A → M W S B) w s :
  I (store (m w s)) →
  (∀ a w' s', I s' → I (store (k a w' s'))) →
  I (store (bind m k w s)).
Proof.
  intros Hm Hk. unfold bind. destruct (status (m w s)); cbn; auto.
Qed.

Lemma bind_running {A B} (m : M W S A) (k : A → M W S B) w s a :
  status (m w s) = Running a →
  bind m k w s
  = {| trace := trace (m w s) ++ trace (k a (world (m w s)) (store (m w s)));
       world := world (k a (world (m w s)) (store (m w s)));
       store := store (k a (world (m w s)) (store (m w s)));
       status := status (k a (world (m w s)) (store (m w s))) |}.
Proof. intros H. unfold bind. by rewrite H. Qed.

Lemma bind_exited {A B} (m : M W S A) (k : A → M W S B) w s why :
  status (m w s) = Exited why →
  status (bind m k w s) = Exited why ∧ trace (bind m k w s) = trace (m w s).
Proof. intros H. unfold bind. by rewrite H. Qed.

(** A loop whose rounds all return returns. *)
Lemma forRange_running {A} (I : S → Prop) (l : list A) (body : A → M W S unit) :
  (∀ x w s, x ∈ l → I s →
     status (body x w s) = Running tt ∧ I (store (body x w s))) →
  ∀ w s, I s →
    status (forRange l body w s) = Running tt ∧ I (store (forRange l body w s)).
Proof.
  induction l as [|x l IH]; intros Hbody w s Hs; cbn; [done|].
  destruct (Hbody x w s) as [Hr Hi]; [left | done |].
  rewrite (bind_running _ _ _ _ _ Hr); cbn.
  apply IH; [|done]. intros y w' s' Hy. apply Hbody. by right.
Qed.

(** An action of one round is an action of the loop, when the rounds
    before it return. *)
Lemma forRange_emits {A} (e : Event) (I : S → Prop)
    (l : list A) (body : A → M W S unit) (x0 : A) :
  x0 ∈ l →
  (∀ x w s, x ∈ l → I s →
     status (body x w s) = Running tt ∧ I (store (body x w s))) →
  (∀ w s, I s → e ∈ trace (body x0 w s)) →
  ∀ w s, I s → e ∈ trace (forRange l body w s).
Proof.
  intros Hin Hbody H0.
  induction l as [|x l IH]; intros w s Hs; [by apply elem_of_nil in Hin|].
  cbn. destruct (Hbody x w s) as [Hr Hi]; [left | done |].
  rewrite (bind_running _ _ _ _ _ Hr); cbn. apply elem_of_app.
  apply elem_of_cons in Hin as [<- | Hin]; [left; auto | right].
  apply IH; auto. intros y w' s' Hy. apply Hbody. by right.
Qed.

(** What one round establishes of the store and every round keeps
    holds when the loop ends. *)
Lemma forRange_establishes {A} (J : S → Prop)
    (l : list A) (body : A → M W S unit) (x0 : A) :
  x0 ∈ l →
  (∀ x w s, x ∈ l → status (body x w s) = Running tt) →
  (∀ x w s, x ∈ l → J s → J (store (body x w s))) →
  (∀ w s, J (store (body x0 w s))) →
  ∀ w s, J (store (forRange l body w s)).
Proof.
  intros Hin Hrun Hkeep H0.
  induction l as [|x l IH]; intros w s; [by apply elem_of_nil in Hin|].
  cbn. rewrite (bind_running _ _ _ _ tt); [|apply Hrun; left]. cbn.
  apply elem_of_cons in Hin as [<- | Hin].
  - apply (forRange_running J l body); auto.
    intros y w' s' Hy HJ. split; [apply Hrun | apply Hkeep]; auto; by right.
  - apply IH; auto; intros y w' s' Hy; [apply Hrun | apply Hkeep]; by right.
Qed.
(** The same for the rounds of the main loop. *)
Lemma rounds_trace (P : Event → Prop) (I : S → Prop) (n : nat) (body : M W S unit) :
  (∀ w s, I s → Forall P (trace (body w s)) ∧ I (store (body w s))) →
  ∀ w s, I s →
    Forall P (trace (rounds n body w s)) ∧ I (store (rounds n body w s)).
Proof.
  intros Hbody. induction n as [|n IH]; intros w s Hs; simpl.
  - by split.
  - unfold bind. destruct (Hbody w s Hs) as [Ht Hi].
    destruct (status (body w s)) as [[]|why]; simpl; [|done].
    destruct (IH (world (body w s)) (store (body w s)) Hi) as [Ht' Hi'].
    split; [by apply Forall_app | done].
Qed.

(** A measure of the store that no round lowers and one round raises is
    higher when the loop ends. *)
Lemma forRange_grows {A} (m : S → nat) (l : list A) (body : A → M W S unit) (x0 : A) :
  x0 ∈ l →
  (∀ x w s, x ∈ l → status (body x w s) = Running tt) →
  (∀ x w s, x ∈ l → (m s ≤ m (store (body x w s)))%nat) →
  (∀ w s, (m s < m (store (body x0 w s)))%nat) →
  ∀ w s, (m s < m (store (forRange l body w s)))%nat.
Proof.
  intros Hin Hrun Hmono H0.
  induction l as [|x l IH]; intros w s; [by apply elem_of_nil in Hin|].
  cbn. rewrite (bind_running _ _ _ _ tt); [|apply Hrun; left]. cbn.
  apply elem_of_cons in Hin as [<- | Hin].
  - eapply Nat.lt_le_trans; [apply (H0 w s)|].
    apply (forRange_running (fun s' => (m (store (body x0 w s)) ≤ m s')%nat) l body);
      [|done].
    intros y w' s' Hy Hle. split; [apply Hrun; by right|].
    etrans; [exact Hle|]. apply Hmono. by right.
  - eapply Nat.le_lt_trans; [apply (Hmono x w s); left|].
    apply IH; auto; intros y w' s' Hy; [apply Hrun | apply Hmono]; by right.
Qed.
End MonadFacts.

Arguments moveClient : simpl never.
Arguments clientInfoMatch : simpl never.

Section SharedFacts.
Context {W S : Type} (srv : Session W).
Implicit Types (w : W) (s : S).

Lemma clientInfoMatch_eq clid w s :
  ∃ t st, MatchResult srv clid w t st ∧
    clientInfoMatch (S:=S) srv clid w s
    = {| trace := t; world := (Exec srv (ClientInfo clid) w).2;
         store := s; status := st |}.
Proof.
  unfold clientInfoMatch, bind, call, firstLine. cbn.
  destruct (Exec srv (ClientInfo clid) w) as [[[|line exec]|] w'] eqn:E; cbn.
  - eexists _, _. split; [|reflexivity]. apply MatchPanic. by rewrite E.
  - destruct (FindStringSubmatch line) as [|m0 [|m1 [|m2 ms]]] eqn:F; cbn;
      eexists _, _; (split; [|reflexivity]).
    1,2,4: apply MatchError; rewrite E; cbn; by rewrite F.
    apply MatchDigits. rewrite E; cbn. by rewrite F.
  - eexists _, _. split; [|reflexivity]. apply MatchError; by rewrite E.
Qed.

Lemma moveClient_eq clid afk w s :
  ∃ t, (t = [ExecMove clid afk] ∨ t = [ExecMove clid afk; ErrorItem MoveFailed]) ∧
    moveClient (S:=S) srv clid afk w s
    = {| trace := t; world := (Exec srv (ClientMove clid afk) w).2;
         store := s; status := Running tt |}.
Proof.
  unfold moveClient, bind, call, emit. cbn.
  destruct (Exec srv (ClientMove clid afk) w) as [[reply|] w']; cbn;
    eexists; (split; [|reflexivity]); auto.
Qed.
End SharedFacts.

(** Case analysis of a loop body up to the test on the AFK channel. *)
Ltac query_cases srv c w s :=
  let Hm := fresh "Hm" in
  destruct (clientInfoMatch_eq srv (ID c) w s) as (? & ? & Hm & ->);
  destruct Hm as [?e ?Hnone | ?Hempty | ?digits ?Hdigits]; cbn;
  [ | | destruct (Atoi _) as [?idleTime|] eqn:?Hatoi; cbn;
        [ destruct (_ >? _) eqn:?Hidle; cbn;
          [ destruct (isChannelIgnored _ _) eqn:?Hignored; cbn;
            [ | destruct (ChannelID c =? _) eqn:?Hafk; cbn ] | ] | ] ].

Ltac not_a_move :=
  solve [ repeat (apply Forall_cons; split; [first [by intros ? ? [=] | by intros ? [=]] |]);
          apply Forall_nil_2 ].

Lemma isChannelIgnored_afk_ne c afk :
  (ChannelID c =? afk) = false → ChannelID c ≠ afk.
Proof. by intros ?%Z.eqb_neq. Qed.

(** ** src/main.go *)

Section MainFacts.
Context {W : Type} (srv : Session W) (config : Main.Config).

Lemma Main_evalClient_moves afk allowed c w s :
  Forall (movesOnly (fun clid cid =>
            clid = ID c ∧ cid = afk ∧ ChannelID c ≠ afk ∧
            isChannelIgnored allowed (ChannelID c) = false))
         (trace (Main.evalClient srv config afk allowed c w s)).
Proof.
  unfold Main.evalClient, Main.contains, bind.
  query_cases srv c w s; try not_a_move.
  destruct (moveClient_eq (S:=unit) srv (ID c) afk (Exec srv (ClientInfo (ID c)) w).2 s)
    as (t & [-> | ->] & ->); cbn.
  all: apply Forall_cons; split; [|not_a_move].
  all: intros ? ? [= <- <-]; by apply isChannelIgnored_afk_ne in Hafk.
Qed.
End MainFacts.

Lemma Forall_movesOnly_impl (Q Q' : Z → Z → Prop) (t : list Event) :
  (∀ clid cid, Q clid cid → Q' clid cid) →
  Forall (movesOnly Q) t → Forall (movesOnly Q') t.
Proof.
  intros HQ Ht. eapply Forall_impl; [exact Ht|].
  intros e He clid cid ->. by eapply HQ, He.
Qed.

(** The channel loop leaves [afkChannelId] alone when no name matches. *)
Lemma scanChannels_no_afk afkChannelName ignored channels afkChannelId allowed :
  (∀ channel, channel ∈ channels → ChannelName channel ≠ afkChannelName) →
  (scanChannels afkChannelName ignored channels afkChannelId allowed).1
  = afkChannelId.
Proof.
  revert afkChannelId allowed.
  induction channels as [|channel rest IH]; intros afk allowed Hno; cbn; [done|].
  destruct (String.eqb_spec (ChannelName channel) afkChannelName) as [Heq|_].
  - exfalso. by apply (Hno channel); [left|].
  - apply IH. intros ch Hch. apply Hno. by right.
Qed.

Section CycleShape.
Context {W : Type} (srv : Session W).
Implicit Types (w : W).

(** The three loop bodies once both lists are there and the AFK channel
    was found. *)
Lemma Main_cycle_eq config channels clients w w1 w2 s :
  ChannelList srv w = (Some channels, w1) →
  ClientList srv w1 = (Some clients, w2) →
  afkChannelIdOf (Main.AfkChannelName config) (Main.IgnoredChannels config) channels ≠ 0 →
  Main.cycle srv config w s
  = bind (forRange clients
            (Main.evalClient srv config
               (afkChannelIdOf (Main.AfkChannelName config) (Main.IgnoredChannels config) channels)
               (allowedIdleChannelsOf (Main.AfkChannelName config) (Main.IgnoredChannels config) channels)))
         (fun _ => sleep srv 10) w2 s.
Proof.
  unfold afkChannelIdOf, allowedIdleChannelsOf, Main.cycle. intros Hch Hcl Hafk.
  rewrite bind_call, Hch; cbn.
  destruct (scanChannels _ _ channels 0 []) as [afk allowed]; cbn in *.
  apply Z.eqb_neq in Hafk as ->.
  by rewrite bind_call, Hcl.
Qed.

Lemma Part1_cycle_eq config channels clients w w1 w2 s :
  ChannelList srv w = (Some channels, w1) →
  ClientList srv w1 = (Some clients, w2) →
  afkChannelIdOf (Part1.AfkChannelName config) (Part1.IgnoredChannels config) channels ≠ 0 →
  Part1.cycle srv config w s
  = bind (forRange clients
            (Part1.evalClient srv config
               (afkChannelIdOf (Part1.AfkChannelName config) (Part1.IgnoredChannels config) channels)
               (allowedIdleChannelsOf (Part1.AfkChannelName config) (Part1.IgnoredChannels config) channels)
               clients))
         (fun _ => sleep srv 10) w2 s.
Proof.
  unfold afkChannelIdOf, allowedIdleChannelsOf, Part1.cycle. intros Hch Hcl Hafk.
  rewrite bind_call, Hch; cbn.
  destruct (scanChannels _ _ channels 0 []) as [afk allowed]; cbn in *.
  apply Z.eqb_neq in Hafk as ->.
  by rewrite bind_call, Hcl.
Qed.

Lemma Part2_processClients_eq config channels clients w w1 w2 s :
  ChannelList srv w = (Some channels, w1) →
  ClientList srv w1 = (Some clients, w2) →
  afkChannelIdOf (Part2.AfkChannelName config) (Part2.IgnoredChannels config) channels ≠ 0 →
  Part2.processClients srv config w s
  = forRange clients
      (Part2.outerClient srv config
         (afkChannelIdOf (Part2.AfkChannelName config) (Part2.IgnoredChannels config) channels)
         (allowedIdleChannelsOf (Part2.AfkChannelName config) (Part2.IgnoredChannels config) channels)
         clients) w2 s.
Proof.
  unfold afkChannelIdOf, allowedIdleChannelsOf, Part2.processClients. intros Hch Hcl Hafk.
  rewrite bind_call, Hch; cbn.
  destruct (scanChannels _ _ channels 0 []) as [afk allowed]; cbn in *.
  apply Z.eqb_neq in Hafk as ->.
  by rewrite bind_call, Hcl.
Qed.

(** The loop bodies when the AFK channel was not found: the process
    exits before the clients are listed. *)
Lemma Main_cycle_no_afk config channels w w1 s :
  ChannelList srv w = (Some channels, w1) →
  afkChannelIdOf (Main.AfkChannelName config) (Main.IgnoredChannels config) channels = 0 →
  Main.cycle srv config w s
  = {| trace := []; world := w1; store := s; status := Exited LogFatal |}.
Proof.
  unfold afkChannelIdOf, Main.cycle. intros Hch Hafk.
  rewrite bind_call, Hch; cbn.
  destruct (scanChannels _ _ channels 0 []) as [afk allowed]; cbn in *. by subst.
Qed.

Lemma Part1_cycle_no_afk config channels w w1 s :
  ChannelList srv w = (Some channels, w1) →
  afkChannelIdOf (Part1.AfkChannelName config) (Part1.IgnoredChannels config) channels = 0 →
  Part1.cycle srv config w s
  = {| trace := []; world := w1; store := s; status := Exited LogFatal |}.
Proof.
  unfold afkChannelIdOf, Part1.cycle. intros Hch Hafk.
  rewrite bind_call, Hch; cbn.
  destruct (scanChannels _ _ channels 0 []) as [afk allowed]; cbn in *. by subst.
Qed.

Lemma Part2_processClients_no_afk config channels w w1 s :
  ChannelList srv w = (Some channels, w1) →
  afkChannelIdOf (Part2.AfkChannelName config) (Part2.IgnoredChannels config) channels = 0 →
  Part2.processClients srv config w s
  = {| trace := []; world := w1; store := s; status := Exited LogFatal |}.
Proof.
  unfold afkChannelIdOf, Part2.processClients. intros Hch Hafk.
  rewrite bind_call, Hch; cbn.
  destruct (scanChannels _ _ channels 0 []) as [afk allowed]; cbn in *. by subst.
Qed.
End CycleShape.

(** ** src/unnamed/part_001 *)

Lemma removeSolo_Some id soloClients :
  id ∈ soloClients → ∃ rest, Part1.removeSolo id soloClients = Some rest.
Proof.
  induction soloClients as [|v rest IH]; intros Hin; [by apply elem_of_nil in Hin|].
  cbn. destruct (Z.eqb_spec v id) as [->|Hne]; [by eexists|].
  apply elem_of_cons in Hin as [->|Hin]; [done|].
  destruct (IH Hin) as [rest' ->]. by eexists.
Qed.

Lemma removeSolo_other id soloClients rest x :
  Part1.removeSolo id soloClients = Some rest → x ≠ id → x ∈ soloClients → x ∈ rest.
Proof.
  revert rest. induction soloClients as [|v l IH]; intros rest; cbn; [done|].
  destruct (Z.eqb_spec v id) as [->|Hne].
  - intros [= <-] Hx Hin. apply elem_of_cons in Hin as [->|Hin]; done.
  - destruct (Part1.removeSolo id l) as [l'|]; cbn; [|done].
    intros [= <-] Hx Hin. apply elem_of_cons in Hin as [->|Hin]; [left|right].
    by apply IH.
Qed.

Lemma occurrences_app id l1 l2 :
  occurrences id (l1 ++ l2) = (occurrences id l1 + occurrences id l2)%nat.
Proof.
  induction l1 as [|v l1 IH]; cbn; [done|]. destruct (v =? id); cbn; lia.
Qed.

Lemma occurrences_replicate id n :
  occurrences id (replicate n id) = n.
Proof. induction n as [|n IH]; cbn; [done|]. rewrite Z.eqb_refl. lia. Qed.

Lemma removeSolo_occurrences id soloClients rest x :
  Part1.removeSolo id soloClients = Some rest → x ≠ id →
  occurrences x rest = occurrences x soloClients.
Proof.
  revert rest. induction soloClients as [|v l IH]; intros rest; cbn; [done|].
  destruct (Z.eqb_spec v id) as [->|Hne].
  - intros [= <-] Hx. cbn. by destruct (Z.eqb_spec id x); [congruence|].
  - destruct (Part1.removeSolo id l) as [l'|]; cbn; [|done].
    intros [= <-] Hx. cbn. by rewrite (IH l').
Qed.

(** The solo check of a client that is alone: [isSolo] is set and the
    id is appended once for every client of the snapshot. *)
Lemma soloScan_alone c clients soloClients isSolo isGracePeriod :
  alone clients c →
  Part1.soloScan c clients soloClients isSolo isGracePeriod
  = (soloClients ++ replicate (length clients) (ID c),
     match clients with [] => isSolo | _ => true end, isGracePeriod).
Proof.
  revert soloClients isSolo.
  induction clients as [|c2 rest IH]; intros soloClients isSolo Halone; cbn.
  - by rewrite app_nil_r.
  - rewrite (Halone c2) by left.
    rewrite IH by (intros c3 H3; apply Halone; by right).
    rewrite <- app_assoc. cbn. by destruct rest.
Qed.

(** The solo check only touches the id of the client it is run for. *)
Lemma soloScan_other c clients soloClients isSolo isGracePeriod x :
  x ≠ ID c → x ∈ soloClients →
  x ∈ (Part1.soloScan c clients soloClients isSolo isGracePeriod).1.1.
Proof.
  intros Hx. revert soloClients isSolo.
  induction clients as [|c2 rest IH]; intros soloClients isSolo Hin; cbn; [done|].
  destruct (coOccupant c c2).
  - destruct (Part1.removeSolo (ID c) soloClients) as [rest'|] eqn:Hrm; cbn; [|done].
    by eapply removeSolo_other.
  - apply IH. apply elem_of_app. by left.
Qed.

Lemma soloScan_other_occurrences c clients soloClients isSolo isGracePeriod x :
  x ≠ ID c →
  occurrences x (Part1.soloScan c clients soloClients isSolo isGracePeriod).1.1
  = occurrences x soloClients.
Proof.
  intros Hx. revert soloClients isSolo.
  induction clients as [|c2 rest IH]; intros soloClients isSolo; cbn; [done|].
  destruct (coOccupant c c2).
  - destruct (Part1.removeSolo (ID c) soloClients) as [rest'|] eqn:Hrm; cbn; [|done].
    by eapply removeSolo_occurrences.
  - rewrite IH, occurrences_app. cbn.
    destruct (Z.eqb_spec (ID c) x); [congruence|lia].
Qed.

(** A recorded client leaves the solo check as solo or in grace. *)
Lemma soloScan_recorded c clients soloClients isSolo isGracePeriod :
  ID c ∈ soloClients → isSolo = true ∨ clients ≠ [] →
  (Part1.soloScan c clients soloClients isSolo isGracePeriod).1.2 = true ∨
  (Part1.soloScan c clients soloClients isSolo isGracePeriod).2 = true.
Proof.
  revert soloClients isSolo.
  induction clients as [|c2 rest IH]; intros soloClients isSolo Hin Hs; cbn.
  - left. by destruct Hs.
  - destruct (coOccupant c c2).
    + destruct (removeSolo_Some _ _ Hin) as [rest' ->]. by right.
    + apply IH; [|by left]. apply elem_of_app. by left.
Qed.

Section Part1Facts.
Context {W : Type} (srv : Session W) (config : Part1.Config).
Implicit Types (w : W) (s : list Z).

(** What can be said of one round of the client loop. *)
Lemma Part1_evalClient_spec afk allowed clients c w s :
  let r := Part1.evalClient srv config afk allowed clients c w s in
  let scan := Part1.soloScan c clients s false false in
  Forall (movesOnly (fun clid cid =>
            clid = ID c ∧ cid = afk ∧ ChannelID c ≠ afk ∧
            isChannelIgnored allowed (ChannelID c) = false ∧
            scan.1.2 = false ∧ scan.2 = false)) (trace r) ∧
  (store r = s ∨ store r = scan.1.1) ∧
  ((∃ idleTime, idleTimeAt srv (ID c) w = Some idleTime ∧
                idleTime > Part1.MaxIdleTimeMs config) →
   isChannelIgnored allowed (ChannelID c) = false → ChannelID c ≠ afk →
   store r = scan.1.1) ∧
  ((Exec srv (ClientInfo (ID c)) w).1 ≠ Some [] → status r = Running tt).
Proof.
  unfold Part1.evalClient, bind, idleTimeAt.
  query_cases srv c w s.
  - split_and!; [not_a_move|by left| |done].
    intros (t & Ht & _). by rewrite Hnone in Ht.
  - split_and!; [not_a_move|by left| |done].
    intros (t & Ht & _). by rewrite Hempty in Ht.
  - split_and!; [not_a_move|by left|by intros _ [=]|done].
  - split_and!; [not_a_move|by left| |done].
    intros _ _ Hne. by apply Z.eqb_eq in Hafk.
  - destruct (Part1.soloScan c clients s false false) as [[s' isSolo] isGrace]; cbn.
    destruct isSolo; cbn; [|destruct isGrace; cbn].
    1,2: split_and!; [not_a_move|by right|done|done].
    destruct (moveClient_eq (S:=list Z) srv (ID c) afk (Exec srv (ClientInfo (ID c)) w).2 s')
      as (t & Ht & ->); cbn.
    split_and!; [|by right|done|done].
    apply isChannelIgnored_afk_ne in Hafk.
    destruct Ht as [-> | ->]; (apply Forall_cons; split; [|not_a_move]);
      by intros ? ? [= <- <-].
  - split_and!; [not_a_move|by left| |done].
    intros (t & Ht & Hgt) _ _. rewrite Hdigits, Hatoi in Ht.
    injection Ht as <-. rewrite Z.gtb_ltb in Hidle. apply Z.ltb_ge in Hidle. lia.
  - split_and!; [not_a_move|by left| |done].
    intros (t & Ht & _). by rewrite Hdigits, Hatoi in Ht.
Qed.
(** A client that is moved has a co-occupant in the snapshot. *)
Lemma Part1_loop_moves afk allowed clients l w s :
  l ⊆ clients →
  Forall (movesOnly (fun clid cid =>
            ∃ c, c ∈ l ∧ clid = ID c ∧ cid = afk ∧ ChannelID c ≠ afk ∧
                 isChannelIgnored allowed (ChannelID c) = false ∧
                 ¬ alone clients c))
         (trace (forRange l (Part1.evalClient srv config afk allowed clients) w s)).
Proof.
  intros Hsub.
  apply (forRange_trace _ (fun _ => True)); [|done].
  intros c w' s' Hc _. split; [|done].
  destruct (Part1_evalClient_spec afk allowed clients c w' s') as (Hmoves & _).
  eapply Forall_movesOnly_impl; [|exact Hmoves]. cbn.
  intros clid cid (-> & -> & Hafk & Hign & Hsolo & _).
  exists c. split_and!; try done.
  intros Halone. rewrite soloScan_alone in Hsolo by done. cbn in Hsolo.
  apply Hsub in Hc. destruct clients; [by apply elem_of_nil in Hc | done].
Qed.

(** A client whose id is recorded when the loop starts is not moved by
    the loop, when no other entry of the snapshot carries its id. *)
Lemma Part1_loop_recorded afk allowed clients clid l w s :
  l ⊆ clients → NoDup (ID <$> l) →
  clid ∈ s ∨ (∀ x, x ∈ l → ID x ≠ clid) →
  Forall (notMoveOf clid)
         (trace (forRange l (Part1.evalClient srv config afk allowed clients) w s)).
Proof.
  revert w s. induction l as [|x l IH]; intros w s Hsub Hnd Hrec; cbn; [done|].
  rewrite fmap_cons in Hnd. apply NoDup_cons in Hnd as [Hx Hnd].
  assert (Hsub' : l ⊆ clients) by (intros y Hy; apply Hsub; by right).
  destruct (Part1_evalClient_spec afk allowed clients x w s) as (Hmoves & Hstore & _).
  cbn in Hmoves, Hstore.
  assert (Hxin : clients ≠ []).
  { intros ->. by apply (elem_of_nil x), Hsub; left. }
  apply bind_Forall_at.
  - eapply Forall_impl; [exact Hmoves|]. intros e He cid ->.
    destruct (He _ _ eq_refl) as (Hid & _ & _ & _ & Hsolo & Hgrace).
    destruct Hrec as [Hin | Hnot]; [|by apply (Hnot x); [left|]].
    rewrite Hid in Hin.
    destruct (soloScan_recorded x clients s false false Hin) as [H|H];
      [by right| |]; congruence.
  - intros [] _. apply IH; [done..|].
    destruct (decide (ID x = clid)) as [<-|Hne].
    + right. intros y Hy Heq. apply Hx. rewrite <- Heq.
      by apply list_elem_of_fmap_2.
    + destruct Hrec as [Hin | Hnot]; [left | right; intros y Hy; apply Hnot; by right].
      destruct Hstore as [-> | ->]; [done|]. by apply soloScan_other.
Qed.

(** The id of a client found alone and idle is recorded once more, and
    so is in the list, when the loop ends, provided every entry that
    carries its id is alone. *)
Lemma Part1_loop_records afk allowed clients c w s :
  repliesNonEmpty srv →
  c ∈ clients →
  (∀ x, x ∈ clients → ID x = ID c → alone clients x) →
  idleBeyond srv (Part1.MaxIdleTimeMs config) (ID c) →
  isChannelIgnored allowed (ChannelID c) = false → ChannelID c ≠ afk →
  let r := forRange clients (Part1.evalClient srv config afk allowed clients) w s in
  status r = Running tt ∧
  (occurrences (ID c) s < occurrences (ID c) (store r))%nat ∧
  ID c ∈ store r.
Proof.
  intros Hne Hc Halone Hidle Hign Hafk. cbn.
  assert (Hlen : (0 < length clients)%nat).
  { destruct clients; [by apply elem_of_nil in Hc | cbn; lia]. }
  split_and!.
  - apply (forRange_running (fun _ => True)); [|done].
    intros x w' s' _ _. split; [|done].
    by apply Part1_evalClient_spec.
  - apply (forRange_grows (occurrences (ID c)) clients _ c Hc).
    + intros x w' s' _. by apply Part1_evalClient_spec.
    + intros x w' s' Hx.
      destruct (Part1_evalClient_spec afk allowed clients x w' s') as (_ & [-> | ->] & _);
        [done|].
      destruct (decide (ID x = ID c)) as [Heq|Hneq].
      * rewrite soloScan_alone by auto. cbn. rewrite occurrences_app. lia.
      * rewrite soloScan_other_occurrences by done. lia.
    + intros w' s'.
      destruct (Part1_evalClient_spec afk allowed clients c w' s') as (_ & _ & Hst & _).
      cbn in Hst. rewrite Hst; [|apply Hidle|done|done].
      rewrite soloScan_alone by auto. cbn.
      rewrite occurrences_app, occurrences_replicate. lia.
  - apply (forRange_establishes (fun s => ID c ∈ s) clients _ c Hc).
    + intros x w' s' _. by apply Part1_evalClient_spec.
    + intros x w' s' Hx Hin.
      destruct (Part1_evalClient_spec afk allowed clients x w' s') as (_ & [-> | ->] & _);
        [done|].
      destruct (decide (ID x = ID c)) as [Heq|Hneq]; [|by apply soloScan_other].
      rewrite soloScan_alone by auto. cbn. apply elem_of_app. by left.
    + intros w' s'.
      destruct (Part1_evalClient_spec afk allowed clients c w' s') as (_ & _ & Hst & _).
      cbn in Hst. rewrite Hst; [|apply Hidle|done|done].
      rewrite soloScan_alone by auto. cbn. apply elem_of_app; right.
      destruct clients; [by apply elem_of_nil in Hc|]. cbn. left.
Qed.
End Part1Facts.

(** ** src/unnamed/part_002 *)

Lemma soloCheck_alone c clients :
  Part2.soloCheck c clients = true ↔ alone clients c.
Proof.
  unfold alone. induction clients as [|c2 rest IH]; cbn.
  - split; [|done]. intros _ c2 H. by apply elem_of_nil in H.
  - destruct (coOccupant c c2) eqn:Hco.
    + split; [done|]. intros H. rewrite (H c2) in Hco by left. done.
    + rewrite IH. split.
      * intros H c3 [->|H3]%elem_of_cons; auto.
      * intros H c3 H3. apply H. by right.
Qed.

Section Part2Facts.
Context {W : Type} (srv : Session W) (config : Part2.Config).
Implicit Types (w : W) (s : gmap Z Z).

Lemma Part2_recentlyJoined_eq c w s :
  ∃ t b,
    Part2.recentlyJoined srv c w s
    = {| trace := t; world := w; store := s; status := Running b |} ∧
    ((b = false ∧ t = []) ∨
     (b = true ∧ t = [InfoRecentJoin (Nickname c)] ∧ is_Some (s !! ChannelID c))).
Proof.
  unfold Part2.recentlyJoined. rewrite bind_get.
  destruct (s !! ChannelID c) as [joinTime|] eqn:Hjoin; cbn.
  - unfold bind, ask; cbn.
    destruct (Since srv joinTime w <=? Part2.tenSeconds); cbn;
      eexists _, _; (split; [reflexivity|]); [right | left]; eauto.
  - eexists _, _. split; [reflexivity|]. by left.
Qed.

(** What can be said of one round of the inner client loop. *)
Lemma Part2_evalClient_spec afk allowed clients c w s :
  let r := Part2.evalClient srv config afk allowed clients c w s in
  Forall (movesOnly (fun clid cid =>
            clid = ID c ∧ cid = afk ∧ ChannelID c ≠ afk ∧
            isChannelIgnored allowed (ChannelID c) = false ∧
            Part2.soloCheck c clients = false)) (trace r) ∧
  store r = s ∧
  (s !! ChannelID c = None → Forall notRecentJoin (trace r)) ∧
  ((Exec srv (ClientInfo (ID c)) w).1 ≠ Some [] → status r = Running tt) ∧
  (s !! ChannelID c = None →
   (∃ idleTime, idleTimeAt srv (ID c) w = Some idleTime ∧
                idleTime > Part2.MaxIdleTimeMs config) →
   isChannelIgnored allowed (ChannelID c) = false → ChannelID c ≠ afk →
   Part2.soloCheck c clients = false →
   ExecMove (ID c) afk ∈ trace r).
Proof.
  unfold Part2.evalClient, bind, idleTimeAt.
  destruct (Part2_recentlyJoined_eq c w s) as (t0 & b & -> & Hb). cbn.
  destruct Hb as [[-> ->] | (-> & -> & Hsome)]; cbn.
  2: { split_and!; [not_a_move|done| |done|].
       all: intros Hnone; rewrite Hnone in Hsome; by destruct Hsome. }
  query_cases srv c w s.
  - split_and!; [not_a_move|done|intros _; not_a_move|done|].
    intros _ (t & Ht & _). by rewrite Hnone in Ht.
  - split_and!; [not_a_move|done|done|done|].
    intros _ (t & Ht & _). by rewrite Hempty in Ht.
  - split_and!; [not_a_move|done|intros _; not_a_move|done|by intros _ _ [=]].
  - split_and!; [not_a_move|done|intros _; not_a_move|done|].
    intros _ _ _ Hne. by apply Z.eqb_eq in Hafk.
  - destruct (Part2.soloCheck c clients) eqn:Hsolo; cbn.
    { split_and!; [not_a_move|done|intros _; not_a_move|done|by intros _ _ _ _ [=]]. }
    destruct (moveClient_eq (S:=gmap Z Z) srv (ID c) afk (Exec srv (ClientInfo (ID c)) w).2 s)
      as (t & Ht & ->); cbn.
    apply isChannelIgnored_afk_ne in Hafk.
    destruct Ht as [-> | ->].
    all: split_and!; [|done|intros _; not_a_move|done|intros; by left].
    all: apply Forall_cons; split; [|not_a_move]; by intros ? ? [= <- <-].
  - split_and!; [not_a_move|done|done|done|].
    intros _ (t & Ht & Hgt) _ _. rewrite Hdigits, Hatoi in Ht.
    injection Ht as <-. rewrite Z.gtb_ltb in Hidle. apply Z.ltb_ge in Hidle. lia.
  - split_and!; [not_a_move|done|intros _; not_a_move|done|].
    intros _ (t & Ht & _). by rewrite Hdigits, Hatoi in Ht.
Qed.

(** The inner loop over a store without recent joins. *)
Lemma Part2_inner_spec afk allowed clients l w s :
  let r := forRange l (Part2.evalClient srv config afk allowed clients) w s in
  Forall (movesOnly (fun clid cid =>
            ∃ c, c ∈ l ∧ clid = ID c ∧ cid = afk ∧ ChannelID c ≠ afk ∧
                 isChannelIgnored allowed (ChannelID c) = false ∧
                 ¬ alone clients c)) (trace r) ∧
  store r = s ∧
  (s = ∅ → Forall notRecentJoin (trace r)) ∧
  (repliesNonEmpty srv → status r = Running tt).
Proof.
  cbn. split_and!.
  - apply (forRange_trace _ (fun _ => True)); [|done].
    intros c w' s' Hc _. split; [|done].
    destruct (Part2_evalClient_spec afk allowed clients c w' s') as (Hmoves & _).
    eapply Forall_movesOnly_impl; [|exact Hmoves]. cbn.
    intros clid cid (-> & -> & Hafk & Hign & Hsolo).
    exists c. split_and!; try done.
    intros Halone%soloCheck_alone. congruence.
  - apply (forRange_trace (fun _ => True) (fun s' => s' = s)); [|done].
    intros c w' s' _ ->. split; [by apply Forall_true|].
    by apply Part2_evalClient_spec.
  - intros ->. apply (forRange_trace _ (fun s' => s' = ∅)); [|done].
    intros c w' s' _ ->. split; apply Part2_evalClient_spec. apply lookup_empty.
  - intros Hne. apply (forRange_running (fun _ => True)); [|done].
    intros c w' s' _ _. split; [|done]. by apply Part2_evalClient_spec.
Qed.

(** What can be said of one round of the outer client loop. *)
Lemma Part2_outerClient_spec afk allowed clients c w s :
  let r := Part2.outerClient srv config afk allowed clients c w s in
  Forall (movesOnly (fun clid cid =>
            ∃ c', c' ∈ clients ∧ clid = ID c' ∧ cid = afk ∧ ChannelID c' ≠ afk ∧
                  isChannelIgnored allowed (ChannelID c') = false ∧
                  ¬ alone clients c')) (trace r) ∧
  store r = s ∧
  (s = ∅ → Forall notRecentJoin (trace r)) ∧
  (repliesNonEmpty srv → status r = Running tt).
Proof.
  unfold Part2.outerClient, bind.
  destruct (Part2_recentlyJoined_eq c w s) as (t0 & b & -> & Hb). cbn.
  destruct Hb as [[-> ->] | (-> & -> & Hsome)]; cbn.
  2: { split_and!; [not_a_move|done| |done].
       intros ->. rewrite lookup_empty in Hsome. by destruct Hsome. }
  destruct (clientInfoMatch_eq (S:=gmap Z Z) srv (ID c) w s) as (t & st & Hm & ->).
  destruct Hm as [e Hnone | Hempty | digits Hdigits]; cbn.
  - split_and!; [not_a_move|done|intros _; not_a_move|done].
  - split_and!; [not_a_move|done|done|]. intros Hne. by destruct (Hne (ID c) w).
  - destruct (Part2_inner_spec afk allowed clients clients
                (Exec srv (ClientInfo (ID c)) w).2 s) as (Hmoves & Hst & Hrj & Hrun).
    cbn in *. by split_and!.
Qed.
(** An idle client with a co-occupant is moved by every round of the
    outer loop that reaches the inner loop. *)
Lemma Part2_outerClient_moves afk allowed clients c c0 w :
  repliesNonEmpty srv →
  is_Some (replyDigits (Exec srv (ClientInfo (ID c)) w).1) →
  c0 ∈ clients →
  idleBeyond srv (Part2.MaxIdleTimeMs config) (ID c0) →
  isChannelIgnored allowed (ChannelID c0) = false → ChannelID c0 ≠ afk →
  Part2.soloCheck c0 clients = false →
  ExecMove (ID c0) afk ∈ trace (Part2.outerClient srv config afk allowed clients c w ∅).
Proof.
  intros Hne [digits Hd] Hc0 Hidle Hign Hafk Hsolo.
  unfold Part2.outerClient, bind.
  destruct (Part2_recentlyJoined_eq c w ∅) as (t0 & b & -> & Hb). cbn.
  destruct Hb as [[-> ->] | (-> & -> & Hsome)]; cbn.
  2: { rewrite lookup_empty in Hsome. by destruct Hsome. }
  destruct (clientInfoMatch_eq (S:=gmap Z Z) srv (ID c) w ∅) as (t & st & Hm & ->).
  destruct Hm as [e Hnone | Hempty | digits' Hdigits]; cbn.
  - congruence.
  - by rewrite Hempty in Hd.
  - apply (forRange_emits _ (fun s => s = ∅) clients _ c0 Hc0); [| |done].
    + intros x w' s' _ ->. split; by apply Part2_evalClient_spec.
    + intros w' s' ->. apply Part2_evalClient_spec; [apply lookup_empty|apply Hidle|done..].
Qed.

Lemma Part2_loop_moves afk allowed clients c w :
  repliesNonEmpty srv →
  c ∈ clients →
  idleBeyond srv (Part2.MaxIdleTimeMs config) (ID c) →
  isChannelIgnored allowed (ChannelID c) = false → ChannelID c ≠ afk →
  Part2.soloCheck c clients = false →
  ExecMove (ID c) afk
  ∈ trace (forRange clients (Part2.outerClient srv config afk allowed clients) w ∅).
Proof.
  intros Hne Hc Hidle Hign Hafk Hsolo.
  apply (forRange_emits _ (fun s => s = ∅) clients _ c Hc); [| |done].
  - intros x w' s' _ ->. split; by apply Part2_outerClient_spec.
  - intros w' s' ->. apply Part2_outerClient_moves; auto.
    destruct (Hidle w') as (t & Ht & _). unfold idleTimeAt in Ht.
    by destruct (replyDigits _).
Qed.

(** [processClients] never writes [recentJoins], and over an empty map
    it never takes the recent-join branch. *)
Lemma Part2_processClients_spec w s :
  let r := Part2.processClients srv config w s in
  store r = s ∧ (s = ∅ → Forall notRecentJoin (trace r)).
Proof.
  unfold Part2.processClients. rewrite bind_call.
  destruct (ChannelList srv w) as [[channels|] w1]; cbn; [|split; [done|intros _; not_a_move]].
  destruct (scanChannels _ _ channels 0 []) as [afk allowed].
  destruct (afk =? 0); [split; [done | intros _; apply Forall_nil_2]|].
  rewrite bind_call.
  destruct (ClientList srv w1) as [[clients|] w2]; cbn; [|split; [done|intros _; not_a_move]].
  split.
  - apply (forRange_trace (fun _ => True) (fun s' => s' = s)); [|done].
    intros c w' s' _ ->. split; [by apply Forall_true|].
    by apply Part2_outerClient_spec.
  - intros ->. apply (forRange_trace _ (fun s' => s' = ∅)); [|done].
    intros c w' s' _ ->. split; by apply Part2_outerClient_spec.
Qed.

Lemma Part2_cycle_spec w s :
  let r := Part2.cycle srv config w s in
  store r = s ∧ (s = ∅ → Forall notRecentJoin (trace r)).
Proof.
  destruct (Part2_processClients_spec w s) as [Hst Htr].
  unfold Part2.cycle. split.
  - by apply (bind_store (fun s' => s' = s)).
  - intros Hs. apply bind_Forall; [auto|]. intros; not_a_move.
Qed.

Lemma Part2_main_spec n w :
  let r := Part2.main srv config n w ∅ in
  store r = ∅ ∧ Forall notRecentJoin (trace r).
Proof.
  destruct (rounds_trace notRecentJoin (fun s => s = ∅) n (Part2.cycle srv config))
    with (w := w) (s := (∅ : gmap Z Z)) as [Ht Hs]; [|done|by split].
  intros w' s' ->. destruct (Part2_cycle_spec w' ∅) as [? ?]. auto.
Qed.
End Part2Facts.

(** ** Moves of a whole cycle *)

Section CycleMoves.
Context {W : Type} (srv : Session W).
Implicit Types (w : W).

Lemma Main_loop_moves config afk allowed l w s :
  Forall (movesOnly (fun clid cid =>
            ∃ c, c ∈ l ∧ clid = ID c ∧ cid = afk ∧ ChannelID c ≠ afk ∧
                 isChannelIgnored allowed (ChannelID c) = false))
         (trace (forRange l (Main.evalClient srv config afk allowed) w s)).
Proof.
  apply (forRange_trace _ (fun _ => True)); [|done].
  intros c w' s' Hc _. split; [|done].
  eapply Forall_movesOnly_impl; [|apply Main_evalClient_moves]. cbn.
  intros clid cid (-> & -> & Hafk & Hign). by exists c.
Qed.

(** Every move command of a cycle is for a client of the snapshot that
    is outside the AFK channel and outside the ignored channels, sends
    it to the AFK channel and, from part_001 on, is for a client that has
    a co-occupant. *)
Lemma Main_cycle_moves config channels clients w w1 w2 s :
  ChannelList srv w = (Some channels, w1) →
  ClientList srv w1 = (Some clients, w2) →
  let afk := afkChannelIdOf (Main.AfkChannelName config) (Main.IgnoredChannels config) channels in
  let allowed := allowedIdleChannelsOf (Main.AfkChannelName config) (Main.IgnoredChannels config) channels in
  Forall (movesOnly (fun clid cid =>
            ∃ c, c ∈ clients ∧ clid = ID c ∧ cid = afk ∧ ChannelID c ≠ afk ∧
                 isChannelIgnored allowed (ChannelID c) = false))
         (trace (Main.cycle srv config w s)).
Proof.
  intros Hch Hcl afk allowed.
  destruct (decide (afk = 0)) as [H0|H0].
  - by rewrite (Main_cycle_no_afk srv config channels w w1 s Hch H0).
  - rewrite (Main_cycle_eq srv config channels clients w w1 w2 s Hch Hcl H0).
    apply bind_Forall; [apply Main_loop_moves | intros; not_a_move].
Qed.

Lemma Part1_cycle_moves config channels clients w w1 w2 s :
  ChannelList srv w = (Some channels, w1) →
  ClientList srv w1 = (Some clients, w2) →
  let afk := afkChannelIdOf (Part1.AfkChannelName config) (Part1.IgnoredChannels config) channels in
  let allowed := allowedIdleChannelsOf (Part1.AfkChannelName config) (Part1.IgnoredChannels config) channels in
  Forall (movesOnly (fun clid cid =>
            ∃ c, c ∈ clients ∧ clid = ID c ∧ cid = afk ∧ ChannelID c ≠ afk ∧
                 isChannelIgnored allowed (ChannelID c) = false ∧
                 ¬ alone clients c))
         (trace (Part1.cycle srv config w s)).
Proof.
  intros Hch Hcl afk allowed.
  destruct (decide (afk = 0)) as [H0|H0].
  - by rewrite (Part1_cycle_no_afk srv config channels w w1 s Hch H0).
  - rewrite (Part1_cycle_eq srv config channels clients w w1 w2 s Hch Hcl H0).
    apply bind_Forall; [by apply Part1_loop_moves | intros; not_a_move].
Qed.

Lemma Part2_processClients_moves config channels clients w w1 w2 s :
  ChannelList srv w = (Some channels, w1) →
  ClientList srv w1 = (Some clients, w2) →
  let afk := afkChannelIdOf (Part2.AfkChannelName config) (Part2.IgnoredChannels config) channels in
  let allowed := allowedIdleChannelsOf (Part2.AfkChannelName config) (Part2.IgnoredChannels config) channels in
  Forall (movesOnly (fun clid cid =>
            ∃ c, c ∈ clients ∧ clid = ID c ∧ cid = afk ∧ ChannelID c ≠ afk ∧
                 isChannelIgnored allowed (ChannelID c) = false ∧
                 ¬ alone clients c))
         (trace (Part2.processClients srv config w s)).
Proof.
  intros Hch Hcl afk allowed.
  destruct (decide (afk = 0)) as [H0|H0].
  - by rewrite (Part2_processClients_no_afk srv config channels w w1 s Hch H0).
  - rewrite (Part2_processClients_eq srv config channels clients w w1 w2 s Hch Hcl H0).
    apply (forRange_trace _ (fun _ => True)); [|done].
    intros c w' s' _ _. split; [|done]. by apply Part2_outerClient_spec.
Qed.

End CycleMoves.

(** A condition that every moved client meets and no entry with the id
    [clid] meets keeps [clid] in place. *)
Lemma movesOnly_notMoveOf (Q : OnlineClient → Z → Prop)
    (clients : list OnlineClient) (clid : Z) (t : list Event) :
  (∀ c cid, c ∈ clients → ID c = clid → ¬ Q c cid) →
  Forall (movesOnly (fun clid' cid => ∃ c, c ∈ clients ∧ clid' = ID c ∧ Q c cid)) t →
  Forall (notMoveOf clid) t.
Proof.
  intros Hno Ht. eapply Forall_impl; [exact Ht|].
  intros e He cid ->. destruct (He _ _ eq_refl) as (c & Hc & Hid & HQ).
  by apply (Hno c cid).
Qed.

(** ** One move for each client, in snapshot order (main.go, part_001) *)

Lemma moves_app t1 t2 : moves (t1 ++ t2) = moves t1 ++ moves t2.
Proof. apply omap_app. Qed.

Section MovesInOrder.
Context {W S : Type}.
Implicit Types (w : W) (s : S).

(** A loop whose rounds issue at most the move of their own client
    issues a sublist of the moves of all clients, in their order. *)
Lemma forRange_moves_sublist (afk : Z) (l : list OnlineClient)
    (body : OnlineClient → M W S unit) w s :
  (∀ c w' s', moves (trace (body c w' s')) `sublist_of` [(ID c, afk)]) →
  moves (trace (forRange l body w s)) `sublist_of` ((fun c => (ID c, afk)) <$> l).
Proof.
  intros Hbody. revert w s. induction l as [|c l IH]; intros w s; cbn; [done|].
  unfold bind. destruct (status (body c w s)) as [[]|why]; cbn.
  - rewrite moves_app. by apply (sublist_app _ [_]).
  - etrans; [apply Hbody|]. by apply sublist_skip, sublist_nil_l.
Qed.
End MovesInOrder.

Section MovesInOrderByRevision.
Context {W : Type} (srv : Session W).
Implicit Types (w : W).

Lemma Main_evalClient_moves_once config afk allowed c w s :
  moves (trace (Main.evalClient srv config afk allowed c w s))
  `sublist_of` [(ID c, afk)].
Proof.
  unfold Main.evalClient, Main.contains, bind.
  query_cases srv c w s; try apply sublist_nil_l.
  destruct (moveClient_eq (S:=unit) srv (ID c) afk (Exec srv (ClientInfo (ID c)) w).2 s)
    as (t & [-> | ->] & ->); by cbn.
Qed.

Lemma Part1_evalClient_moves_once config afk allowed clients c w s :
  moves (trace (Part1.evalClient srv config afk allowed clients c w s))
  `sublist_of` [(ID c, afk)].
Proof.
  unfold Part1.evalClient, bind.
  query_cases srv c w s; try apply sublist_nil_l.
  destruct (Part1.soloScan c clients s false false) as [[s' isSolo] isGrace]; cbn.
  destruct isSolo; cbn; [|destruct isGrace; cbn]; try apply sublist_nil_l.
  destruct (moveClient_eq (S:=list Z) srv (ID c) afk (Exec srv (ClientInfo (ID c)) w).2 s')
    as (t & [-> | ->] & ->); by cbn.
Qed.

(** In src/main.go and in part_001 the move commands of a cycle are a
    sublist of the clients of the snapshot, in snapshot order: at most
    one command for each entry. *)
Lemma Main_cycle_moves_in_order config channels clients w w1 w2 s :
  ChannelList srv w = (Some channels, w1) →
  ClientList srv w1 = (Some clients, w2) →
  let afk := afkChannelIdOf (Main.AfkChannelName config)
               (Main.IgnoredChannels config) channels in
  moves (trace (Main.cycle srv config w s))
  `sublist_of` ((fun c => (ID c, afk)) <$> clients).
Proof.
  intros Hch Hcl afk.
  destruct (decide (afk = 0)) as [H0|H0].
  - rewrite (Main_cycle_no_afk srv config channels w w1 s Hch H0). apply sublist_nil_l.
  - rewrite (Main_cycle_eq srv config channels clients w w1 w2 s Hch Hcl H0).
    unfold bind. destruct (status _) as [[]|why]; cbn.
    + rewrite moves_app, app_nil_r.
      apply forRange_moves_sublist, Main_evalClient_moves_once.
    + apply forRange_moves_sublist, Main_evalClient_moves_once.
Qed.

Lemma Part1_cycle_moves_in_order config channels clients w w1 w2 s :
  ChannelList srv w = (Some channels, w1) →
  ClientList srv w1 = (Some clients, w2) →
  let afk := afkChannelIdOf (Part1.AfkChannelName config)
               (Part1.IgnoredChannels config) channels in
  moves (trace (Part1.cycle srv config w s))
  `sublist_of` ((fun c => (ID c, afk)) <$> clients).
Proof.
  intros Hch Hcl afk.
  destruct (decide (afk = 0)) as [H0|H0].
  - rewrite (Part1_cycle_no_afk srv config channels w w1 s Hch H0). apply sublist_nil_l.
  - rewrite (Part1_cycle_eq srv config channels clients w w1 w2 s Hch Hcl H0).
    unfold bind. destruct (status _) as [[]|why]; cbn.
    + rewrite moves_app, app_nil_r.
      apply forRange_moves_sublist, Part1_evalClient_moves_once.
    + apply forRange_moves_sublist, Part1_evalClient_moves_once.
Qed.
End MovesInOrderByRevision.

(** ** The first client of a snapshot in part_001 *)

Section Part1FirstClient.
Context {W : Type} (srv : Session W) (config : Part1.Config).
Implicit Types (w : W) (s : list Z).

(** The slip of the solo check in part_001: the scan appends the id of
    the client before it has met a co-occupant, so a client listed first
    in the snapshot (or any entry with the id of the first) always finds
    itself solo or in its grace period. *)
Lemma soloScan_first c0 rest x s :
  ID x = ID c0 →
  (Part1.soloScan x (c0 :: rest) s false false).1.2 = true ∨
  (Part1.soloScan x (c0 :: rest) s false false).2 = true.
Proof.
  intros Hid. cbn. unfold coOccupant. rewrite Hid, Z.eqb_refl, andb_false_r.
  rewrite <- Hid. apply soloScan_recorded; [|by left].
  apply elem_of_app. right. by left.
Qed.

Lemma Part1_first_client_never_moved channels c0 rest w w1 w2 s :
  ChannelList srv w = (Some channels, w1) →
  ClientList srv w1 = (Some (c0 :: rest), w2) →
  Forall (notMoveOf (ID c0)) (trace (Part1.cycle srv config w s)).
Proof.
  intros Hch Hcl.
  destruct (decide (afkChannelIdOf (Part1.AfkChannelName config)
                      (Part1.IgnoredChannels config) channels = 0)) as [H0|H0].
  - by rewrite (Part1_cycle_no_afk srv config channels w w1 s Hch H0).
  - rewrite (Part1_cycle_eq srv config channels (c0 :: rest) w w1 w2 s Hch Hcl H0).
    apply bind_Forall; [|intros; not_a_move].
    apply (forRange_trace _ (fun _ => True)); [|done].
    intros x w' s' _ _. split; [|done].
    destruct (Part1_evalClient_spec srv config
                (afkChannelIdOf (Part1.AfkChannelName config)
                   (Part1.IgnoredChannels config) channels)
                (allowedIdleChannelsOf (Part1.AfkChannelName config)
                   (Part1.IgnoredChannels config) channels)
                (c0 :: rest) x w' s') as (Hmoves & _).
    eapply Forall_impl; [exact Hmoves|]. intros e He cid ->.
    destruct (He _ _ eq_refl) as (Hid & _ & _ & _ & Hsolo & Hgrace).
    destruct (soloScan_first c0 rest x s' (eq_sym Hid)); congruence.
Qed.
End Part1FirstClient.

(** ** A solo client in part_002 *)

(** A loop whose rounds all return shows what the round of one of its
    items shows. *)
Lemma forRange_shows {W S A} (P : Event → Prop) (I : S → Prop)
    (l : list A) (body : A → M W S unit) (x0 : A) :
  x0 ∈ l →
  (∀ x w s, x ∈ l → I s →
     status (body x w s) = Running tt ∧ I (store (body x w s))) →
  (∀ w s, I s → ∃ e, P e ∧ e ∈ trace (body x0 w s)) →
  ∀ w s, I s → ∃ e, P e ∧ e ∈ trace (forRange l body w s).
Proof.
  intros Hin Hbody H0.
  induction l as [|x l IH]; intros w s Hs; [by apply elem_of_nil in Hin|].
  cbn. destruct (Hbody x w s) as [Hr Hi]; [left | done |].
  rewrite (bind_running _ _ _ _ _ Hr); cbn.
  apply elem_of_cons in Hin as [<- | Hin].
  - destruct (H0 w s Hs) as (e & He & Hin). exists e. split; [done|].
    apply elem_of_app. by left.
  - destruct (IH Hin) with (w := world (body x w s)) (s := store (body x w s))
      as (e & He & Hin'); [|done|].
    { intros y w' s' Hy. apply Hbody. by right. }
    exists e. split; [done|]. apply elem_of_app. by right.
Qed.

Section Part2Solo.
Context {W : Type} (srv : Session W) (config : Part2.Config).
Implicit Types (w : W) (s : gmap Z Z).

(** The inner round of an idle client that is alone. *)
Lemma Part2_evalClient_solo afk allowed clients c w s :
  s !! ChannelID c = None →
  (∃ idleTime, idleTimeAt srv (ID c) w = Some idleTime ∧
               idleTime > Part2.MaxIdleTimeMs config) →
  isChannelIgnored allowed (ChannelID c) = false → ChannelID c ≠ afk →
  Part2.soloCheck c clients = true →
  ∃ secs, trace (Part2.evalClient srv config afk allowed clients c w s)
          = [InfoSkip SoloInChannel (Nickname c) secs].
Proof.
  intros Hjoin (t & Ht & Hgt) Hign Hafk Hsolo.
  unfold Part2.evalClient, bind, idleTimeAt in *.
  destruct (Part2_recentlyJoined_eq srv c w s) as (t0 & b & -> & Hb). cbn.
  destruct Hb as [[-> ->] | (-> & -> & Hsome)]; cbn.
  2: { rewrite Hjoin in Hsome. by destruct Hsome. }
  destruct (clientInfoMatch_eq (S:=gmap Z Z) srv (ID c) w s) as (t1 & st & Hm & ->).
  destruct Hm as [e Hnone | Hempty | digits Hdigits]; cbn.
  - by rewrite Hnone in Ht.
  - by rewrite Hempty in Ht.
  - rewrite Hdigits in Ht. rewrite Ht. cbn.
    apply Z.gtb_gt in Hgt. rewrite Hgt, Hign. cbn.
    apply Z.eqb_neq in Hafk. rewrite Hafk, Hsolo. cbn. by eexists.
Qed.

(** The outer round of any client whose reply carries an idle time
    reports the idle client that is alone. *)
Lemma Part2_outerClient_solo afk allowed clients c c0 w s :
  repliesNonEmpty srv →
  s !! ChannelID c = None →
  is_Some (replyDigits (Exec srv (ClientInfo (ID c)) w).1) →
  c0 ∈ clients →
  s !! ChannelID c0 = None →
  idleBeyond srv (Part2.MaxIdleTimeMs config) (ID c0) →
  isChannelIgnored allowed (ChannelID c0) = false → ChannelID c0 ≠ afk →
  Part2.soloCheck c0 clients = true →
  ∃ e, (∃ secs, e = InfoSkip SoloInChannel (Nickname c0) secs) ∧
       e ∈ trace (Part2.outerClient srv config afk allowed clients c w s).
Proof.
  intros Hne Hjoin [digits Hd] Hc0 Hjoin0 Hidle Hign Hafk Hsolo.
  unfold Part2.outerClient, bind.
  destruct (Part2_recentlyJoined_eq srv c w s) as (t0 & b & -> & Hb). cbn.
  destruct Hb as [[-> ->] | (-> & -> & Hsome)]; cbn.
  2: { rewrite Hjoin in Hsome. by destruct Hsome. }
  destruct (clientInfoMatch_eq (S:=gmap Z Z) srv (ID c) w s) as (t1 & st & Hm & ->).
  destruct Hm as [e Hnone | Hempty | digits' Hdigits]; cbn.
  - by rewrite Hnone in Hd.
  - by rewrite Hempty in Hd.
  - apply (forRange_shows _ (fun s' => s' = s) clients _ c0); [done| |  |done].
    + intros x w' s' _ ->.
      destruct (Part2_evalClient_spec srv config afk allowed clients x w' s)
        as (_ & Hst & _ & Hrun & _). split; [|exact Hst]. apply Hrun, Hne.
    + intros w' s' ->.
      destruct (Part2_evalClient_solo afk allowed clients c0 w' s)
        as [secs Hsecs]; try done.
      rewrite Hsecs. eexists. split; [by exists secs | by left].
Qed.
End Part2Solo.

(** * The claims *)

(** C8. A client whose channel is the resolved AFK channel is never sent
    a move command, whatever its idle time; so evaluating the snapshot
    again after a successful move moves it no further.  The same holds in
    the three revisions, for every entry of the snapshot that carries the
    client's id. *)
Theorem C8_afk_clients_not_moved {W} (srv : Session W) channels clients
    (w w1 w2 : W) (clid : Z) :
  ChannelList srv w = (Some channels, w1) →
  ClientList srv w1 = (Some clients, w2) →
  (∀ (config : Main.Config) s,
     (∀ c, c ∈ clients → ID c = clid →
        ChannelID c = afkChannelIdOf (Main.AfkChannelName config)
                        (Main.IgnoredChannels config) channels) →
     Forall (notMoveOf clid) (trace (Main.cycle srv config w s))) ∧
  (∀ (config : Part1.Config) s,
     (∀ c, c ∈ clients → ID c = clid →
        ChannelID c = afkChannelIdOf (Part1.AfkChannelName config)
                        (Part1.IgnoredChannels config) channels) →
     Forall (notMoveOf clid) (trace (Part1.cycle srv config w s))) ∧
  (∀ (config : Part2.Config) s,
     (∀ c, c ∈ clients → ID c = clid →
        ChannelID c = afkChannelIdOf (Part2.AfkChannelName config)
                        (Part2.IgnoredChannels config) channels) →
     Forall (notMoveOf clid) (trace (Part2.processClients srv config w s))).
Proof.
  intros Hch Hcl. split_and!; intros config s Hafk.
  - eapply (movesOnly_notMoveOf (fun c cid => ChannelID c ≠ _));
      [|eapply Forall_movesOnly_impl;
        [|apply (Main_cycle_moves srv config channels clients w w1 w2 s Hch Hcl)]].
    + intros c _ Hc Hid Hne. apply Hne. by apply Hafk.
    + cbn. intros clid' cid (c & Hc & -> & _ & Hne & _). by exists c.
  - eapply (movesOnly_notMoveOf (fun c cid => ChannelID c ≠ _));
      [|eapply Forall_movesOnly_impl;
        [|apply (Part1_cycle_moves srv config channels clients w w1 w2 s Hch Hcl)]].
    + intros c _ Hc Hid Hne. apply Hne. by apply Hafk.
    + cbn. intros clid' cid (c & Hc & -> & _ & Hne & _). by exists c.
  - eapply (movesOnly_notMoveOf (fun c cid => ChannelID c ≠ _));
      [|eapply Forall_movesOnly_impl;
        [|apply (Part2_processClients_moves srv config channels clients w w1 w2 s Hch Hcl)]].
    + intros c _ Hc Hid Hne. apply Hne. by apply Hafk.
    + cbn. intros clid' cid (c & Hc & -> & _ & Hne & _). by exists c.
Qed.

(** C6. When no channel of the list carries the configured AFK channel
    name the loop body exits the process ([Fatal]) with nothing done,
    in any cycle and from any state, and so does the main loop: there is
    no skip and no retry. *)
Theorem C6_missing_afk_channel_is_fatal {W} (srv : Session W) channels (w w1 : W) :
  ChannelList srv w = (Some channels, w1) →
  (∀ (config : Main.Config) s n,
     (∀ channel, channel ∈ channels → ChannelName channel ≠ Main.AfkChannelName config) →
     Main.cycle srv config w s
     = {| trace := []; world := w1; store := s; status := Exited LogFatal |} ∧
     status (Main.main srv config (S n) w s) = Exited LogFatal) ∧
  (∀ (config : Part1.Config) s n,
     (∀ channel, channel ∈ channels → ChannelName channel ≠ Part1.AfkChannelName config) →
     Part1.cycle srv config w s
     = {| trace := []; world := w1; store := s; status := Exited LogFatal |} ∧
     status (Part1.main srv config (S n) w s) = Exited LogFatal) ∧
  (∀ (config : Part2.Config) s n,
     (∀ channel, channel ∈ channels → ChannelName channel ≠ Part2.AfkChannelName config) →
     Part2.processClients srv config w s
     = {| trace := []; world := w1; store := s; status := Exited LogFatal |} ∧
     status (Part2.main srv config (S n) w s) = Exited LogFatal).
Proof.
  intros Hch. split_and!; intros config s n Hno.
  - assert (Heq := Main_cycle_no_afk srv config channels w w1 s Hch
                     (scanChannels_no_afk _ _ _ 0 [] Hno)).
    split; [done|]. unfold Main.main; cbn. apply bind_exited. by rewrite Heq.
  - assert (Heq := Part1_cycle_no_afk srv config channels w w1 s Hch
                     (scanChannels_no_afk _ _ _ 0 [] Hno)).
    split; [done|]. unfold Part1.main; cbn. apply bind_exited. by rewrite Heq.
  - assert (Heq := Part2_processClients_no_afk srv config channels w w1 s Hch
                     (scanChannels_no_afk _ _ _ 0 [] Hno)).
    split; [done|]. unfold Part2.main, Part2.cycle; cbn.
    apply bind_exited, bind_exited. by rewrite Heq.
Qed.

(** C7. [recentJoins] is never written: after any number of rounds of
    the main loop of part_002, against any server, the map is still the
    empty map it started as, and no client was ever skipped for a recent
    join. *)
Theorem C7_recentJoins_never_written {W} (srv : Session W)
    (config : Part2.Config) (n : nat) (w : W) :
  store (Part2.main srv config n w Part2.initial) = ∅ ∧
  Forall notRecentJoin (trace (Part2.main srv config n w Part2.initial)).
Proof. apply Part2_main_spec. Qed.

(** C10. In part_002 the flag [AllowGracePeriod] has no effect: two
    configurations that differ in nothing but the flag give, from the
    same server and the same state, the same actions (skips and moves),
    the same final state and the same exit status, for one call of
    [processClients] and for any number of rounds of the main loop. *)
Theorem C10_grace_flag_has_no_effect {W} (srv : Session W)
    (config : Part2.Config) (b1 b2 : bool) (w : W) (s : gmap Z Z) (n : nat) :
  Part2.processClients srv (setAllowGracePeriod b1 config) w s
  = Part2.processClients srv (setAllowGracePeriod b2 config) w s ∧
  Part2.main srv (setAllowGracePeriod b1 config) n w s
  = Part2.main srv (setAllowGracePeriod b2 config) n w s.
Proof.
  assert (Hbody : Part2.processClients srv (setAllowGracePeriod b1 config)
                  = Part2.processClients srv (setAllowGracePeriod b2 config))
    by reflexivity.
  split; [by rewrite Hbody|].
  unfold Part2.main, Part2.cycle. by rewrite Hbody.
Qed.

(** C5, as the code has it.  In part_001 and part_002 a failure to list
    the channels, or to list the clients once the AFK channel was found,
    ends the cycle with the error logged and a sleep of five seconds:
    no client is queried or moved, the state is the one the cycle
    started with, the process keeps running and the main loop goes on
    with the next round.  In src/main.go either failure exits the
    process. *)
Theorem C5_list_error_skips_cycle {W} (srv : Session W) (w w1 : W) (n : nat) :
  (ChannelList srv w = (None, w1) →
   (∀ (config : Part1.Config) s,
      Part1.cycle srv config w s
      = {| trace := [ErrorList Channels; Slept 5]; world := Sleep srv 5 w1;
           store := s; status := Running tt |} ∧
      trace (Part1.main srv config (S n) w s)
      = [ErrorList Channels; Slept 5]
        ++ trace (Part1.main srv config n (Sleep srv 5 w1) s)) ∧
   (∀ (config : Part2.Config) s,
      Part2.processClients srv config w s
      = {| trace := [ErrorList Channels; Slept 5]; world := Sleep srv 5 w1;
           store := s; status := Running tt |} ∧
      trace (Part2.main srv config (S n) w s)
      = [ErrorList Channels; Slept 5; Slept 10]
        ++ trace (Part2.main srv config n (Sleep srv 10 (Sleep srv 5 w1)) s)) ∧
   (∀ (config : Main.Config) s,
      status (Main.cycle srv config w s) = Exited LogFatal)) ∧
  (∀ channels w2,
     ChannelList srv w = (Some channels, w1) →
     ClientList srv w1 = (None, w2) →
     (∀ (config : Part1.Config) s,
        afkChannelIdOf (Part1.AfkChannelName config)
          (Part1.IgnoredChannels config) channels ≠ 0 →
        Part1.cycle srv config w s
        = {| trace := [ErrorList Clients; Slept 5]; world := Sleep srv 5 w2;
             store := s; status := Running tt |} ∧
        trace (Part1.main srv config (S n) w s)
        = [ErrorList Clients; Slept 5]
          ++ trace (Part1.main srv config n (Sleep srv 5 w2) s)) ∧
     (∀ (config : Part2.Config) s,
        afkChannelIdOf (Part2.AfkChannelName config)
          (Part2.IgnoredChannels config) channels ≠ 0 →
        Part2.processClients srv config w s
        = {| trace := [ErrorList Clients; Slept 5]; world := Sleep srv 5 w2;
             store := s; status := Running tt |} ∧
        trace (Part2.main srv config (S n) w s)
        = [ErrorList Clients; Slept 5; Slept 10]
          ++ trace (Part2.main srv config n (Sleep srv 10 (Sleep srv 5 w2)) s)) ∧
     (∀ (config : Main.Config) s,
        status (Main.cycle srv config w s) = Exited LogFatal)).
Proof.
  split.
  - intros Hch. split_and!; intros config s.
    + assert (Heq : Part1.cycle srv config w s
                    = {| trace := [ErrorList Channels; Slept 5];
                         world := Sleep srv 5 w1; store := s; status := Running tt |}).
      { unfold Part1.cycle. by rewrite bind_call, Hch. }
      split; [done|]. unfold Part1.main; cbn.
      rewrite (bind_running _ _ _ _ tt) by (by rewrite Heq). by rewrite Heq.
    + assert (Heq : Part2.processClients srv config w s
                    = {| trace := [ErrorList Channels; Slept 5];
                         world := Sleep srv 5 w1; store := s; status := Running tt |}).
      { unfold Part2.processClients. by rewrite bind_call, Hch. }
      split; [done|]. unfold Part2.main, Part2.cycle; cbn.
      rewrite (bind_running _ _ _ _ tt);
        rewrite (bind_running _ _ _ _ tt) by (by rewrite Heq); by rewrite Heq.
    + unfold Main.cycle. by rewrite bind_call, Hch.
  - intros channels w2 Hch Hcl. split_and!; intros config s.
    + intros Hafk.
      assert (Heq : Part1.cycle srv config w s
                    = {| trace := [ErrorList Clients; Slept 5];
                         world := Sleep srv 5 w2; store := s; status := Running tt |}).
      { unfold Part1.cycle, afkChannelIdOf in *. rewrite bind_call, Hch; cbn.
        destruct (scanChannels _ _ channels 0 []) as [afk allowed]; cbn in *.
        apply Z.eqb_neq in Hafk as ->. by rewrite bind_call, Hcl. }
      split; [done|]. unfold Part1.main; cbn.
      rewrite (bind_running _ _ _ _ tt) by (by rewrite Heq). by rewrite Heq.
    + intros Hafk.
      assert (Heq : Part2.processClients srv config w s
                    = {| trace := [ErrorList Clients; Slept 5];
                         world := Sleep srv 5 w2; store := s; status := Running tt |}).
      { unfold Part2.processClients, afkChannelIdOf in *. rewrite bind_call, Hch; cbn.
        destruct (scanChannels _ _ channels 0 []) as [afk allowed]; cbn in *.
        apply Z.eqb_neq in Hafk as ->. by rewrite bind_call, Hcl. }
      split; [done|]. unfold Part2.main, Part2.cycle; cbn.
      rewrite (bind_running _ _ _ _ tt);
        rewrite (bind_running _ _ _ _ tt) by (by rewrite Heq); by rewrite Heq.
    + unfold Main.cycle. rewrite bind_call, Hch; cbn.
      destruct (scanChannels _ _ channels 0 []) as [afk allowed]; cbn.
      destruct (afk =? 0); [done|]. by rewrite bind_call, Hcl.
Qed.

(** C3, as the code has it.  A client that is alone in its channel is
    not moved.  "Alone" is the test of the code: no entry of the
    snapshot has the same channel and another id; it is asked of every
    entry that carries the client's id (there is one such entry when
    ids are unique).  Whether it is recorded depends on the revision.
    In part_001, when the AFK channel is found, no successful
    [clientinfo] reply is empty, the idle time of the client is above
    the threshold and it is neither in an ignored channel nor in the
    AFK channel, the cycle runs to its end with its id recorded in
    [soloClients] more often than before.  part_002 keeps no solo
    list: there the client is not moved, the one variable that
    outlives a cycle, [recentJoins], is as it was, and under the same
    conditions, with no join recorded for its channel, the cycle runs
    to its end and reports the client as solo in its channel. *)
Theorem C3_solo_client_by_revision {W} (srv : Session W)
    channels clients (w w1 w2 : W) (c : OnlineClient) :
  ChannelList srv w = (Some channels, w1) →
  ClientList srv w1 = (Some clients, w2) →
  c ∈ clients →
  (∀ x, x ∈ clients → ID x = ID c → alone clients x) →
  (∀ (config : Part1.Config) soloClients,
     let afk := afkChannelIdOf (Part1.AfkChannelName config)
                  (Part1.IgnoredChannels config) channels in
     let allowed := allowedIdleChannelsOf (Part1.AfkChannelName config)
                      (Part1.IgnoredChannels config) channels in
     let r := Part1.cycle srv config w soloClients in
     Forall (notMoveOf (ID c)) (trace r) ∧
     (repliesNonEmpty srv → afk ≠ 0 →
      idleBeyond srv (Part1.MaxIdleTimeMs config) (ID c) →
      isChannelIgnored allowed (ChannelID c) = false →
      ChannelID c ≠ afk →
      status r = Running tt ∧
      (occurrences (ID c) soloClients < occurrences (ID c) (store r))%nat ∧
      ID c ∈ store r)) ∧
  (∀ (config : Part2.Config) recentJoins,
     let afk := afkChannelIdOf (Part2.AfkChannelName config)
                  (Part2.IgnoredChannels config) channels in
     let allowed := allowedIdleChannelsOf (Part2.AfkChannelName config)
                      (Part2.IgnoredChannels config) channels in
     let r := Part2.processClients srv config w recentJoins in
     Forall (notMoveOf (ID c)) (trace r) ∧
     store r = recentJoins ∧
     (repliesNonEmpty srv → afk ≠ 0 →
      idleBeyond srv (Part2.MaxIdleTimeMs config) (ID c) →
      isChannelIgnored allowed (ChannelID c) = false →
      ChannelID c ≠ afk →
      recentJoins !! ChannelID c = None →
      status r = Running tt ∧
      ∃ secs, InfoSkip SoloInChannel (Nickname c) secs ∈ trace r)).
Proof.
  intros Hch Hcl Hc Halone. split.
  - intros config s afk allowed r. split.
    + eapply (movesOnly_notMoveOf (fun x cid => ¬ alone clients x));
        [|eapply Forall_movesOnly_impl;
          [|apply (Part1_cycle_moves srv config channels clients w w1 w2 s Hch Hcl)]].
      * intros x _ Hx Hid Hno. by apply Hno, Halone.
      * cbn. intros clid' cid (x & Hx & -> & _ & _ & _ & Hno). by exists x.
    + intros Hne Hafk Hidle Hign Hnotafk. subst r.
      rewrite (Part1_cycle_eq srv config channels clients w w1 w2 s Hch Hcl Hafk).
      destruct (Part1_loop_records srv config afk allowed clients c w2 s)
        as (Hrun & Hocc & Hin); try done.
      by rewrite (bind_running _ _ _ _ tt Hrun).
  - intros config s afk allowed r. split_and!.
    + eapply (movesOnly_notMoveOf (fun x cid => ¬ alone clients x));
        [|eapply Forall_movesOnly_impl;
          [|apply (Part2_processClients_moves srv config channels clients w w1 w2 s Hch Hcl)]].
      * intros x _ Hx Hid Hno. by apply Hno, Halone.
      * cbn. intros clid' cid (x & Hx & -> & _ & _ & _ & Hno). by exists x.
    + apply Part2_processClients_spec.
    + intros Hne Hafk Hidle Hign Hnotafk Hjoin. subst r.
      rewrite (Part2_processClients_eq srv config channels clients w w1 w2 s Hch Hcl Hafk).
      split.
      * apply (forRange_running (fun _ => True)); [|done].
        intros x w' s' _ _. split; [|done]. by apply Part2_outerClient_spec.
      * destruct (forRange_shows
                    (fun e => ∃ secs, e = InfoSkip SoloInChannel (Nickname c) secs)
                    (fun s' => s' = s) clients
                    (Part2.outerClient srv config afk allowed clients) c Hc)
          with (w := w2) (s := s) as (e & [secs ->] & Hin); [| |done|by exists secs].
        -- intros x w' s' _ ->.
           destruct (Part2_outerClient_spec srv config afk allowed clients x w' s)
             as (_ & Hst & _ & Hrun). split; [by apply Hrun | exact Hst].
        -- intros w' s' ->.
           apply Part2_outerClient_solo; try done.
           ++ destruct (Hidle w') as (t & Ht & _). unfold idleTimeAt in Ht.
              destruct (replyDigits _); [by eexists | done].
           ++ apply soloCheck_alone. by apply Halone.
Qed.

(** C1, as the code has it.  part_001 has no grace-period flag and
    always applies the grace: a client whose id is in [soloClients] when
    a cycle starts is not moved in that cycle, in particular when its
    channel has gained a co-occupant and it is still idle (client ids
    unique in the snapshot).  part_002 has the flag, never reads it and
    keeps no solo list: an idle client with a co-occupant, outside the
    ignored channels and the AFK channel, is moved in that cycle whatever
    the flag says. *)
Theorem C1_grace_by_revision {W} (srv : Session W)
    channels clients (w w1 w2 : W) (c : OnlineClient) :
  ChannelList srv w = (Some channels, w1) →
  ClientList srv w1 = (Some clients, w2) →
  c ∈ clients →
  ¬ alone clients c →
  (∀ (config : Part1.Config) soloClients,
     NoDup (ID <$> clients) →
     ID c ∈ soloClients →
     Forall (notMoveOf (ID c)) (trace (Part1.cycle srv config w soloClients))) ∧
  (∀ (config : Part2.Config) allowGracePeriod,
     let afk := afkChannelIdOf (Part2.AfkChannelName config)
                  (Part2.IgnoredChannels config) channels in
     let allowed := allowedIdleChannelsOf (Part2.AfkChannelName config)
                      (Part2.IgnoredChannels config) channels in
     repliesNonEmpty srv → afk ≠ 0 →
     idleBeyond srv (Part2.MaxIdleTimeMs config) (ID c) →
     isChannelIgnored allowed (ChannelID c) = false →
     ChannelID c ≠ afk →
     ExecMove (ID c) afk
     ∈ trace (Part2.processClients srv (setAllowGracePeriod allowGracePeriod config)
                w Part2.initial)).
Proof.
  intros Hch Hcl Hc Hco. split.
  - intros config s Hnd Hin.
    destruct (decide (afkChannelIdOf (Part1.AfkChannelName config)
                        (Part1.IgnoredChannels config) channels = 0)) as [H0|H0].
    + by rewrite (Part1_cycle_no_afk srv config channels w w1 s Hch H0).
    + rewrite (Part1_cycle_eq srv config channels clients w w1 w2 s Hch Hcl H0).
      apply bind_Forall; [|intros; not_a_move].
      apply Part1_loop_recorded; auto.
  - intros config b afk allowed Hne Hafk Hidle Hign Hnotafk.
    rewrite (Part2_processClients_eq srv (setAllowGracePeriod b config)
               channels clients w w1 w2 _ Hch Hcl Hafk).
    apply (Part2_loop_moves srv (setAllowGracePeriod b config)); try done.
    destruct (Part2.soloCheck c clients) eqn:Hsolo; [|done].
    by apply soloCheck_alone in Hsolo.
Qed.

(** ** The claims on concrete servers *)

Section Concrete.
Import Scenario.

(** C8 on a snapshot with client D in the AFK channel, idle for two hours. *)
Lemma C8_afk_clients_not_moved_witness :
  Forall (notMoveOf 13) (trace (Main.cycle afkServer mainConfig tt tt)) ∧
  Forall (notMoveOf 13) (trace (Part1.cycle afkServer part1Config tt Part1.initial)) ∧
  Forall (notMoveOf 13)
         (trace (Part2.processClients afkServer (part2Config true) tt Part2.initial)).
Proof.
  destruct (C8_afk_clients_not_moved afkServer channels [clientA; clientB; clientD]
              tt tt tt 13 eq_refl eq_refl) as (H0 & H1 & H2).
  assert (Hafk : ∀ c, c ∈ [clientA; clientB; clientD] → ID c = 13 → ChannelID c = 2).
  { intros c Hc Hid. repeat (apply elem_of_cons in Hc as [-> | Hc]); try done.
    by apply elem_of_nil in Hc. }
  split_and!; [apply H0 | apply H1 | apply H2]; exact Hafk.
Defined.

(** C6 on a server whose channels are Lobby and Quiet. *)
Lemma C6_missing_afk_channel_is_fatal_witness :
  status (Main.main noAfkServer mainConfig 3 tt tt) = Exited LogFatal ∧
  status (Part1.main noAfkServer part1Config 3 tt Part1.initial) = Exited LogFatal ∧
  status (Part2.main noAfkServer (part2Config true) 3 tt Part2.initial) = Exited LogFatal.
Proof.
  destruct (C6_missing_afk_channel_is_fatal noAfkServer noAfkChannels tt tt eq_refl)
    as (H0 & H1 & H2).
  assert (Hno : ∀ channel, channel ∈ noAfkChannels → ChannelName channel ≠ "AFK").
  { intros channel Hc. repeat (apply elem_of_cons in Hc as [-> | Hc]); try done.
    by apply elem_of_nil in Hc. }
  split_and!; [apply (H0 mainConfig tt 2%nat) | apply (H1 part1Config Part1.initial 2%nat)
              | apply (H2 (part2Config true) Part2.initial 2%nat)]; exact Hno.
Defined.

(** C5 on a server without channel list and on one without client list. *)
Lemma C5_list_error_skips_cycle_witness :
  Part1.cycle channelErrorServer part1Config tt [10]
  = {| trace := [ErrorList Channels; Slept 5]; world := tt; store := [10];
       status := Running tt |} ∧
  Part2.processClients clientErrorServer (part2Config true) tt Part2.initial
  = {| trace := [ErrorList Clients; Slept 5]; world := tt; store := Part2.initial;
       status := Running tt |}.
Proof.
  split.
  - destruct (C5_list_error_skips_cycle channelErrorServer tt tt 0) as [H _].
    destruct (H eq_refl) as (H1 & _). apply (H1 part1Config [10]).
  - destruct (C5_list_error_skips_cycle clientErrorServer tt tt 0) as [_ H].
    destruct (H channels tt eq_refl eq_refl) as (_ & H2 & _).
    apply (H2 (part2Config true) Part2.initial). by vm_compute.
Defined.

(** C3 on client A, alone and idle in the lobby. *)
Lemma C3_solo_client_by_revision_witness :
  Forall (notMoveOf 10) (trace (Part1.cycle soloServer part1Config tt Part1.initial)) ∧
  status (Part1.cycle soloServer part1Config tt Part1.initial) = Running tt ∧
  (occurrences 10 Part1.initial
   < occurrences 10 (store (Part1.cycle soloServer part1Config tt Part1.initial)))%nat ∧
  10 ∈ store (Part1.cycle soloServer part1Config tt Part1.initial) ∧
  Forall (notMoveOf 10)
         (trace (Part2.processClients soloServer (part2Config false) tt Part2.initial)) ∧
  store (Part2.processClients soloServer (part2Config false) tt Part2.initial)
  = Part2.initial ∧
  status (Part2.processClients soloServer (part2Config false) tt Part2.initial)
  = Running tt ∧
  ∃ secs, InfoSkip SoloInChannel "A" secs
          ∈ trace (Part2.processClients soloServer (part2Config false) tt Part2.initial).
Proof.
  assert (Halone : ∀ x, x ∈ soloClients → ID x = ID clientA → alone soloClients x).
  { intros x Hx Hid c2 Hc2. unfold soloClients in *.
    repeat (apply elem_of_cons in Hx as [-> | Hx]); try done;
      [|by apply elem_of_nil in Hx].
    repeat (apply elem_of_cons in Hc2 as [-> | Hc2]); try done.
    by apply elem_of_nil in Hc2. }
  assert (Hne : repliesNonEmpty soloServer).
  { intros clid []. cbn. unfold clientinfo. repeat (case_match; try done). }
  assert (Hidle : idleBeyond soloServer 60000 10).
  { intros []. exists 120000. split; [reflexivity | cbn; lia]. }
  destruct (C3_solo_client_by_revision soloServer channels soloClients
              tt tt tt clientA eq_refl eq_refl ltac:(by left) Halone) as [H1 H2].
  destruct (H1 part1Config Part1.initial) as [Hmove Hrec].
  destruct Hrec as (Hrun & Hocc & Hin);
    [exact Hne | by vm_compute | exact Hidle | reflexivity | by vm_compute |].
  destruct (H2 (part2Config false) Part2.initial) as (Hmove2 & Hstore2 & Hskip).
  destruct Hskip as (Hrun2 & Hskip2);
    [exact Hne | by vm_compute | exact Hidle | reflexivity | by vm_compute
    | reflexivity |].
  split_and!; [exact Hmove | exact Hrun | exact Hocc | exact Hin
              | exact Hmove2 | exact Hstore2 | exact Hrun2 | exact Hskip2].
Defined.

(** C3, as stated, fails in part_002 and, without the condition on the
    replies, in part_001.  Client A is alone in the lobby, idle beyond
    the threshold, outside the ignored channels and the AFK channel, and
    no join is recorded: the cycle of part_002 runs to its end, reports
    it as solo, and the state that outlives the cycle is what it was,
    empty; nothing records the client.  In part_001, with the empty
    reply for client C listed before it, the cycle ends in the panic of
    [exec[0]] and the solo list is what it was. *)
Lemma C3_counterexample :
  let r2 := Part2.processClients soloServer (part2Config true) tt Part2.initial in
  let r1 := Part1.cycle Samples.emptyFirstServer part1Config tt Part1.initial in
  alone soloClients clientA ∧
  idleTimeAt soloServer 10 tt = Some 120000 ∧
  120000 > Part2.MaxIdleTimeMs (part2Config true) ∧
  isChannelIgnored (allowedIdleChannelsOf "AFK" ["Quiet"] channels) (ChannelID clientA)
  = false ∧
  ChannelID clientA ≠ afkChannelIdOf "AFK" ["Quiet"] channels ∧
  trace r2 = [InfoSkip SoloInChannel "A" 120; InfoSkip AllowedChannel "C" 900;
              InfoSkip SoloInChannel "A" 120; InfoSkip AllowedChannel "C" 900] ∧
  status r2 = Running tt ∧
  store r2 = ∅ ∧
  alone [clientC; clientA] clientA ∧
  idleTimeAt Samples.emptyFirstServer 10 tt = Some 120000 ∧
  status r1 = Exited IndexPanic ∧
  store r1 = [] ∧
  trace r1 = [].
Proof.
  cbn zeta. split_and!; try reflexivity; try (by vm_compute).
  - intros c2 Hc2. unfold soloClients in Hc2.
    repeat (apply elem_of_cons in Hc2 as [-> | Hc2]); try done.
    by apply elem_of_nil in Hc2.
  - intros c2 Hc2.
    repeat (apply elem_of_cons in Hc2 as [-> | Hc2]); try done.
    by apply elem_of_nil in Hc2.
Qed.

(** C1 on the scenario of the specification, client A recorded before
    the cycle of part_001, and both values of the flag in part_002. *)
Lemma C1_grace_by_revision_witness :
  Forall (notMoveOf 10) (trace (Part1.cycle server part1Config tt [10])) ∧
  ExecMove 10 2 ∈ trace (Part2.processClients server (part2Config true) tt Part2.initial) ∧
  ExecMove 10 2 ∈ trace (Part2.processClients server (part2Config false) tt Part2.initial).
Proof.
  assert (Hco : ¬ alone clients clientA).
  { intros H. by specialize (H clientB ltac:(right; left)). }
  destruct (C1_grace_by_revision server channels clients tt tt tt clientA
              eq_refl eq_refl ltac:(by left) Hco) as [H1 H2].
  split_and!.
  - apply H1; [|by left].
    apply (bool_decide_unpack (NoDup (ID <$> clients))). by vm_compute.
  - apply (H2 (part2Config false) true).
    + intros clid []. cbn. unfold clientinfo. repeat (case_match; try done).
    + by vm_compute.
    + intros []. exists 120000. split; [reflexivity | cbn; lia].
    + reflexivity.
    + by vm_compute.
  - apply (H2 (part2Config true) false).
    + intros clid []. cbn. unfold clientinfo. repeat (case_match; try done).
    + by vm_compute.
    + intros []. exists 120000. split; [reflexivity | cbn; lia].
    + reflexivity.
    + by vm_compute.
Defined.

(** C1, as stated, fails in part_002.  Client A is alone and idle in the
    first cycle and is skipped as solo; in the second cycle client B has
    joined its channel, the grace period is allowed by the configuration,
    and client A is moved all the same. *)
Lemma C1_counterexample :
  let config := part2Config true in
  let cycleN := Part2.cycle phasedServer config O Part2.initial in
  let cycleN1 := Part2.cycle phasedServer config (world cycleN) (store cycleN) in
  Part2.AllowGracePeriod config = true ∧
  InfoSkip SoloInChannel "A" 120 ∈ trace cycleN ∧
  status cycleN = Running tt ∧
  ¬ Forall (notMoveOf 10) (trace cycleN1).
Proof.
  cbn zeta. split_and!; [reflexivity | by vm_compute; left | reflexivity |].
  intros H. assert (Hin : ExecMove 10 2 ∈ trace
    (Part2.cycle phasedServer (part2Config true)
       (world (Part2.cycle phasedServer (part2Config true) O Part2.initial))
       (store (Part2.cycle phasedServer (part2Config true) O Part2.initial))))
    by (vm_compute; left).
  rewrite Forall_forall in H. by apply (H _ Hin 2).
Qed.

(** C5, as stated, fails in src/main.go: a failure to list the channels,
    or the clients, exits the process. *)
Lemma C5_counterexample :
  ChannelList channelErrorServer tt = (None, tt) ∧
  status (Main.cycle channelErrorServer mainConfig tt tt) = Exited LogFatal ∧
  ClientList clientErrorServer tt = (None, tt) ∧
  status (Main.cycle clientErrorServer mainConfig tt tt) = Exited LogFatal ∧
  status (Main.main channelErrorServer mainConfig 2 tt tt) ≠ Running tt.
Proof. by split_and!. Qed.

(** C2 on the code.  On the scenario of the specification src/main.go
    issues the one expected move; part_001 issues none, client A being
    put in the grace period by its own solo check; part_002 issues the
    move three times, once for each round of the outer loop, whatever
    the flag. *)
Theorem C2_scenario_by_revision :
  moves (trace (Main.cycle server mainConfig tt tt)) = [(10, 2)] ∧
  trace (Part1.cycle server part1Config tt Part1.initial)
  = [InfoSkip GracePeriod "A" 120; InfoSkip AllowedChannel "C" 900; Slept 10] ∧
  (∀ allowGracePeriod,
     moves (trace (Part2.processClients server (part2Config allowGracePeriod)
                     tt Part2.initial))
     = [(10, 2); (10, 2); (10, 2)]).
Proof. split_and!; [reflexivity | reflexivity | by intros []]. Qed.

(** C4 on the code.  In part_002 every client is evaluated once for each
    round of the outer loop: on the scenario of the specification client
    A is sent three move commands in one cycle and client C is skipped
    three times. *)
Theorem C4_part2_evaluates_each_client_repeatedly :
  trace (Part2.processClients server (part2Config false) tt Part2.initial)
  = [ExecMove 10 2; InfoSkip AllowedChannel "C" 900;
     ExecMove 10 2; InfoSkip AllowedChannel "C" 900;
     ExecMove 10 2; InfoSkip AllowedChannel "C" 900].
Proof. reflexivity. Qed.

(** C9 on the code.  [soloClients] is a list that repeats ids: after one
    cycle with client A alone among two clients its id is there twice,
    and after the next cycle, in which B has joined and A's record was
    "removed", A is still recorded. *)
Theorem C9_solo_list_keeps_duplicates :
  store (Part1.main phasedServer part1Config 1 O Part1.initial) = [10; 10] ∧
  ¬ NoDup (store (Part1.main phasedServer part1Config 1 O Part1.initial)) ∧
  trace (Part1.cycle phasedServer part1Config 1%nat [10; 10])
  = [InfoSkip GracePeriod "A" 120; InfoSkip AllowedChannel "C" 900; Slept 10] ∧
  store (Part1.main phasedServer part1Config 2 O Part1.initial) = [10] ∧
  10 ∈ store (Part1.main phasedServer part1Config 2 O Part1.initial).
Proof.
  split_and!; try reflexivity.
  - intros H. apply (bool_decide_pack _) in H. by vm_compute in H.
  - by vm_compute; left.
Qed.
End Concrete.

(** * Further properties of the code *)

(** ** The channel loop *)

Lemma isChannelIgnored_elem channels id :
  isChannelIgnored channels id = true ↔ id ∈ channels.
Proof.
  induction channels as [|channel rest IH]; cbn.
  - split; [done|]. by intros ?%elem_of_nil.
  - destruct (Z.eqb_spec channel id) as [->|Hne].
    + split; [|done]. intros _. by left.
    + rewrite IH. split; [by right|]. by intros [?|?]%elem_of_cons.
Qed.

Lemma scanIgnored_elem ignored channel allowed id :
  id ∈ scanIgnored ignored channel allowed ↔
  id ∈ allowed ∨ (id = CID channel ∧ ChannelName channel ∈ ignored).
Proof.
  unfold scanIgnored. revert allowed.
  induction ignored as [|name rest IH]; intros allowed; cbn.
  - split; [by left|]. intros [?|[_ ?%elem_of_nil]]; done.
  - rewrite IH, elem_of_cons.
    destruct (String.eqb_spec (ChannelName channel) name) as [Heq|Hne].
    + rewrite elem_of_app, list_elem_of_singleton. split.
      * intros [[?| ->]|[-> ?]]; [by left|right; split; auto..].
      * intros [?|[-> ?]]; [by left; left|by left; right].
    + split.
      * intros [?|[-> ?]]; [by left|right; split; auto].
      * intros [?|[-> [?|?]]]; [by left|done|by right].
Qed.

Lemma scanChannels_allowed_elem afkName ignored channels afk allowed id :
  id ∈ (scanChannels afkName ignored channels afk allowed).2 ↔
  id ∈ allowed ∨
  ∃ channel, channel ∈ channels ∧ CID channel = id ∧ ChannelName channel ∈ ignored.
Proof.
  revert afk allowed.
  induction channels as [|channel rest IH]; intros afk allowed; cbn.
  - split; [by left|]. intros [?|(ch & ?%elem_of_nil & _)]; done.
  - rewrite IH, scanIgnored_elem. split.
    + intros [[?|[-> ?]]|(ch & Hch & Hid & Hname)].
      * by left.
      * right. exists channel. split_and!; [by left|done..].
      * right. exists ch. split_and!; [by right|done..].
    + intros [?|(ch & [-> |Hch]%elem_of_cons & Hid & Hname)].
      * by left; left.
      * left; right. by rewrite Hid.
      * right. by exists ch.
Qed.

Lemma scanChannels_afk_last afkName ignored l1 channel l2 afk allowed :
  ChannelName channel = afkName →
  (∀ later, later ∈ l2 → ChannelName later ≠ afkName) →
  (scanChannels afkName ignored (l1 ++ channel :: l2) afk allowed).1 = CID channel.
Proof.
  intros <- Hlater. revert afk allowed.
  induction l1 as [|first l1 IH]; intros afk allowed; cbn.
  - rewrite String.eqb_refl. by apply scanChannels_no_afk.
  - apply IH.
Qed.

Lemma isChannelIgnored_allowed afkName ignored channels id :
  isChannelIgnored (allowedIdleChannelsOf afkName ignored channels) id = true ↔
  ∃ channel, channel ∈ channels ∧ CID channel = id ∧ ChannelName channel ∈ ignored.
Proof.
  unfold allowedIdleChannelsOf.
  rewrite isChannelIgnored_elem, scanChannels_allowed_elem. split.
  - intros [?%elem_of_nil|?]; done.
  - by right.
Qed.

(** X1. The channel loop puts into [allowedIdleChannels] exactly the ids
    of the channels whose name is in the ignore list, and the test
    [isChannelIgnored] (or [contains]) on it is the test of that: a
    channel id is treated as ignored if and only if some channel of the
    list carries that id and a name of the ignore list. *)
Theorem ignored_channel_ids_characterised afkName ignored channels id :
  isChannelIgnored (allowedIdleChannelsOf afkName ignored channels) id = true ↔
  ∃ channel, channel ∈ channels ∧ CID channel = id ∧ ChannelName channel ∈ ignored.
Proof. apply isChannelIgnored_allowed. Qed.

(** X2. When several channels carry the AFK channel name the last one
    of the list wins: [afkChannelId] is the id of a channel with that
    name after which no other channel has it. *)
Theorem afk_channel_is_last_match afkName ignored l1 channel l2 :
  ChannelName channel = afkName →
  (∀ later, later ∈ l2 → ChannelName later ≠ afkName) →
  afkChannelIdOf afkName ignored (l1 ++ channel :: l2) = CID channel.
Proof. intros. by apply scanChannels_afk_last. Qed.

(** ** One round of the client loop, again *)

Section RoundFacts.
Context {W : Type} (srv : Session W).
Implicit Types (w : W).

Lemma clientInfoMatch_panic {S} clid w (s : S) :
  (Exec srv (ClientInfo clid) w).1 = Some [] →
  clientInfoMatch srv clid w s
  = {| trace := []; world := (Exec srv (ClientInfo clid) w).2; store := s;
       status := Exited IndexPanic |}.
Proof.
  intros Hempty. unfold clientInfoMatch. rewrite bind_call, Hempty. reflexivity.
Qed.

Lemma Main_evalClient_round (config : Main.Config) afk allowed c w s :
  let r := Main.evalClient srv config afk allowed c w s in
  Forall (movesOnly (fun clid _ =>
            clid = ID c ∧ readAbove srv (Main.MaxIdleTimeMs config) (ID c) w)) (trace r) ∧
  ((Exec srv (ClientInfo (ID c)) w).1 ≠ Some [] → status r = Running tt) ∧
  (readAbove srv (Main.MaxIdleTimeMs config) (ID c) w →
   isChannelIgnored allowed (ChannelID c) = false → ChannelID c ≠ afk →
   ExecMove (ID c) afk ∈ trace r).
Proof.
  unfold Main.evalClient, Main.contains, bind, readAbove, idleTimeAt.
  query_cases srv c w s.
  - split_and!; [not_a_move|done|].
    intros (t & Ht & _). by rewrite Hnone in Ht.
  - split_and!; [not_a_move|by intros []|].
    intros (t & Ht & _). by rewrite Hempty in Ht.
  - split_and!; [not_a_move|done|by intros _ [=]].
  - split_and!; [not_a_move|done|].
    intros _ _ Hne. by apply Z.eqb_eq in Hafk.
  - destruct (moveClient_eq (S:=unit) srv (ID c) afk (Exec srv (ClientInfo (ID c)) w).2 s)
      as (t & Ht & ->); cbn.
    split_and!; [|done|intros; destruct Ht as [-> | ->]; by left].
    destruct Ht as [-> | ->]; (apply Forall_cons; split; [|not_a_move]).
    all: intros ? ? [= <- <-]; split; [done|].
    all: exists idleTime; rewrite Hdigits; split; [done|]; by apply Z.gtb_gt.
  - split_and!; [not_a_move|done|].
    intros (t & Ht & Hgt) _ _. rewrite Hdigits, Hatoi in Ht.
    injection Ht as <-. rewrite Z.gtb_ltb in Hidle. apply Z.ltb_ge in Hidle. lia.
  - split_and!; [not_a_move|done|].
    intros (t & Ht & _). by rewrite Hdigits, Hatoi in Ht.
Qed.

Lemma Main_evalClient_panic (config : Main.Config) afk allowed c w s :
  (Exec srv (ClientInfo (ID c)) w).1 = Some [] →
  Main.evalClient srv config afk allowed c w s
  = {| trace := []; world := (Exec srv (ClientInfo (ID c)) w).2; store := s;
       status := Exited IndexPanic |}.
Proof.
  intros Hempty. unfold Main.evalClient, bind.
  by rewrite (clientInfoMatch_panic _ _ _ Hempty).
Qed.

Lemma Part1_evalClient_panic (config : Part1.Config) afk allowed clients c w s :
  (Exec srv (ClientInfo (ID c)) w).1 = Some [] →
  Part1.evalClient srv config afk allowed clients c w s
  = {| trace := []; world := (Exec srv (ClientInfo (ID c)) w).2; store := s;
       status := Exited IndexPanic |}.
Proof.
  intros Hempty. unfold Part1.evalClient, bind.
  by rewrite (clientInfoMatch_panic _ _ _ Hempty).
Qed.

Lemma Part1_evalClient_idle (config : Part1.Config) afk allowed clients c w s :
  Forall (movesOnly (fun clid _ =>
            clid = ID c ∧ readAbove srv (Part1.MaxIdleTimeMs config) (ID c) w))
         (trace (Part1.evalClient srv config afk allowed clients c w s)).
Proof.
  unfold Part1.evalClient, bind, readAbove, idleTimeAt.
  query_cases srv c w s; try not_a_move.
  destruct (Part1.soloScan c clients s false false) as [[s' isSolo] isGrace]; cbn.
  destruct isSolo; cbn; [|destruct isGrace; cbn]; try not_a_move.
  destruct (moveClient_eq (S:=list Z) srv (ID c) afk (Exec srv (ClientInfo (ID c)) w).2 s')
    as (t & Ht & ->); cbn.
  destruct Ht as [-> | ->]; (apply Forall_cons; split; [|not_a_move]).
  all: intros ? ? [= <- <-]; split; [done|].
  all: exists idleTime; rewrite Hdigits; split; [done|]; by apply Z.gtb_gt.
Qed.

Lemma Part2_recentlyJoined_cases c w (s : gmap Z Z) :
  (freshJoin srv s c w ∧
   Part2.recentlyJoined srv c w s
   = {| trace := [InfoRecentJoin (Nickname c)]; world := w; store := s;
        status := Running true |}) ∨
  (¬ freshJoin srv s c w ∧
   Part2.recentlyJoined srv c w s
   = {| trace := []; world := w; store := s; status := Running false |}).
Proof.
  unfold Part2.recentlyJoined, freshJoin. rewrite bind_get.
  destruct (s !! ChannelID c) as [joinTime|] eqn:Hjoin; cbn.
  - unfold bind, ask; cbn.
    destruct (Z.leb_spec (Since srv joinTime w) Part2.tenSeconds) as [Hle|Hgt]; cbn.
    + left. split; [by exists joinTime | done].
    + right. split; [|done]. intros (t & [= <-] & Hle). lia.
  - right. split; [|done]. by intros (t & [=] & _).
Qed.

Lemma Part2_evalClient_idle (config : Part2.Config) afk allowed clients c w s :
  Forall (movesOnly (fun clid _ =>
            clid = ID c ∧ readAbove srv (Part2.MaxIdleTimeMs config) (ID c) w ∧
            ¬ freshJoin srv s c w))
         (trace (Part2.evalClient srv config afk allowed clients c w s)).
Proof.
  unfold Part2.evalClient, bind.
  destruct (Part2_recentlyJoined_cases c w s) as [[Hfresh ->]|[Hstale ->]]; cbn;
    [not_a_move|].
  unfold readAbove, idleTimeAt.
  query_cases srv c w s; try not_a_move.
  destruct (Part2.soloCheck c clients); cbn; [not_a_move|].
  destruct (moveClient_eq (S:=gmap Z Z) srv (ID c) afk (Exec srv (ClientInfo (ID c)) w).2 s)
    as (t & Ht & ->); cbn.
  destruct Ht as [-> | ->]; (apply Forall_cons; split; [|not_a_move]).
  all: intros ? ? [= <- <-]; split_and!; [done| |done].
  all: exists idleTime; rewrite Hdigits; split; [done|]; by apply Z.gtb_gt.
Qed.

Lemma Part2_outerClient_panic (config : Part2.Config) afk allowed clients c w s :
  ¬ freshJoin srv s c w →
  (Exec srv (ClientInfo (ID c)) w).1 = Some [] →
  Part2.outerClient srv config afk allowed clients c w s
  = {| trace := []; world := (Exec srv (ClientInfo (ID c)) w).2; store := s;
       status := Exited IndexPanic |}.
Proof.
  intros Hstale Hempty. unfold Part2.outerClient, bind.
  destruct (Part2_recentlyJoined_cases c w s) as [[Hfresh _]|[_ ->]]; [done|]. cbn.
  by rewrite (clientInfoMatch_panic _ _ _ Hempty).
Qed.
End RoundFacts.

(** ** Whole cycles, for any property of the actions *)

Section CycleForall.
Context {W : Type} (srv : Session W) (P : Event → Prop).
Hypothesis P_other : ∀ e, (∀ clid cid, e ≠ ExecMove clid cid) → P e.
Implicit Types (w : W).

Lemma Forall_P_other t :
  Forall (fun e => ∀ clid cid, e ≠ ExecMove clid cid) t → Forall P t.
Proof. intros Ht. eapply Forall_impl; [exact Ht|]. auto. Qed.

Lemma Main_cycle_Forall config w s :
  (∀ channels clients w1 w2,
     ChannelList srv w = (Some channels, w1) →
     ClientList srv w1 = (Some clients, w2) →
     afkChannelIdOf (Main.AfkChannelName config) (Main.IgnoredChannels config) channels ≠ 0 →
     ∀ c w' s', c ∈ clients →
       Forall P (trace (Main.evalClient srv config
         (afkChannelIdOf (Main.AfkChannelName config) (Main.IgnoredChannels config) channels)
         (allowedIdleChannelsOf (Main.AfkChannelName config) (Main.IgnoredChannels config) channels)
         c w' s'))) →
  Forall P (trace (Main.cycle srv config w s)).
Proof.
  intros Hbody.
  destruct (ChannelList srv w) as [[channels|] w1] eqn:Hch.
  2: { unfold Main.cycle. by rewrite bind_call, Hch. }
  destruct (decide (afkChannelIdOf (Main.AfkChannelName config)
                      (Main.IgnoredChannels config) channels = 0)) as [H0|H0].
  { by rewrite (Main_cycle_no_afk srv config channels w w1 s Hch H0). }
  destruct (ClientList srv w1) as [[clients|] w2] eqn:Hcl.
  - rewrite (Main_cycle_eq srv config channels clients w w1 w2 s Hch Hcl H0).
    apply bind_Forall.
    + apply (forRange_trace _ (fun _ => True)); [|done].
      intros c w' s' Hc _. split; [|done]. by eapply Hbody.
    + intros. apply Forall_P_other. by repeat constructor.
  - unfold Main.cycle, afkChannelIdOf in *. rewrite bind_call, Hch; cbn.
    destruct (scanChannels _ _ channels 0 []) as [afk allowed]; cbn in *.
    apply Z.eqb_neq in H0 as ->. by rewrite bind_call, Hcl.
Qed.

Lemma Part1_cycle_Forall config w s :
  (∀ channels clients w1 w2,
     ChannelList srv w = (Some channels, w1) →
     ClientList srv w1 = (Some clients, w2) →
     afkChannelIdOf (Part1.AfkChannelName config) (Part1.IgnoredChannels config) channels ≠ 0 →
     ∀ c w' s', c ∈ clients →
       Forall P (trace (Part1.evalClient srv config
         (afkChannelIdOf (Part1.AfkChannelName config) (Part1.IgnoredChannels config) channels)
         (allowedIdleChannelsOf (Part1.AfkChannelName config) (Part1.IgnoredChannels config) channels)
         clients c w' s'))) →
  Forall P (trace (Part1.cycle srv config w s)).
Proof.
  intros Hbody.
  destruct (ChannelList srv w) as [[channels|] w1] eqn:Hch.
  2: { unfold Part1.cycle. rewrite bind_call, Hch. cbn.
       apply Forall_P_other. by repeat constructor. }
  destruct (decide (afkChannelIdOf (Part1.AfkChannelName config)
                      (Part1.IgnoredChannels config) channels = 0)) as [H0|H0].
  { by rewrite (Part1_cycle_no_afk srv config channels w w1 s Hch H0). }
  destruct (ClientList srv w1) as [[clients|] w2] eqn:Hcl.
  - rewrite (Part1_cycle_eq srv config channels clients w w1 w2 s Hch Hcl H0).
    apply bind_Forall.
    + apply (forRange_trace _ (fun _ => True)); [|done].
      intros c w' s' Hc _. split; [|done]. by eapply Hbody.
    + intros. apply Forall_P_other. by repeat constructor.
  - unfold Part1.cycle, afkChannelIdOf in *. rewrite bind_call, Hch; cbn.
    destruct (scanChannels _ _ channels 0 []) as [afk allowed]; cbn in *.
    apply Z.eqb_neq in H0 as ->. rewrite bind_call, Hcl. cbn.
    apply Forall_P_other. by repeat constructor.
Qed.

(** In part_002 the store is the same in every round. *)
Lemma Part2_processClients_Forall config w s :
  (∀ channels clients w1 w2,
     ChannelList srv w = (Some channels, w1) →
     ClientList srv w1 = (Some clients, w2) →
     afkChannelIdOf (Part2.AfkChannelName config) (Part2.IgnoredChannels config) channels ≠ 0 →
     ∀ c w', c ∈ clients →
       P (InfoRecentJoin (Nickname c)) ∧
       Forall P (trace (Part2.evalClient srv config
         (afkChannelIdOf (Part2.AfkChannelName config) (Part2.IgnoredChannels config) channels)
         (allowedIdleChannelsOf (Part2.AfkChannelName config) (Part2.IgnoredChannels config) channels)
         clients c w' s))) →
  Forall P (trace (Part2.processClients srv config w s)).
Proof.
  intros Hbody.
  destruct (ChannelList srv w) as [[channels|] w1] eqn:Hch.
  2: { unfold Part2.processClients. rewrite bind_call, Hch. cbn.
       apply Forall_P_other. by repeat constructor. }
  destruct (decide (afkChannelIdOf (Part2.AfkChannelName config)
                      (Part2.IgnoredChannels config) channels = 0)) as [H0|H0].
  { by rewrite (Part2_processClients_no_afk srv config channels w w1 s Hch H0). }
  destruct (ClientList srv w1) as [[clients|] w2] eqn:Hcl.
  - rewrite (Part2_processClients_eq srv config channels clients w w1 w2 s Hch Hcl H0).
    apply (forRange_trace P (fun s' => s' = s)); [|done].
    intros c w' s' Hc ->. split; [|by apply Part2_outerClient_spec].
    unfold Part2.outerClient, bind.
    destruct (Part2_recentlyJoined_cases srv c w' s) as [[_ ->]|[_ ->]]; cbn.
    { apply Forall_cons. split; [|done]. by eapply Hbody. }
    destruct (clientInfoMatch_eq (S:=gmap Z Z) srv (ID c) w' s) as (t & st & Hm & ->).
    destruct Hm as [e Hnone | Hempty | digits Hdigits]; cbn.
    + apply Forall_P_other. by repeat constructor.
    + done.
    + apply (forRange_trace P (fun s' => s' = s)); [|done].
      intros x w'' s' Hx ->. split; [|by apply Part2_evalClient_spec].
      by eapply Hbody.
  - unfold Part2.processClients, afkChannelIdOf in *. rewrite bind_call, Hch; cbn.
    destruct (scanChannels _ _ channels 0 []) as [afk allowed]; cbn in *.
    apply Z.eqb_neq in H0 as ->. rewrite bind_call, Hcl. cbn.
    apply Forall_P_other. by repeat constructor.
Qed.
End CycleForall.

(** ** Who is moved and who is not *)

(** X4. A client whose idle time never reads above the threshold is
    never sent a move command, in any of the three revisions: the
    comparison is strict, a client idle for exactly the threshold stays. *)
Theorem clients_within_threshold_not_moved {W} (srv : Session W) (w : W) (clid : Z) :
  (∀ (config : Main.Config) s,
     (∀ w' idleTime, idleTimeAt srv clid w' = Some idleTime →
                     idleTime <= Main.MaxIdleTimeMs config) →
     Forall (notMoveOf clid) (trace (Main.cycle srv config w s))) ∧
  (∀ (config : Part1.Config) s,
     (∀ w' idleTime, idleTimeAt srv clid w' = Some idleTime →
                     idleTime <= Part1.MaxIdleTimeMs config) →
     Forall (notMoveOf clid) (trace (Part1.cycle srv config w s))) ∧
  (∀ (config : Part2.Config) s,
     (∀ w' idleTime, idleTimeAt srv clid w' = Some idleTime →
                     idleTime <= Part2.MaxIdleTimeMs config) →
     Forall (notMoveOf clid) (trace (Part2.processClients srv config w s))).
Proof.
  split_and!; intros config s Hlow.
  - apply Main_cycle_Forall; [by intros e He cid|].
    intros channels clients w1 w2 _ _ _ c w' s' _.
    eapply Forall_impl; [apply Main_evalClient_round|]. cbn.
    intros e He cid ->. destruct (He _ _ eq_refl) as (-> & t & Ht & Hgt).
    specialize (Hlow _ _ Ht). lia.
  - apply Part1_cycle_Forall; [by intros e He cid|].
    intros channels clients w1 w2 _ _ _ c w' s' _.
    eapply Forall_impl; [apply Part1_evalClient_idle|]. cbn.
    intros e He cid ->. destruct (He _ _ eq_refl) as (-> & t & Ht & Hgt).
    specialize (Hlow _ _ Ht). lia.
  - apply Part2_processClients_Forall; [by intros e He cid|].
    intros channels clients w1 w2 _ _ _ c w' _. split; [done|].
    eapply Forall_impl; [apply Part2_evalClient_idle|]. cbn.
    intros e He cid ->. destruct (He _ _ eq_refl) as (-> & (t & Ht & Hgt) & _).
    specialize (Hlow _ _ Ht). lia.
Qed.

(** X5. A client in a channel whose name is in the ignore list is never
    sent a move command, whatever its idle time, in any of the three
    revisions. *)
Theorem clients_in_ignored_channels_not_moved {W} (srv : Session W)
    channels clients (w w1 w2 : W) (clid : Z) :
  ChannelList srv w = (Some channels, w1) →
  ClientList srv w1 = (Some clients, w2) →
  (∀ (config : Main.Config) s,
     (∀ c, c ∈ clients → ID c = clid →
        ∃ channel, channel ∈ channels ∧ CID channel = ChannelID c ∧
                   ChannelName channel ∈ Main.IgnoredChannels config) →
     Forall (notMoveOf clid) (trace (Main.cycle srv config w s))) ∧
  (∀ (config : Part1.Config) s,
     (∀ c, c ∈ clients → ID c = clid →
        ∃ channel, channel ∈ channels ∧ CID channel = ChannelID c ∧
                   ChannelName channel ∈ Part1.IgnoredChannels config) →
     Forall (notMoveOf clid) (trace (Part1.cycle srv config w s))) ∧
  (∀ (config : Part2.Config) s,
     (∀ c, c ∈ clients → ID c = clid →
        ∃ channel, channel ∈ channels ∧ CID channel = ChannelID c ∧
                   ChannelName channel ∈ Part2.IgnoredChannels config) →
     Forall (notMoveOf clid) (trace (Part2.processClients srv config w s))).
Proof.
  intros Hch Hcl. split_and!; intros config s Hign.
  - eapply (movesOnly_notMoveOf (fun c _ =>
               isChannelIgnored (allowedIdleChannelsOf (Main.AfkChannelName config)
                 (Main.IgnoredChannels config) channels) (ChannelID c) = false));
      [|eapply Forall_movesOnly_impl;
        [|apply (Main_cycle_moves srv config channels clients w w1 w2 s Hch Hcl)]].
    + intros c _ Hc Hid Hno. specialize (Hign c Hc Hid).
      apply (isChannelIgnored_allowed (Main.AfkChannelName config)) in Hign. congruence.
    + cbn. intros clid' cid (c & Hc & -> & _ & _ & Hno). by exists c.
  - eapply (movesOnly_notMoveOf (fun c _ =>
               isChannelIgnored (allowedIdleChannelsOf (Part1.AfkChannelName config)
                 (Part1.IgnoredChannels config) channels) (ChannelID c) = false));
      [|eapply Forall_movesOnly_impl;
        [|apply (Part1_cycle_moves srv config channels clients w w1 w2 s Hch Hcl)]].
    + intros c _ Hc Hid Hno. specialize (Hign c Hc Hid).
      apply (isChannelIgnored_allowed (Part1.AfkChannelName config)) in Hign. congruence.
    + cbn. intros clid' cid (c & Hc & -> & _ & _ & Hno & _). by exists c.
  - eapply (movesOnly_notMoveOf (fun c _ =>
               isChannelIgnored (allowedIdleChannelsOf (Part2.AfkChannelName config)
                 (Part2.IgnoredChannels config) channels) (ChannelID c) = false));
      [|eapply Forall_movesOnly_impl;
        [|apply (Part2_processClients_moves srv config channels clients w w1 w2 s Hch Hcl)]].
    + intros c _ Hc Hid Hno. specialize (Hign c Hc Hid).
      apply (isChannelIgnored_allowed (Part2.AfkChannelName config)) in Hign. congruence.
    + cbn. intros clid' cid (c & Hc & -> & _ & _ & Hno & _). by exists c.
Qed.

(** X6. Every move command of a cycle sends a client that is in the
    snapshot, and outside the AFK channel, to the resolved AFK channel,
    whose id is not 0; no other channel is ever a target. *)
Theorem moves_target_the_afk_channel {W} (srv : Session W)
    channels clients (w w1 w2 : W) :
  ChannelList srv w = (Some channels, w1) →
  ClientList srv w1 = (Some clients, w2) →
  (∀ (config : Main.Config) s,
     let afk := afkChannelIdOf (Main.AfkChannelName config)
                  (Main.IgnoredChannels config) channels in
     Forall (movesOnly (fun clid cid =>
               cid = afk ∧ cid ≠ 0 ∧
               ∃ c, c ∈ clients ∧ ID c = clid ∧ ChannelID c ≠ cid))
            (trace (Main.cycle srv config w s))) ∧
  (∀ (config : Part1.Config) s,
     let afk := afkChannelIdOf (Part1.AfkChannelName config)
                  (Part1.IgnoredChannels config) channels in
     Forall (movesOnly (fun clid cid =>
               cid = afk ∧ cid ≠ 0 ∧
               ∃ c, c ∈ clients ∧ ID c = clid ∧ ChannelID c ≠ cid))
            (trace (Part1.cycle srv config w s))) ∧
  (∀ (config : Part2.Config) s,
     let afk := afkChannelIdOf (Part2.AfkChannelName config)
                  (Part2.IgnoredChannels config) channels in
     Forall (movesOnly (fun clid cid =>
               cid = afk ∧ cid ≠ 0 ∧
               ∃ c, c ∈ clients ∧ ID c = clid ∧ ChannelID c ≠ cid))
            (trace (Part2.processClients srv config w s))).
Proof.
  intros Hch Hcl. split_and!; intros config s afk.
  - destruct (decide (afk = 0)) as [H0|H0].
    { by rewrite (Main_cycle_no_afk srv config channels w w1 s Hch H0). }
    eapply Forall_movesOnly_impl;
      [|apply (Main_cycle_moves srv config channels clients w w1 w2 s Hch Hcl)].
    cbn. intros clid cid (c & Hc & -> & -> & Hne & _). split_and!; [done..|].
    by exists c.
  - destruct (decide (afk = 0)) as [H0|H0].
    { by rewrite (Part1_cycle_no_afk srv config channels w w1 s Hch H0). }
    eapply Forall_movesOnly_impl;
      [|apply (Part1_cycle_moves srv config channels clients w w1 w2 s Hch Hcl)].
    cbn. intros clid cid (c & Hc & -> & -> & Hne & _). split_and!; [done..|].
    by exists c.
  - destruct (decide (afk = 0)) as [H0|H0].
    { by rewrite (Part2_processClients_no_afk srv config channels w w1 s Hch H0). }
    eapply Forall_movesOnly_impl;
      [|apply (Part2_processClients_moves srv config channels clients w w1 w2 s Hch Hcl)].
    cbn. intros clid cid (c & Hc & -> & -> & Hne & _). split_and!; [done..|].
    by exists c.
Qed.

(** ** Failures inside a cycle *)

(** X7. Once both lists are there and the AFK channel is found, nothing
    that goes wrong for a single client ends the process: whatever
    errors [clientinfo] and [clientmove] return and whatever the replies
    contain, as long as no successful reply is empty, the cycle runs to
    its end in the three revisions. *)
Theorem item_failures_do_not_end_the_cycle {W} (srv : Session W)
    channels clients (w w1 w2 : W) :
  ChannelList srv w = (Some channels, w1) →
  ClientList srv w1 = (Some clients, w2) →
  repliesNonEmpty srv →
  (∀ (config : Main.Config) s,
     afkChannelIdOf (Main.AfkChannelName config)
       (Main.IgnoredChannels config) channels ≠ 0 →
     status (Main.cycle srv config w s) = Running tt) ∧
  (∀ (config : Part1.Config) s,
     afkChannelIdOf (Part1.AfkChannelName config)
       (Part1.IgnoredChannels config) channels ≠ 0 →
     status (Part1.cycle srv config w s) = Running tt) ∧
  (∀ (config : Part2.Config) s,
     afkChannelIdOf (Part2.AfkChannelName config)
       (Part2.IgnoredChannels config) channels ≠ 0 →
     status (Part2.processClients srv config w s) = Running tt).
Proof.
  intros Hch Hcl Hne. split_and!; intros config s H0.
  - rewrite (Main_cycle_eq srv config channels clients w w1 w2 s Hch Hcl H0).
    rewrite (bind_running _ _ _ _ tt); [done|].
    apply (forRange_running (fun _ => True)); [|done].
    intros c w' s' _ _. split; [|done]. by apply Main_evalClient_round.
  - rewrite (Part1_cycle_eq srv config channels clients w w1 w2 s Hch Hcl H0).
    rewrite (bind_running _ _ _ _ tt); [done|].
    apply (forRange_running (fun _ => True)); [|done].
    intros c w' s' _ _. split; [|done]. by apply Part1_evalClient_spec.
  - rewrite (Part2_processClients_eq srv config channels clients w w1 w2 s Hch Hcl H0).
    apply (forRange_running (fun _ => True)); [|done].
    intros c w' s' _ _. split; [|done]. by apply Part2_outerClient_spec.
Qed.

(** X8. A successful but empty [clientinfo] reply ends the process:
    [exec[0]] panics.  When it is the reply for the first client of the
    snapshot the cycle ends there, with no client evaluated or moved
    and no sleep. *)
Theorem empty_reply_panics {W} (srv : Session W)
    channels c rest (w w1 w2 : W) :
  ChannelList srv w = (Some channels, w1) →
  ClientList srv w1 = (Some (c :: rest), w2) →
  (Exec srv (ClientInfo (ID c)) w2).1 = Some [] →
  (∀ (config : Main.Config) s,
     afkChannelIdOf (Main.AfkChannelName config)
       (Main.IgnoredChannels config) channels ≠ 0 →
     Main.cycle srv config w s
     = {| trace := []; world := (Exec srv (ClientInfo (ID c)) w2).2; store := s;
          status := Exited IndexPanic |}) ∧
  (∀ (config : Part1.Config) s,
     afkChannelIdOf (Part1.AfkChannelName config)
       (Part1.IgnoredChannels config) channels ≠ 0 →
     Part1.cycle srv config w s
     = {| trace := []; world := (Exec srv (ClientInfo (ID c)) w2).2; store := s;
          status := Exited IndexPanic |}) ∧
  (∀ (config : Part2.Config),
     afkChannelIdOf (Part2.AfkChannelName config)
       (Part2.IgnoredChannels config) channels ≠ 0 →
     Part2.processClients srv config w Part2.initial
     = {| trace := []; world := (Exec srv (ClientInfo (ID c)) w2).2;
          store := Part2.initial; status := Exited IndexPanic |}).
Proof.
  intros Hch Hcl Hempty. split_and!.
  - intros config s H0.
    rewrite (Main_cycle_eq srv config channels _ w w1 w2 s Hch Hcl H0). cbn.
    unfold bind. by rewrite (Main_evalClient_panic srv config _ _ c w2 s Hempty).
  - intros config s H0.
    rewrite (Part1_cycle_eq srv config channels _ w w1 w2 s Hch Hcl H0). cbn.
    unfold bind. by rewrite (Part1_evalClient_panic srv config _ _ _ c w2 s Hempty).
  - intros config H0.
    rewrite (Part2_processClients_eq srv config channels _ w w1 w2 _ Hch Hcl H0). cbn.
    unfold bind. rewrite (Part2_outerClient_panic srv config); [done| |done].
    intros (t & Ht & _). unfold Part2.initial in Ht. by rewrite lookup_empty in Ht.
Qed.

(** X9. src/main.go has no solo check.  When the AFK channel is found
    and no successful [clientinfo] reply is empty (an empty one ends the
    process before the clients listed after it are looked at), every
    client of the snapshot whose idle time reads above the threshold and
    that is outside the ignored channels and the AFK channel is sent a
    move command, alone in its channel or not, whatever errors the
    commands for the other clients return. *)
Theorem main_moves_every_idle_client {W} (srv : Session W) (config : Main.Config)
    channels clients (w w1 w2 : W) (c : OnlineClient) s :
  let afk := afkChannelIdOf (Main.AfkChannelName config)
               (Main.IgnoredChannels config) channels in
  let allowed := allowedIdleChannelsOf (Main.AfkChannelName config)
                   (Main.IgnoredChannels config) channels in
  ChannelList srv w = (Some channels, w1) →
  ClientList srv w1 = (Some clients, w2) →
  afk ≠ 0 →
  repliesNonEmpty srv →
  c ∈ clients →
  idleBeyond srv (Main.MaxIdleTimeMs config) (ID c) →
  isChannelIgnored allowed (ChannelID c) = false →
  ChannelID c ≠ afk →
  ExecMove (ID c) afk ∈ trace (Main.cycle srv config w s).
Proof.
  intros afk allowed Hch Hcl H0 Hne Hc Hidle Hign Hafk.
  rewrite (Main_cycle_eq srv config channels clients w w1 w2 s Hch Hcl H0).
  assert (Hrun : ∀ x w' s', x ∈ clients → True →
            status (Main.evalClient srv config afk allowed x w' s') = Running tt ∧ True).
  { intros x w' s' _ _. split; [|done]. by apply Main_evalClient_round. }
  destruct (forRange_running (fun _ => True) clients _ Hrun w2 s I) as [Hr _].
  rewrite (bind_running _ _ _ _ tt Hr). cbn. apply elem_of_app. left.
  apply (forRange_emits _ (fun _ => True) clients _ c Hc Hrun); [|done].
  intros w' s' _. apply Main_evalClient_round; [apply Hidle|done..].
Qed.

(** X3. A channel carrying the AFK name is not enough: when the last
    channel with that name has id 0 the loop takes the AFK channel for
    missing and exits the process, in the three revisions. *)
Theorem afk_channel_with_id_zero_is_fatal {W} (srv : Session W)
    l1 channel l2 (w w1 : W) :
  ChannelList srv w = (Some (l1 ++ channel :: l2), w1) →
  CID channel = 0 →
  (∀ (config : Main.Config) s,
     ChannelName channel = Main.AfkChannelName config →
     (∀ later, later ∈ l2 → ChannelName later ≠ Main.AfkChannelName config) →
     status (Main.cycle srv config w s) = Exited LogFatal) ∧
  (∀ (config : Part1.Config) s,
     ChannelName channel = Part1.AfkChannelName config →
     (∀ later, later ∈ l2 → ChannelName later ≠ Part1.AfkChannelName config) →
     status (Part1.cycle srv config w s) = Exited LogFatal) ∧
  (∀ (config : Part2.Config) s,
     ChannelName channel = Part2.AfkChannelName config →
     (∀ later, later ∈ l2 → ChannelName later ≠ Part2.AfkChannelName config) →
     status (Part2.processClients srv config w s) = Exited LogFatal).
Proof.
  intros Hch Hzero. split_and!; intros config s Hname Hlater.
  - rewrite (Main_cycle_no_afk srv config _ w w1 s Hch); [done|].
    unfold afkChannelIdOf. by rewrite scanChannels_afk_last.
  - rewrite (Part1_cycle_no_afk srv config _ w w1 s Hch); [done|].
    unfold afkChannelIdOf. by rewrite scanChannels_afk_last.
  - rewrite (Part2_processClients_no_afk srv config _ w w1 s Hch); [done|].
    unfold afkChannelIdOf. by rewrite scanChannels_afk_last.
Qed.

(** X10. The recent-join branch of part_002, were [recentJoins] ever
    filled: a client whose channel has a join time at most ten seconds
    old, whenever it is looked at, is not sent a move command, whatever
    its idle time. *)
Theorem recently_joined_channel_not_moved {W} (srv : Session W) (config : Part2.Config)
    channels clients (w w1 w2 : W) (recentJoins : gmap Z Z) (clid : Z) :
  ChannelList srv w = (Some channels, w1) →
  ClientList srv w1 = (Some clients, w2) →
  (∀ c w', c ∈ clients → ID c = clid → freshJoin srv recentJoins c w') →
  Forall (notMoveOf clid) (trace (Part2.processClients srv config w recentJoins)).
Proof.
  intros Hch Hcl Hfresh.
  apply Part2_processClients_Forall; [by intros e He cid|].
  intros channels' clients' w1' w2' Hch' Hcl' _ c w' Hc. split; [done|].
  rewrite Hch in Hch'. injection Hch' as <- <-.
  rewrite Hcl in Hcl'. injection Hcl' as <- <-.
  eapply Forall_impl; [apply Part2_evalClient_idle|]. cbn.
  intros e He cid ->. destruct (He _ _ eq_refl) as (Hid & _ & Hstale).
  apply Hstale. by apply Hfresh.
Qed.

(** ** The solo list of part_001 *)

Lemma removeSolo_None id soloClients :
  Part1.removeSolo id soloClients = None ↔ id ∉ soloClients.
Proof.
  induction soloClients as [|v rest IH]; cbn.
  - split; [|done]. intros _. apply not_elem_of_nil.
  - destruct (Z.eqb_spec v id) as [->|Hne].
    + split; [done|]. intros Hno. exfalso. apply Hno. by left.
    + destruct (Part1.removeSolo id rest) as [rest'|]; cbn.
      * split; [done|]. intros Hno. exfalso.
        assert (Hin : id ∉ rest) by (intros ?; apply Hno; by right).
        by apply IH in Hin.
      * split; [|done]. intros _ [?|Hin]%elem_of_cons; [done|].
        by apply (proj1 IH).
Qed.

Lemma removeSolo_first id soloClients rest :
  Part1.removeSolo id soloClients = Some rest ↔
  ∃ l1 l2, soloClients = l1 ++ (id :: l2) ∧ (id ∉ l1) ∧ rest = l1 ++ l2.
Proof.
  revert rest. induction soloClients as [|v l IH]; intros rest; cbn.
  - split; [done|]. intros (l1 & l2 & Heq & _). by destruct l1.
  - destruct (Z.eqb_spec v id) as [->|Hne].
    + split.
      * intros [= <-]. exists [], l. split_and!; [done|apply not_elem_of_nil|done].
      * intros (l1 & l2 & Heq & Hno & ->). destruct l1 as [|v1 l1].
        -- by injection Heq as ->.
        -- injection Heq as <- _. exfalso. apply Hno. by left.
    + split.
      * destruct (Part1.removeSolo id l) as [l'|] eqn:Hrm; cbn; [|done].
        intros [= <-]. destruct (proj1 (IH l') eq_refl) as (l1 & l2 & -> & Hno & ->).
        exists (v :: l1), l2. split_and!; [done| |done].
        intros [?|?]%elem_of_cons; done.
      * intros (l1 & l2 & Heq & Hno & ->). destruct l1 as [|v1 l1].
        -- by injection Heq as ->.
        -- injection Heq as <- ->. cbn.
           rewrite (proj2 (IH (l1 ++ l2))); [done|].
           exists l1, l2. split_and!; [done| |done].
           intros ?. apply Hno. by right.
Qed.

(** X11. Removing a client from the solo list takes out the first entry
    equal to its id and nothing else, keeping the order of the others;
    the removal loop finds nothing exactly when the id is not in the
    list.  Later copies of the id stay. *)
Theorem removeSolo_takes_first_occurrence id soloClients :
  (∀ rest, Part1.removeSolo id soloClients = Some rest ↔
           ∃ l1 l2, soloClients = l1 ++ (id :: l2) ∧ (id ∉ l1) ∧ rest = l1 ++ l2) ∧
  (Part1.removeSolo id soloClients = None ↔ id ∉ soloClients).
Proof. split; [intros rest; apply removeSolo_first | apply removeSolo_None]. Qed.

Lemma removeSolo_elem id soloClients rest x :
  Part1.removeSolo id soloClients = Some rest → x ∈ rest → x ∈ soloClients.
Proof.
  intros (l1 & l2 & -> & _ & ->)%removeSolo_first.
  rewrite !elem_of_app, elem_of_cons. tauto.
Qed.

Lemma soloScan_elem c clients soloClients isSolo isGracePeriod x :
  x ∈ (Part1.soloScan c clients soloClients isSolo isGracePeriod).1.1 →
  x ∈ soloClients ∨ x = ID c.
Proof.
  revert soloClients isSolo.
  induction clients as [|c2 rest IH]; intros soloClients isSolo; cbn; [by left|].
  destruct (coOccupant c c2).
  - destruct (Part1.removeSolo (ID c) soloClients) as [rest'|] eqn:Hrm; cbn; [|by left].
    intros Hx. left. by eapply removeSolo_elem.
  - intros [[?|?%list_elem_of_singleton]%elem_of_app|?]%IH; auto.
Qed.

Lemma occurrences_zero id l : occurrences id l = O ↔ id ∉ l.
Proof.
  induction l as [|v l IH]; cbn.
  - split; [|done]. intros _. apply not_elem_of_nil.
  - destruct (Z.eqb_spec v id) as [->|Hne].
    + split; [done|]. intros Hno. exfalso. apply Hno. by left.
    + rewrite IH. split.
      * intros Hno [?|?]%elem_of_cons; done.
      * intros Hno ?. apply Hno. by right.
Qed.

Section Part1More.
Context {W : Type} (srv : Session W) (config : Part1.Config).
Implicit Types (w : W) (s : list Z).

(** One round when the first client of the snapshot shares the channel
    of [c]: [c] is moved unless it is recorded, and the list is left
    alone when it is not recorded. *)
Lemma Part1_evalClient_head afk allowed c0 rest c w s :
  coOccupant c c0 = true →
  ID c ∉ s →
  let r := Part1.evalClient srv config afk allowed (c0 :: rest) c w s in
  store r = s ∧
  (readAbove srv (Part1.MaxIdleTimeMs config) (ID c) w →
   isChannelIgnored allowed (ChannelID c) = false → ChannelID c ≠ afk →
   ExecMove (ID c) afk ∈ trace r).
Proof.
  intros Hco Hno r. subst r. apply removeSolo_None in Hno.
  unfold Part1.evalClient, bind, readAbove, idleTimeAt.
  query_cases srv c w s.
  - split; [done|]. intros (t & Ht & _). by rewrite Hnone in Ht.
  - split; [done|]. intros (t & Ht & _). by rewrite Hempty in Ht.
  - split; [done|]. by intros _ [=].
  - split; [done|]. intros _ _ Hne. by apply Z.eqb_eq in Hafk.
  - rewrite Hco, Hno. cbn.
    destruct (moveClient_eq (S:=list Z) srv (ID c) afk (Exec srv (ClientInfo (ID c)) w).2 s)
      as (t & Ht & ->); cbn.
    split; [done|]. intros _ _ _. destruct Ht as [-> | ->]; by left.
  - split; [done|]. intros (t & Ht & Hgt) _ _. rewrite Hdigits, Hatoi in Ht.
    injection Ht as <-. rewrite Z.gtb_ltb in Hidle. apply Z.ltb_ge in Hidle. lia.
  - split; [done|]. intros (t & Ht & _). by rewrite Hdigits, Hatoi in Ht.
Qed.

Lemma Part1_evalClient_keeps_absent afk allowed clients x w s id :
  id ∉ s → id ≠ ID x →
  id ∉ store (Part1.evalClient srv config afk allowed clients x w s).
Proof.
  intros Hno Hne.
  destruct (Part1_evalClient_spec srv config afk allowed clients x w s)
    as (_ & [-> | ->] & _); [done|].
  intros [?|?]%soloScan_elem; done.
Qed.
End Part1More.

(** X12. When part_001 does move a client.  When the AFK channel is
    found and no successful [clientinfo] reply is empty (an empty one
    ends the process before the clients listed after it are looked at),
    an idle client outside the ignored channels and the AFK channel,
    whose id is not in [soloClients], is sent a move command in a cycle
    whose snapshot lists a co-occupant of it first (every entry with
    the client's id being in that position). *)
Theorem part1_moves_client_listed_after_cooccupant {W} (srv : Session W)
    (config : Part1.Config) channels c0 rest (w w1 w2 : W) (c : OnlineClient) soloClients :
  let afk := afkChannelIdOf (Part1.AfkChannelName config)
               (Part1.IgnoredChannels config) channels in
  let allowed := allowedIdleChannelsOf (Part1.AfkChannelName config)
                   (Part1.IgnoredChannels config) channels in
  ChannelList srv w = (Some channels, w1) →
  ClientList srv w1 = (Some (c0 :: rest), w2) →
  afk ≠ 0 →
  repliesNonEmpty srv →
  c ∈ c0 :: rest →
  (∀ x, x ∈ c0 :: rest → ID x = ID c → coOccupant x c0 = true) →
  ID c ∉ soloClients →
  idleBeyond srv (Part1.MaxIdleTimeMs config) (ID c) →
  isChannelIgnored allowed (ChannelID c) = false →
  ChannelID c ≠ afk →
  ExecMove (ID c) afk ∈ trace (Part1.cycle srv config w soloClients).
Proof.
  intros afk allowed Hch Hcl H0 Hne Hc Hco Hno Hidle Hign Hafk.
  rewrite (Part1_cycle_eq srv config channels _ w w1 w2 _ Hch Hcl H0).
  assert (Hrun : ∀ x w' s', x ∈ c0 :: rest → ID c ∉ s' →
            status (Part1.evalClient srv config afk allowed (c0 :: rest) x w' s')
            = Running tt ∧
            ID c ∉ store (Part1.evalClient srv config afk allowed (c0 :: rest) x w' s')).
  { intros x w' s' Hx Hs'. split; [by apply Part1_evalClient_spec|].
    destruct (decide (ID x = ID c)) as [Heq|Hneq].
    - destruct (Part1_evalClient_head srv config afk allowed c0 rest x w' s') as [-> _];
        [by apply Hco|by rewrite Heq|done].
    - by apply Part1_evalClient_keeps_absent. }
  destruct (forRange_running _ _ _ Hrun w2 soloClients Hno) as [Hr _].
  rewrite (bind_running _ _ _ _ tt Hr). cbn. apply elem_of_app. left.
  apply (forRange_emits _ _ _ _ c Hc Hrun); [|done].
  intros w' s' Hs'.
  apply Part1_evalClient_head; [by apply Hco|done|apply Hidle|done..].
Qed.

(** X13. [soloClients] only ever holds ids of clients that were seen:
    after a cycle every id in the list was in it before or is the id of
    a client of the snapshot. *)
Theorem part1_solo_list_holds_seen_clients {W} (srv : Session W) (config : Part1.Config)
    channels clients (w w1 w2 : W) soloClients (id : Z) :
  ChannelList srv w = (Some channels, w1) →
  ClientList srv w1 = (Some clients, w2) →
  id ∈ store (Part1.cycle srv config w soloClients) →
  id ∈ soloClients ∨ ∃ c, c ∈ clients ∧ ID c = id.
Proof.
  intros Hch Hcl.
  destruct (decide (afkChannelIdOf (Part1.AfkChannelName config)
                      (Part1.IgnoredChannels config) channels = 0)) as [H0|H0].
  { rewrite (Part1_cycle_no_afk srv config channels w w1 _ Hch H0). by left. }
  rewrite (Part1_cycle_eq srv config channels clients w w1 w2 _ Hch Hcl H0).
  intros Hin. revert id Hin.
  apply (bind_store (fun s' => ∀ id, id ∈ s' →
           id ∈ soloClients ∨ ∃ c, c ∈ clients ∧ ID c = id)); [|by intros [] ? ?].
  apply (forRange_trace (fun _ => True)
           (fun s' => ∀ id, id ∈ s' → id ∈ soloClients ∨ ∃ c, c ∈ clients ∧ ID c = id));
    [|by left].
  intros x w' s' Hx Hs'. split; [by apply Forall_true|].
  intros id. destruct (Part1_evalClient_spec srv config
    (afkChannelIdOf (Part1.AfkChannelName config) (Part1.IgnoredChannels config) channels)
    (allowedIdleChannelsOf (Part1.AfkChannelName config) (Part1.IgnoredChannels config) channels)
    clients x w' s') as (_ & [-> | ->] & _); [by apply Hs'|].
  intros [?| ->]%soloScan_elem; [by apply Hs'|]. right. by exists x.
Qed.

Section Part1Growth.
Context {W : Type} (srv : Session W) (config : Part1.Config).
Implicit Types (w : W) (s : list Z).

Lemma Part1_loop_count afk allowed clients c l w s :
  repliesNonEmpty srv →
  alone clients c →
  idleBeyond srv (Part1.MaxIdleTimeMs config) (ID c) →
  isChannelIgnored allowed (ChannelID c) = false → ChannelID c ≠ afk →
  NoDup (ID <$> l) →
  let r := forRange l (Part1.evalClient srv config afk allowed clients) w s in
  status r = Running tt ∧
  (c ∈ l → occurrences (ID c) (store r)
           = (occurrences (ID c) s + length clients)%nat) ∧
  (ID c ∉ ID <$> l → occurrences (ID c) (store r) = occurrences (ID c) s).
Proof.
  intros Hne Halone Hidle Hign Hafk. revert w s.
  induction l as [|x l IH]; intros w s Hnd; cbn.
  { split_and!; [done| |done]. by intros ?%elem_of_nil. }
  rewrite fmap_cons in Hnd. apply NoDup_cons in Hnd as [Hx Hnd].
  destruct (Part1_evalClient_spec srv config afk allowed clients x w s)
    as (_ & Hstore & Hrec & Hrun). cbn in Hstore, Hrec, Hrun.
  rewrite (bind_running _ _ _ _ tt) by (by apply Hrun). cbn.
  destruct (IH (world (Part1.evalClient srv config afk allowed clients x w s))
               (store (Part1.evalClient srv config afk allowed clients x w s)) Hnd)
    as (Hr & Hin & Hout). cbn in Hr, Hin, Hout.
  split_and!; [done| |].
  - intros [<- | Hc]%elem_of_cons.
    + rewrite Hout by done. rewrite Hrec; [|apply Hidle|done..].
      rewrite soloScan_alone by done. cbn.
      by rewrite occurrences_app, occurrences_replicate.
    + rewrite Hin by done. f_equal.
      assert (Hneq : ID c ≠ ID x).
      { intros Heq. apply Hx. rewrite <- Heq. by apply list_elem_of_fmap_2. }
      destruct Hstore as [-> | ->]; [done|].
      by apply soloScan_other_occurrences.
  - intros Hno. rewrite Hout by (intros ?; apply Hno; by right).
    assert (Hneq : ID c ≠ ID x) by (intros Heq; apply Hno; rewrite Heq; by left).
    destruct Hstore as [-> | ->]; [done|].
    by apply soloScan_other_occurrences.
Qed.
End Part1Growth.

(** X14. The solo list of part_001 grows without bound.  Against a
    server whose lists do not change, with the AFK channel found, no
    successful [clientinfo] reply empty (an empty one ends the process)
    and the ids of the client list all different, every cycle in which
    a client stays alone and idle (outside the ignored channels and the
    AFK channel) appends its id once for each client of the snapshot,
    and nothing removes them: the main loop keeps running, and after
    [n] rounds the id is recorded [n * len(clients)] times more than at
    the start. *)
Theorem part1_solo_list_grows_every_cycle {W} (srv : Session W) (config : Part1.Config)
    channels clients (c : OnlineClient) :
  let afk := afkChannelIdOf (Part1.AfkChannelName config)
               (Part1.IgnoredChannels config) channels in
  let allowed := allowedIdleChannelsOf (Part1.AfkChannelName config)
                   (Part1.IgnoredChannels config) channels in
  (∀ w, (ChannelList srv w).1 = Some channels) →
  (∀ w, (ClientList srv w).1 = Some clients) →
  afk ≠ 0 →
  repliesNonEmpty srv →
  c ∈ clients →
  NoDup (ID <$> clients) →
  alone clients c →
  idleBeyond srv (Part1.MaxIdleTimeMs config) (ID c) →
  isChannelIgnored allowed (ChannelID c) = false →
  ChannelID c ≠ afk →
  ∀ (n : nat) (w : W) soloClients,
    status (Part1.main srv config n w soloClients) = Running tt ∧
    occurrences (ID c) (store (Part1.main srv config n w soloClients))
    = (occurrences (ID c) soloClients + n * length clients)%nat.
Proof.
  intros afk allowed Hch Hcl H0 Hne Hc Hnd Halone Hidle Hign Hafk.
  assert (Hcycle : ∀ w s,
            status (Part1.cycle srv config w s) = Running tt ∧
            occurrences (ID c) (store (Part1.cycle srv config w s))
            = (occurrences (ID c) s + length clients)%nat).
  { intros w s.
    destruct (ChannelList srv w) as [o w1] eqn:Hch'.
    assert (o = Some channels) as -> by (specialize (Hch w); by rewrite Hch' in Hch).
    destruct (ClientList srv w1) as [o w2] eqn:Hcl'.
    assert (o = Some clients) as -> by (specialize (Hcl w1); by rewrite Hcl' in Hcl).
    rewrite (Part1_cycle_eq srv config channels clients w w1 w2 s Hch' Hcl' H0).
    destruct (Part1_loop_count srv config afk allowed clients c clients w2 s)
      as (Hr & Hin & _); try done.
    rewrite (bind_running _ _ _ _ tt Hr). cbn. split; [done|]. by apply Hin. }
  unfold Part1.main. induction n as [|n IH]; intros w s; cbn [rounds].
  { cbn. split; [done|]. lia. }
  destruct (Hcycle w s) as [Hr Hocc].
  rewrite (bind_running _ _ _ _ tt Hr). cbn [store status].
  destruct (IH (world (Part1.cycle srv config w s))
               (store (Part1.cycle srv config w s))) as [Hr' Hocc'].
  split; [done|]. rewrite Hocc', Hocc. lia.
Qed.

(** ** The nested loop of part_002 *)

Lemma moveCount_app clid t1 t2 :
  moveCount clid (t1 ++ t2) = (moveCount clid t1 + moveCount clid t2)%nat.
Proof. unfold moveCount. by rewrite moves_app, fmap_app, occurrences_app. Qed.

Lemma moveCount_elem clid cid t :
  ExecMove clid cid ∈ t → (1 ≤ moveCount clid t)%nat.
Proof.
  intros (t1 & t2 & ->)%list_elem_of_split.
  rewrite moveCount_app. unfold moveCount at 2. cbn. rewrite Z.eqb_refl. lia.
Qed.

Lemma forRange_moveCount {W S A} (clid : Z) (I : S → Prop)
    (l : list A) (body : A → M W S unit) :
  (∀ x w s, x ∈ l → I s →
     status (body x w s) = Running tt ∧ I (store (body x w s)) ∧
     (1 ≤ moveCount clid (trace (body x w s)))%nat) →
  ∀ w s, I s → (length l ≤ moveCount clid (trace (forRange l body w s)))%nat.
Proof.
  induction l as [|x l IH]; intros Hbody w s Hs; cbn [forRange length]; [lia|].
  destruct (Hbody x w s) as (Hr & Hi & Hone); [by left|done|].
  rewrite (bind_running _ _ _ _ tt Hr). cbn [trace]. rewrite moveCount_app.
  assert (Hrest := IH (fun y w' s' Hy => Hbody y w' s' (list_elem_of_further _ _ _ Hy))
                      (world (body x w s)) (store (body x w s)) Hi).
  lia.
Qed.

(** X15. The nested loop of part_002 in general: when every client's
    reply carries an idle-time field, a client that qualifies for the
    move (idle, with a co-occupant, outside the ignored channels and the
    AFK channel) is sent at least as many move commands in one cycle as
    the snapshot has clients. *)
Theorem part2_moves_client_once_per_listed_client {W} (srv : Session W)
    (config : Part2.Config) channels clients (w w1 w2 : W) (c : OnlineClient) :
  let afk := afkChannelIdOf (Part2.AfkChannelName config)
               (Part2.IgnoredChannels config) channels in
  let allowed := allowedIdleChannelsOf (Part2.AfkChannelName config)
                   (Part2.IgnoredChannels config) channels in
  ChannelList srv w = (Some channels, w1) →
  ClientList srv w1 = (Some clients, w2) →
  afk ≠ 0 →
  repliesNonEmpty srv →
  (∀ x w', x ∈ clients → is_Some (replyDigits (Exec srv (ClientInfo (ID x)) w').1)) →
  c ∈ clients →
  ¬ alone clients c →
  idleBeyond srv (Part2.MaxIdleTimeMs config) (ID c) →
  isChannelIgnored allowed (ChannelID c) = false →
  ChannelID c ≠ afk →
  (length clients
   ≤ moveCount (ID c) (trace (Part2.processClients srv config w Part2.initial)))%nat.
Proof.
  intros afk allowed Hch Hcl H0 Hne Hdigits Hc Hco Hidle Hign Hafk.
  rewrite (Part2_processClients_eq srv config channels clients w w1 w2 _ Hch Hcl H0).
  apply (forRange_moveCount (ID c) (fun s => s = ∅)); [|done].
  intros x w' s' Hx ->. split_and!; [by apply Part2_outerClient_spec..|].
  apply (moveCount_elem _ afk).
  apply Part2_outerClient_moves; auto.
  destruct (Part2.soloCheck c clients) eqn:Hsolo; [|done].
  by apply soloCheck_alone in Hsolo.
Qed.

(** ** The idle time that is read *)

Lemma takeDigits_allDigits s : allDigits (takeDigits s) = true.
Proof.
  induction s as [|a s IH]; cbn; [done|].
  destruct (isDigit a) eqn:Ha; cbn; [|done]. by rewrite Ha.
Qed.

Lemma matchHere_digits s digits :
  matchHere s = Some digits → digits ≠ EmptyString ∧ allDigits digits = true.
Proof.
  unfold matchHere. destruct (stripPrefix idleTimeKey s) as [rest|]; [|done].
  destruct (takeDigits rest) as [|a d] eqn:Ht; [done|].
  intros [= <-]. split; [done|]. rewrite <- Ht. apply takeDigits_allDigits.
Qed.

Lemma FindStringSubmatch_shape s :
  FindStringSubmatch s = [] ∨
  ∃ digits, FindStringSubmatch s = [(idleTimeKey ++ digits)%string; digits] ∧
            digits ≠ EmptyString ∧ allDigits digits = true.
Proof.
  induction s as [|a s IH].
  - left. reflexivity.
  - cbn [FindStringSubmatch].
    destruct (matchHere (String a s)) as [digits|] eqn:Hm; [|exact IH].
    right. exists digits. split; [done|]. by apply (matchHere_digits (String a s)).
Qed.

Lemma parseDecimal_allDigits s acc :
  allDigits s = true → 0 <= acc →
  ∃ v, parseDecimal s acc = Some v ∧ acc <= v.
Proof.
  revert acc. induction s as [|a s IH]; intros acc Hd Hacc; cbn in *.
  - exists acc. split; [done|lia].
  - apply andb_prop in Hd as [Ha Hs]. rewrite Ha.
    assert (Hv : 0 <= digitValue a <= 9).
    { unfold isDigit, digitValue in *. apply andb_prop in Ha as [H1 H2].
      apply Nat.leb_le in H1, H2. lia. }
    destruct (IH (10 * acc + digitValue a) Hs) as (v & Hv' & Hle); [lia|].
    exists v. split; [done|lia].
Qed.

(** X16. What the program reads as an idle time: the capture group of
    the regular expression is never empty and holds only digits, so it
    always has a decimal value, which is not negative, and [Atoi] fails
    on it in one case only, a value above the largest 64-bit [int].  An
    idle time that is read lies between 0 and that bound. *)
Theorem idle_time_is_decimal_capture {W} (srv : Session W) (clid : Z) (w : W) :
  (∀ digits, replyDigits (Exec srv (ClientInfo clid) w).1 = Some digits →
     digits ≠ EmptyString ∧ allDigits digits = true ∧
     ∃ v, parseDecimal digits 0 = Some v ∧ 0 <= v ∧
          Atoi digits = (if v <=? maxInt then Some v else None)) ∧
  (∀ idleTime, idleTimeAt srv clid w = Some idleTime → 0 <= idleTime <= maxInt).
Proof.
  assert (Hcap : ∀ digits, replyDigits (Exec srv (ClientInfo clid) w).1 = Some digits →
     digits ≠ EmptyString ∧ allDigits digits = true ∧
     ∃ v, parseDecimal digits 0 = Some v ∧ 0 <= v ∧
          Atoi digits = (if v <=? maxInt then Some v else None)).
  { intros digits Hd. unfold replyDigits in Hd.
    destruct (Exec srv (ClientInfo clid) w).1 as [[|line exec]|]; try done.
    destruct (FindStringSubmatch_shape line) as [Hnil | (d & Heq & Hne & Hall)];
      rewrite ?Hnil, ?Heq in Hd; [done|].
    injection Hd as <-. split_and!; [done..|].
    destruct (parseDecimal_allDigits d 0 Hall) as (v & Hv & Hle); [lia|].
    exists v. split_and!; [done..|].
    unfold Atoi. rewrite Hv. by destruct d. }
  split; [exact Hcap|].
  intros t Ht. unfold idleTimeAt in Ht.
  destruct (replyDigits (Exec srv (ClientInfo clid) w).1) as [digits|] eqn:Hd; [|done].
  destruct (Hcap digits eq_refl) as (_ & _ & v & _ & Hpos & Hatoi).
  rewrite Hatoi in Ht. destruct (Z.leb_spec v maxInt); [|done].
  injection Ht as <-. lia.
Qed.

(** ** Loading the configuration *)

Lemma wrapInt_range z : - 2 ^ 63 <= wrapInt z <= maxInt.
Proof.
  unfold wrapInt, maxInt.
  assert (H := Z.mod_pos_bound (z + 2 ^ 63) (2 ^ 64) ltac:(lia)). lia.
Qed.

Lemma wrapInt_small z : - 2 ^ 63 <= z <= maxInt → wrapInt z = z.
Proof.
  unfold wrapInt, maxInt. intros Hz. rewrite Z.mod_small; lia.
Qed.

Ltac load_steps :=
  repeat match goal with
         | H : context [match ?x with _ => _ end] |- _ =>
             destruct x eqn:?; cbn in H; try discriminate H
         end;
  simplify_eq.

Ltac required_keys Hkey :=
  cbn in Hkey; rewrite ?elem_of_cons, elem_of_nil in Hkey;
  destruct_or!; subst; eauto; done.

Section LoadFacts.
Variable Unmarshal : string → option (list string).

(** What a successful load says of the environment. *)
Lemma Main_load_inv env config :
  Main.parseEnvConfig Unmarshal env = inr config →
  (∀ key, key ∈ mainRequired → is_Some (env key)) ∧
  ∃ seconds maxIdleTimeStr,
    env "TS3_MAX_IDLE_TIME_SEC" = Some maxIdleTimeStr ∧
    AtoiSigned maxIdleTimeStr = Some seconds ∧
    Main.MaxIdleTimeMs config = wrapInt (seconds * 1000).
Proof.
  unfold Main.parseEnvConfig, getRequiredEnv, orError, bindE.
  intros H. load_steps.
  all: (split; [intros key Hkey; unfold mainRequired in Hkey;
                required_keys Hkey | eauto]).
Qed.

Lemma Part1_load_inv env config :
  Part1.loadConfigFromEnv Unmarshal env = inr config →
  (∀ key, key ∈ part1Required → is_Some (env key)) ∧
  ∃ seconds maxIdleTimeStr,
    env "TS3_MAX_IDLE_TIME_SEC" = Some maxIdleTimeStr ∧
    AtoiSigned maxIdleTimeStr = Some seconds ∧
    Part1.MaxIdleTimeMs config = wrapInt (seconds * 1000).
Proof.
  unfold Part1.loadConfigFromEnv, getRequiredEnv, orError, bindE.
  intros H. load_steps. split.
  - intros key Hkey. unfold part1Required, mainRequired in Hkey.
    required_keys Hkey.
  - eauto.
Qed.

Lemma Part2_load_inv env config :
  Part2.loadConfigFromEnv Unmarshal env = inr config →
  (∀ key, key ∈ part2Required → is_Some (env key)) ∧
  ∃ seconds maxIdleTimeStr,
    env "TS3_MAX_IDLE_TIME_SEC" = Some maxIdleTimeStr ∧
    AtoiSigned maxIdleTimeStr = Some seconds ∧
    Part2.MaxIdleTimeMs config = wrapInt (seconds * 1000).
Proof.
  unfold Part2.loadConfigFromEnv, getRequiredEnv, orError, bindE.
  intros H. load_steps. split.
  - intros key Hkey. unfold part2Required, part1Required, mainRequired in Hkey.
    required_keys Hkey.
  - eauto.
Qed.

Lemma Part1_load_of_Main env :
  is_Some (env "TS3_IGNORED_CHANNELS") →
  Part1.loadConfigFromEnv Unmarshal env
  = sum_map id part1OfMain (Main.parseEnvConfig Unmarshal env).
Proof.
  intros [raw Hraw].
  unfold Part1.loadConfigFromEnv, Main.parseEnvConfig, getRequiredEnv,
    orError, bindE.
  rewrite Hraw.
  repeat match goal with
         | |- context [match ?x with _ => _ end] => destruct x; cbn; try done
         end.
Qed.

Lemma Part2_load_of_Part1 env :
  Part2.loadConfigFromEnv Unmarshal env
  = bindE (Part1.loadConfigFromEnv Unmarshal env) (fun config =>
      bindE (getRequiredEnv env "TS3_ALLOW_GRACE_PERIOD")
        (fun allowGracePeriod =>
           bindE (orError NotBoolean (ParseBool allowGracePeriod))
             (fun allow => inr (part2OfPart1 config allow)))).
Proof.
  unfold Part2.loadConfigFromEnv, Part1.loadConfigFromEnv, getRequiredEnv,
    orError, bindE.
  repeat match goal with
         | |- context [match env ?k with _ => _ end] =>
             destruct (env k); cbn; try done
         | |- context [match AtoiSigned ?k with _ => _ end] =>
             destruct (AtoiSigned k); cbn; try done
         | |- context [match Unmarshal ?k with _ => _ end] =>
             destruct (Unmarshal k); cbn; try done
         | |- context [match ParseBool ?k with _ => _ end] =>
             destruct (ParseBool k); cbn; try done
         end.
Qed.

End LoadFacts.

(** X17. In part_001 the client listed first in the snapshot is never
    moved, however idle it is and however long the bot runs: against a
    server whose lists do not change, no round of the main loop sends a
    move command for its id. *)
Theorem part1_first_listed_client_never_moved {W} (srv : Session W)
    (config : Part1.Config) channels c0 rest :
  (∀ w, (ChannelList srv w).1 = Some channels) →
  (∀ w, (ClientList srv w).1 = Some (c0 :: rest)) →
  ∀ (n : nat) (w : W) soloClients,
    Forall (notMoveOf (ID c0)) (trace (Part1.main srv config n w soloClients)).
Proof.
  intros Hch Hcl n w s.
  destruct (rounds_trace (notMoveOf (ID c0)) (fun _ => True) n
              (Part1.cycle srv config)) with (w := w) (s := s)
    as [Ht _]; [|done|exact Ht].
  clear w s. intros w s _. split; [|done].
  destruct (ChannelList srv w) as [o w1] eqn:Hch'.
  assert (o = Some channels) as -> by (specialize (Hch w); by rewrite Hch' in Hch).
  destruct (ClientList srv w1) as [o w2] eqn:Hcl'.
  assert (o = Some (c0 :: rest)) as -> by (specialize (Hcl w1); by rewrite Hcl' in Hcl).
  by apply (Part1_first_client_never_moved srv config channels c0 rest w w1 w2 s).
Qed.

(** X18. In src/main.go and in part_001 a cycle sends at most one move
    command for each entry of the client list, in the order of the
    list, and every one of them to the resolved AFK channel: the moves
    of the cycle are a sublist of the snapshot. *)
Theorem moves_follow_snapshot_order {W} (srv : Session W) channels clients
    (w w1 w2 : W) :
  ChannelList srv w = (Some channels, w1) →
  ClientList srv w1 = (Some clients, w2) →
  (∀ (config : Main.Config) s,
     moves (trace (Main.cycle srv config w s))
     `sublist_of`
     ((fun c => (ID c, afkChannelIdOf (Main.AfkChannelName config)
                         (Main.IgnoredChannels config) channels)) <$> clients)) ∧
  (∀ (config : Part1.Config) s,
     moves (trace (Part1.cycle srv config w s))
     `sublist_of`
     ((fun c => (ID c, afkChannelIdOf (Part1.AfkChannelName config)
                         (Part1.IgnoredChannels config) channels)) <$> clients)).
Proof.
  intros Hch Hcl. split; intros config s.
  - exact (Main_cycle_moves_in_order srv config channels clients w w1 w2 s Hch Hcl).
  - exact (Part1_cycle_moves_in_order srv config channels clients w w1 w2 s Hch Hcl).
Qed.

(** ** Properties of the configuration loaders *)

(** X19. Every loader refuses an environment in which one of its
    required variables is unset: six variables in src/main.go, the same
    six and TS3_IGNORED_CHANNELS in part_001, and those seven and
    TS3_ALLOW_GRACE_PERIOD in part_002. *)
Theorem unset_variable_stops_loading (Unmarshal : string → option (list string))
    (env : Env) (key : string) :
  env key = None →
  (key ∈ mainRequired → ∃ e, Main.parseEnvConfig Unmarshal env = inl e) ∧
  (key ∈ part1Required → ∃ e, Part1.loadConfigFromEnv Unmarshal env = inl e) ∧
  (key ∈ part2Required → ∃ e, Part2.loadConfigFromEnv Unmarshal env = inl e).
Proof.
  intros Hnone. split_and!; intros Hkey.
  - destruct (Main.parseEnvConfig Unmarshal env) as [e|config] eqn:Hload; [eauto|].
    destruct (Main_load_inv _ _ _ Hload) as [Hset _].
    destruct (Hset key Hkey) as [v Hv]. congruence.
  - destruct (Part1.loadConfigFromEnv Unmarshal env) as [e|config] eqn:Hload; [eauto|].
    destruct (Part1_load_inv _ _ _ Hload) as [Hset _].
    destruct (Hset key Hkey) as [v Hv]. congruence.
  - destruct (Part2.loadConfigFromEnv Unmarshal env) as [e|config] eqn:Hload; [eauto|].
    destruct (Part2_load_inv _ _ _ Hload) as [Hset _].
    destruct (Hset key Hkey) as [v Hv]. congruence.
Qed.

(** X20. src/main.go treats an unset TS3_IGNORED_CHANNELS as the empty
    JSON array: loading gives what it gives with the variable set to
    that text, which is also what part_001, where the variable is
    required, loads once it is set to that text. *)
Theorem main_ignored_channels_default (Unmarshal : string → option (list string))
    (env : Env) :
  env "TS3_IGNORED_CHANNELS" = None →
  Main.parseEnvConfig Unmarshal env
  = Main.parseEnvConfig Unmarshal (setenv "TS3_IGNORED_CHANNELS" "[]" env) ∧
  Part1.loadConfigFromEnv Unmarshal (setenv "TS3_IGNORED_CHANNELS" "[]" env)
  = sum_map id part1OfMain (Main.parseEnvConfig Unmarshal env).
Proof.
  intros Hnone.
  assert (Hdefault : Main.parseEnvConfig Unmarshal env
          = Main.parseEnvConfig Unmarshal (setenv "TS3_IGNORED_CHANNELS" "[]" env)).
  { unfold Main.parseEnvConfig, getRequiredEnv, setenv. by rewrite Hnone. }
  split; [exact Hdefault|].
  rewrite Hdefault. apply Part1_load_of_Main. by eexists.
Qed.

(** X21. The three loaders agree where they overlap: with
    TS3_IGNORED_CHANNELS set, part_001 loads what src/main.go loads
    (the same error or the same fields), and part_002 is the loader of
    part_001 followed by the reading of TS3_ALLOW_GRACE_PERIOD as a
    boolean. *)
Theorem loaders_agree (Unmarshal : string → option (list string)) (env : Env) :
  is_Some (env "TS3_IGNORED_CHANNELS") →
  Part1.loadConfigFromEnv Unmarshal env
  = sum_map id part1OfMain (Main.parseEnvConfig Unmarshal env) ∧
  Part2.loadConfigFromEnv Unmarshal env
  = bindE (Part1.loadConfigFromEnv Unmarshal env) (fun config =>
      bindE (getRequiredEnv env "TS3_ALLOW_GRACE_PERIOD")
        (fun allowGracePeriod =>
           bindE (orError NotBoolean (ParseBool allowGracePeriod))
             (fun allow => inr (part2OfPart1 config allow)))).
Proof.
  intros Hset. split.
  - by apply Part1_load_of_Main.
  - apply Part2_load_of_Part1.
Qed.

(** X22. The threshold of a loaded configuration is the number of
    TS3_MAX_IDLE_TIME_SEC times 1000 in [int] arithmetic: the product
    itself for up to 9223372036854775 seconds either way, and wrapped
    around into the range of [int] (never refused) beyond. *)
Theorem threshold_is_seconds_times_1000 (Unmarshal : string → option (list string))
    (env : Env) :
  (∀ config, Main.parseEnvConfig Unmarshal env = inr config →
     thresholdOf env (Main.MaxIdleTimeMs config)) ∧
  (∀ config, Part1.loadConfigFromEnv Unmarshal env = inr config →
     thresholdOf env (Part1.MaxIdleTimeMs config)) ∧
  (∀ config, Part2.loadConfigFromEnv Unmarshal env = inr config →
     thresholdOf env (Part2.MaxIdleTimeMs config)).
Proof.
  assert (Hsmall : ∀ seconds,
            - 9223372036854775 <= seconds <= 9223372036854775 →
            wrapInt (seconds * 1000) = seconds * 1000).
  { intros seconds Hs. apply wrapInt_small. unfold maxInt. lia. }
  split_and!; intros config Hload.
  - destruct (Main_load_inv _ _ _ Hload) as (_ & seconds & str & ? & ? & ->).
    exists str, seconds. split_and!; auto; apply wrapInt_range.
  - destruct (Part1_load_inv _ _ _ Hload) as (_ & seconds & str & ? & ? & ->).
    exists str, seconds. split_and!; auto; apply wrapInt_range.
  - destruct (Part2_load_inv _ _ _ Hload) as (_ & seconds & str & ? & ? & ->).
    exists str, seconds. split_and!; auto; apply wrapInt_range.
Qed.

(** X23. A loader reads nothing but its own variables: two environments
    that agree on the seven variables of src/main.go and part_001 load
    the same there, and the same in part_002 when they agree on
    TS3_ALLOW_GRACE_PERIOD as well. *)
Theorem loaders_read_only_their_variables (Unmarshal : string → option (list string))
    (env env' : Env) :
  (∀ key, key ∈ part1Required → env key = env' key) →
  Main.parseEnvConfig Unmarshal env = Main.parseEnvConfig Unmarshal env' ∧
  Part1.loadConfigFromEnv Unmarshal env = Part1.loadConfigFromEnv Unmarshal env' ∧
  (env "TS3_ALLOW_GRACE_PERIOD" = env' "TS3_ALLOW_GRACE_PERIOD" →
   Part2.loadConfigFromEnv Unmarshal env = Part2.loadConfigFromEnv Unmarshal env').
Proof.
  intros Hagree.
  assert (Hkeys : Forall (fun key => env key = env' key) part1Required)
    by (by apply Forall_forall).
  unfold part1Required, mainRequired in Hkeys. cbn in Hkeys.
  repeat (apply Forall_cons in Hkeys as [? Hkeys]). clear Hagree Hkeys.
  assert (Hpart1 : Part1.loadConfigFromEnv Unmarshal env
               = Part1.loadConfigFromEnv Unmarshal env').
  { unfold Part1.loadConfigFromEnv, getRequiredEnv.
    repeat match goal with H : env _ = env' _ |- _ => rewrite H; clear H end.
    reflexivity. }
  split_and!.
  - unfold Main.parseEnvConfig, getRequiredEnv.
    repeat match goal with H : env _ = env' _ |- _ => rewrite H; clear H end.
    reflexivity.
  - exact Hpart1.
  - intros Hflag. rewrite !Part2_load_of_Part1, Hpart1.
    unfold getRequiredEnv. by rewrite Hflag.
Qed.

Ltac load_error :=
  repeat match goal with
         | H : inl _ = inr _ |- _ => discriminate H
         | H : inr _ = inl _ |- _ => discriminate H
         | H : context [match ?x with _ => _ end] |- _ =>
             destruct x eqn:?; cbn in *
         end;
  simplify_eq; cbn [explains];
  first [ split; [by vm_compute; set_solver | by eauto]
        | by eauto
        | match goal with
          | H : _ "TS3_IGNORED_CHANNELS" = _ |- _ => by rewrite H
          end ].

(** X24. An error of a loader names what is wrong with the environment:
    a variable reported as not set is one the loaders read and is unset,
    one reported as not a number is set to a text [strconv.Atoi]
    refuses, and the two other errors come from the texts of
    TS3_IGNORED_CHANNELS and TS3_ALLOW_GRACE_PERIOD. *)
Theorem load_errors_name_the_cause (Unmarshal : string → option (list string))
    (env : Env) (e : ConfigError) :
  Main.parseEnvConfig Unmarshal env = inl e ∨
  Part1.loadConfigFromEnv Unmarshal env = inl e ∨
  Part2.loadConfigFromEnv Unmarshal env = inl e →
  explains Unmarshal env e.
Proof.
  intros [H | [H | H]]; revert H.
  - unfold Main.parseEnvConfig, getRequiredEnv, orError, bindE. intros H.
    load_error.
  - unfold Part1.loadConfigFromEnv, getRequiredEnv, orError, bindE. intros H.
    load_error.
  - unfold Part2.loadConfigFromEnv, getRequiredEnv, orError, bindE. intros H.
    load_error.
Qed.

(** ** The pace of the main loop *)

Ltac not_a_sleep :=
  solve [ repeat (apply Forall_cons; split; [by intros ? [=] |]);
          apply Forall_nil_2 ].

Lemma slept_app t1 t2 : slept (t1 ++ t2) = slept t1 + slept t2.
Proof.
  induction t1 as [|e t1 IH]; cbn; [done|]. destruct e; rewrite ?IH; lia.
Qed.

Lemma slept_none t : Forall notSlept t → slept t = 0.
Proof.
  induction 1 as [|e t He _ IH]; cbn; [done|].
  destruct e; try done. by destruct (He secs).
Qed.

Section Pace.
Context {W : Type} (srv : Session W).
Implicit Types (w : W).

Lemma Main_evalClient_no_sleep config afk allowed c w s :
  Forall notSlept (trace (Main.evalClient srv config afk allowed c w s)).
Proof.
  unfold Main.evalClient, Main.contains, bind.
  query_cases srv c w s; try not_a_sleep.
  destruct (moveClient_eq (S:=unit) srv (ID c) afk (Exec srv (ClientInfo (ID c)) w).2 s)
    as (t & [-> | ->] & ->); cbn; not_a_sleep.
Qed.

Lemma Part1_evalClient_no_sleep config afk allowed clients c w s :
  Forall notSlept (trace (Part1.evalClient srv config afk allowed clients c w s)).
Proof.
  unfold Part1.evalClient, bind.
  query_cases srv c w s; try not_a_sleep.
  destruct (Part1.soloScan c clients s false false) as [[s' isSolo] isGrace]; cbn.
  destruct isSolo; cbn; [|destruct isGrace; cbn]; try not_a_sleep.
  destruct (moveClient_eq (S:=list Z) srv (ID c) afk (Exec srv (ClientInfo (ID c)) w).2 s')
    as (t & [-> | ->] & ->); cbn; not_a_sleep.
Qed.

Lemma Part2_evalClient_no_sleep config afk allowed clients c w s :
  Forall notSlept (trace (Part2.evalClient srv config afk allowed clients c w s)).
Proof.
  unfold Part2.evalClient, bind.
  destruct (Part2_recentlyJoined_cases srv c w s) as [[_ ->]|[_ ->]]; cbn;
    [not_a_sleep|].
  query_cases srv c w s; try not_a_sleep.
  destruct (Part2.soloCheck c clients); cbn; [not_a_sleep|].
  destruct (moveClient_eq (S:=gmap Z Z) srv (ID c) afk (Exec srv (ClientInfo (ID c)) w).2 s)
    as (t & [-> | ->] & ->); cbn; not_a_sleep.
Qed.

Lemma Part2_outerClient_no_sleep config afk allowed clients c w s :
  Forall notSlept (trace (Part2.outerClient srv config afk allowed clients c w s)).
Proof.
  unfold Part2.outerClient, bind.
  destruct (Part2_recentlyJoined_cases srv c w s) as [[_ ->]|[_ ->]]; cbn;
    [not_a_sleep|].
  destruct (clientInfoMatch_eq (S:=gmap Z Z) srv (ID c) w s) as (t & st & Hm & ->).
  destruct Hm as [e Hnone | Hempty | digits Hdigits]; cbn; try not_a_sleep.
  apply (forRange_trace notSlept (fun _ => True)); [|done].
  intros x w' s' _ _. split; [|done]. apply Part2_evalClient_no_sleep.
Qed.

(** A cycle that does not end the process sleeps. *)
Lemma Main_cycle_slept config w s :
  status (Main.cycle srv config w s) = Running tt →
  slept (trace (Main.cycle srv config w s)) = 10.
Proof.
  destruct (ChannelList srv w) as [[channels|] w1] eqn:Hch.
  2: { unfold Main.cycle. by rewrite bind_call, Hch. }
  destruct (decide (afkChannelIdOf (Main.AfkChannelName config)
                      (Main.IgnoredChannels config) channels = 0)) as [H0|H0].
  { by rewrite (Main_cycle_no_afk srv config channels w w1 s Hch H0). }
  destruct (ClientList srv w1) as [[clients|] w2] eqn:Hcl.
  - rewrite (Main_cycle_eq srv config channels clients w w1 w2 s Hch Hcl H0).
    unfold bind.
    destruct (forRange_trace notSlept (fun _ => True) clients
                (Main.evalClient srv config
                   (afkChannelIdOf (Main.AfkChannelName config)
                      (Main.IgnoredChannels config) channels)
                   (allowedIdleChannelsOf (Main.AfkChannelName config)
                      (Main.IgnoredChannels config) channels))) with (w := w2) (s := s)
      as [Ht _]; [|done|].
    { intros. split; [apply Main_evalClient_no_sleep | done]. }
    destruct (status (forRange _ _ _ _)) as [[]|why]; cbn; [|done].
    intros _. rewrite slept_app, (slept_none _ Ht). reflexivity.
  - unfold Main.cycle, afkChannelIdOf in *. rewrite bind_call, Hch; cbn.
    destruct (scanChannels _ _ channels 0 []) as [afk allowed]; cbn in *.
    apply Z.eqb_neq in H0 as ->. by rewrite bind_call, Hcl.
Qed.

Lemma Part1_cycle_slept config w s :
  status (Part1.cycle srv config w s) = Running tt →
  5 <= slept (trace (Part1.cycle srv config w s)) <= 10.
Proof.
  destruct (ChannelList srv w) as [[channels|] w1] eqn:Hch.
  2: { unfold Part1.cycle. rewrite bind_call, Hch. cbn. lia. }
  destruct (decide (afkChannelIdOf (Part1.AfkChannelName config)
                      (Part1.IgnoredChannels config) channels = 0)) as [H0|H0].
  { by rewrite (Part1_cycle_no_afk srv config channels w w1 s Hch H0). }
  destruct (ClientList srv w1) as [[clients|] w2] eqn:Hcl.
  - rewrite (Part1_cycle_eq srv config channels clients w w1 w2 s Hch Hcl H0).
    unfold bind.
    destruct (forRange_trace notSlept (fun _ => True) clients
                (Part1.evalClient srv config
                   (afkChannelIdOf (Part1.AfkChannelName config)
                      (Part1.IgnoredChannels config) channels)
                   (allowedIdleChannelsOf (Part1.AfkChannelName config)
                      (Part1.IgnoredChannels config) channels) clients))
      with (w := w2) (s := s) as [Ht _]; [|done|].
    { intros. split; [apply Part1_evalClient_no_sleep | done]. }
    destruct (status (forRange _ _ _ _)) as [[]|why]; cbn; [|done].
    intros _. rewrite slept_app, (slept_none _ Ht). cbn. lia.
  - unfold Part1.cycle, afkChannelIdOf in *. rewrite bind_call, Hch; cbn.
    destruct (scanChannels _ _ channels 0 []) as [afk allowed]; cbn in *.
    apply Z.eqb_neq in H0 as ->. rewrite bind_call, Hcl. cbn. lia.
Qed.

Lemma Part2_processClients_slept config w s :
  0 <= slept (trace (Part2.processClients srv config w s)) <= 5.
Proof.
  destruct (ChannelList srv w) as [[channels|] w1] eqn:Hch.
  2: { unfold Part2.processClients. rewrite bind_call, Hch. cbn. lia. }
  destruct (decide (afkChannelIdOf (Part2.AfkChannelName config)
                      (Part2.IgnoredChannels config) channels = 0)) as [H0|H0].
  { rewrite (Part2_processClients_no_afk srv config channels w w1 s Hch H0). cbn. lia. }
  destruct (ClientList srv w1) as [[clients|] w2] eqn:Hcl.
  - rewrite (Part2_processClients_eq srv config channels clients w w1 w2 s Hch Hcl H0).
    destruct (forRange_trace notSlept (fun _ => True) clients
                (Part2.outerClient srv config
                   (afkChannelIdOf (Part2.AfkChannelName config)
                      (Part2.IgnoredChannels config) channels)
                   (allowedIdleChannelsOf (Part2.AfkChannelName config)
                      (Part2.IgnoredChannels config) channels) clients))
      with (w := w2) (s := s) as [Ht _]; [|done|].
    { intros. split; [apply Part2_outerClient_no_sleep | done]. }
    rewrite (slept_none _ Ht). lia.
  - unfold Part2.processClients, afkChannelIdOf in *. rewrite bind_call, Hch; cbn.
    destruct (scanChannels _ _ channels 0 []) as [afk allowed]; cbn in *.
    apply Z.eqb_neq in H0 as ->. rewrite bind_call, Hcl. cbn. lia.
Qed.

Lemma Part2_cycle_slept config w s :
  status (Part2.cycle srv config w s) = Running tt →
  10 <= slept (trace (Part2.cycle srv config w s)) <= 15.
Proof.
  unfold Part2.cycle, bind.
  assert (H := Part2_processClients_slept config w s). revert H.
  generalize (Part2.processClients srv config w s).
  intros [t w' s' [[]|why]] H; cbn in *; [|done].
  intros _. rewrite slept_app. cbn. lia.
Qed.
End Pace.

Lemma rounds_slept {W S} (lo hi : Z) (body : M W S unit) :
  (∀ w s, status (body w s) = Running tt → lo <= slept (trace (body w s)) <= hi) →
  ∀ (n : nat) w s,
    status (rounds n body w s) = Running tt →
    lo * Z.of_nat n <= slept (trace (rounds n body w s)) <= hi * Z.of_nat n.
Proof.
  intros Hbody. induction n as [|n IH]; intros w s; cbn [rounds].
  - cbn. lia.
  - unfold bind. specialize (Hbody w s).
    destruct (status (body w s)) as [[]|why]; cbn; [|done].
    intros Hrun. specialize (IH _ _ Hrun). specialize (Hbody eq_refl).
    rewrite slept_app. lia.
Qed.

(** X25. The bot never polls the server in a tight loop: as long as the
    process keeps running, every round of the main loop sleeps, for ten
    seconds in src/main.go, for five to ten in part_001 (five after a
    list that could not be fetched) and for ten to fifteen in part_002;
    nothing else in a round sleeps. *)
Theorem main_loop_sleeps_every_round {W} (srv : Session W) (n : nat) (w : W) :
  (∀ (config : Main.Config) s,
     status (Main.main srv config n w s) = Running tt →
     slept (trace (Main.main srv config n w s)) = 10 * Z.of_nat n) ∧
  (∀ (config : Part1.Config) s,
     status (Part1.main srv config n w s) = Running tt →
     5 * Z.of_nat n <= slept (trace (Part1.main srv config n w s)) <= 10 * Z.of_nat n) ∧
  (∀ (config : Part2.Config) s,
     status (Part2.main srv config n w s) = Running tt →
     10 * Z.of_nat n <= slept (trace (Part2.main srv config n w s)) <= 15 * Z.of_nat n).
Proof.
  split_and!; intros config s Hrun.
  - enough (10 * Z.of_nat n <= slept (trace (Main.main srv config n w s))
            <= 10 * Z.of_nat n) by lia.
    apply (rounds_slept 10 10 (Main.cycle srv config)); [|exact Hrun].
    intros w' s' Hr. rewrite (Main_cycle_slept srv config w' s' Hr). lia.
  - apply (rounds_slept 5 10 (Part1.cycle srv config)); [|exact Hrun].
    apply Part1_cycle_slept.
  - apply (rounds_slept 10 15 (Part2.cycle srv config)); [|exact Hrun].
    apply Part2_cycle_slept.
Qed.

(** ** The further properties on concrete servers and environments *)

Section FurtherConcrete.
Import Scenario Samples.

(** X2 on a list with two AFK channels: the second one is taken. *)
Lemma afk_channel_is_last_match_witness :
  afkChannelIdOf "AFK" ["Quiet"] twoAfkChannels = 4.
Proof.
  apply (afk_channel_is_last_match "AFK" ["Quiet"]
           [ {| CID := 1; ChannelName := "AFK" |};
             {| CID := 2; ChannelName := "Lobby" |} ]
           {| CID := 4; ChannelName := "AFK" |}
           [ {| CID := 3; ChannelName := "Quiet" |} ]).
  - reflexivity.
  - intros later Hl. repeat (apply elem_of_cons in Hl as [-> | Hl]); try done.
    by apply elem_of_nil in Hl.
Defined.

(** X3 on a server whose AFK channel has id 0. *)
Lemma afk_channel_with_id_zero_is_fatal_witness :
  status (Main.cycle zeroAfkServer mainConfig tt tt) = Exited LogFatal ∧
  status (Part1.cycle zeroAfkServer part1Config tt Part1.initial) = Exited LogFatal ∧
  status (Part2.processClients zeroAfkServer (part2Config true) tt Part2.initial)
  = Exited LogFatal.
Proof.
  destruct (afk_channel_with_id_zero_is_fatal zeroAfkServer
              [ {| CID := 1; ChannelName := "Lobby" |} ]
              {| CID := 0; ChannelName := "AFK" |} [] tt tt eq_refl eq_refl)
    as (H0 & H1 & H2).
  split_and!; [apply H0 | apply H1 | apply H2]; try reflexivity;
    by intros later ?%elem_of_nil.
Defined.

(** X4 on client B, idle for half a second. *)
Lemma clients_within_threshold_not_moved_witness :
  Forall (notMoveOf 11) (trace (Main.cycle server mainConfig tt tt)) ∧
  Forall (notMoveOf 11) (trace (Part1.cycle server part1Config tt Part1.initial)) ∧
  Forall (notMoveOf 11)
         (trace (Part2.processClients server (part2Config true) tt Part2.initial)).
Proof.
  destruct (clients_within_threshold_not_moved server tt 11) as (H0 & H1 & H2).
  assert (Hidle : ∀ (w' : unit) idleTime,
            idleTimeAt server 11 w' = Some idleTime → idleTime <= 60000).
  { intros [] idleTime H. vm_compute in H. injection H as <-. lia. }
  split_and!; [apply H0 | apply H1 | apply H2]; exact Hidle.
Defined.

(** X5 on client C, idle for a quarter of an hour in the ignored
    channel Quiet. *)
Lemma clients_in_ignored_channels_not_moved_witness :
  Forall (notMoveOf 12) (trace (Main.cycle server mainConfig tt tt)) ∧
  Forall (notMoveOf 12) (trace (Part1.cycle server part1Config tt Part1.initial)) ∧
  Forall (notMoveOf 12)
         (trace (Part2.processClients server (part2Config true) tt Part2.initial)).
Proof.
  destruct (clients_in_ignored_channels_not_moved server channels clients
              tt tt tt 12 eq_refl eq_refl) as (H0 & H1 & H2).
  assert (Hquiet : ∀ c, c ∈ clients → ID c = 12 →
            ∃ channel, channel ∈ channels ∧ CID channel = ChannelID c ∧
                       ChannelName channel ∈ ["Quiet"]).
  { intros c Hc Hid. unfold clients in Hc.
    repeat (apply elem_of_cons in Hc as [-> | Hc]); try done;
      [|by apply elem_of_nil in Hc].
    exists {| CID := 3; ChannelName := "Quiet" |}.
    split_and!; [by do 2 right; left | reflexivity | by left]. }
  split_and!; [apply H0 | apply H1 | apply H2]; exact Hquiet.
Defined.

(** X6 on the scenario of the specification. *)
Lemma moves_target_the_afk_channel_witness :
  Forall (movesOnly (fun clid cid =>
            cid = 2 ∧ cid ≠ 0 ∧ ∃ c, c ∈ clients ∧ ID c = clid ∧ ChannelID c ≠ cid))
         (trace (Main.cycle server mainConfig tt tt)) ∧
  Forall (movesOnly (fun clid cid =>
            cid = 2 ∧ cid ≠ 0 ∧ ∃ c, c ∈ clients ∧ ID c = clid ∧ ChannelID c ≠ cid))
         (trace (Part2.processClients server (part2Config true) tt Part2.initial)).
Proof.
  destruct (moves_target_the_afk_channel server channels clients tt tt tt
              eq_refl eq_refl) as (H0 & _ & H2).
  split; [apply (H0 mainConfig tt) | apply (H2 (part2Config true) Part2.initial)].
Defined.

(** X7 on a server whose every [clientinfo] fails. *)
Lemma item_failures_do_not_end_the_cycle_witness :
  status (Main.cycle failingServer mainConfig tt tt) = Running tt ∧
  status (Part1.cycle failingServer part1Config tt Part1.initial) = Running tt ∧
  status (Part2.processClients failingServer (part2Config true) tt Part2.initial)
  = Running tt.
Proof.
  destruct (item_failures_do_not_end_the_cycle failingServer channels clients
              tt tt tt eq_refl eq_refl) as (H0 & H1 & H2).
  { by intros clid []. }
  split_and!; [apply H0 | apply H1 | apply H2]; by vm_compute.
Defined.

(** X8 on a server with an empty reply for client A, listed first. *)
Lemma empty_reply_panics_witness :
  status (Main.cycle emptyReplyServer mainConfig tt tt) = Exited IndexPanic ∧
  status (Part1.cycle emptyReplyServer part1Config tt Part1.initial)
  = Exited IndexPanic ∧
  status (Part2.processClients emptyReplyServer (part2Config true) tt Part2.initial)
  = Exited IndexPanic.
Proof.
  destruct (empty_reply_panics emptyReplyServer channels clientA [clientB; clientC]
              tt tt tt eq_refl eq_refl eq_refl) as (H0 & H1 & H2).
  split_and!.
  - rewrite (H0 mainConfig tt); [reflexivity | by vm_compute].
  - rewrite (H1 part1Config Part1.initial); [reflexivity | by vm_compute].
  - rewrite (H2 (part2Config true)); [reflexivity | by vm_compute].
Defined.

(** X9 on client A of the scenario, idle for two minutes. *)
Lemma main_moves_every_idle_client_witness :
  ExecMove 10 2 ∈ trace (Main.cycle server mainConfig tt tt).
Proof.
  apply (main_moves_every_idle_client server mainConfig channels clients
           tt tt tt clientA tt eq_refl eq_refl).
  - by vm_compute.
  - intros clid []. cbn. unfold clientinfo. repeat (case_match; try done).
  - by left.
  - intros []. exists 120000. split; [reflexivity | cbn; lia].
  - reflexivity.
  - by vm_compute.
Defined.

(** X10 on client A, were a join into the lobby recorded. *)
Lemma recently_joined_channel_not_moved_witness :
  Forall (notMoveOf 10)
         (trace (Part2.processClients server (part2Config true) tt lobbyJoin)).
Proof.
  apply (recently_joined_channel_not_moved server (part2Config true) channels
           clients tt tt tt lobbyJoin 10 eq_refl eq_refl).
  intros c [] Hc Hid. unfold clients in Hc.
  repeat (apply elem_of_cons in Hc as [-> | Hc]); try done;
    [|by apply elem_of_nil in Hc].
  exists 0. split; [reflexivity | by vm_compute].
Defined.

(** X12 on client A, listed after client B of the same channel. *)
Lemma part1_moves_client_listed_after_cooccupant_witness :
  ExecMove 10 2 ∈ trace (Part1.cycle joinedServer part1Config tt Part1.initial).
Proof.
  apply (part1_moves_client_listed_after_cooccupant joinedServer part1Config
           channels clientB [clientA; clientC] tt tt tt clientA Part1.initial
           eq_refl eq_refl).
  - by vm_compute.
  - intros clid []. cbn. unfold clientinfo. repeat (case_match; try done).
  - by right; left.
  - intros x Hx Hid.
    repeat (apply elem_of_cons in Hx as [-> | Hx]); try done.
    by apply elem_of_nil in Hx.
  - by intros ?%elem_of_nil.
  - intros []. exists 120000. split; [reflexivity | cbn; lia].
  - reflexivity.
  - by vm_compute.
Defined.

(** X13 on the id of client A, recorded by a cycle with A alone. *)
Lemma part1_solo_list_holds_seen_clients_witness :
  10 ∈ Part1.initial ∨ ∃ c, c ∈ soloClients ∧ ID c = 10.
Proof.
  apply (part1_solo_list_holds_seen_clients soloServer part1Config channels
           soloClients tt tt tt Part1.initial 10 eq_refl eq_refl).
  vm_compute. by left.
Defined.

(** X14 on client A alone in the lobby, three rounds of the main loop. *)
Lemma part1_solo_list_grows_every_cycle_witness :
  status (Part1.main soloServer part1Config 3 tt Part1.initial) = Running tt ∧
  occurrences 10 (store (Part1.main soloServer part1Config 3 tt Part1.initial))
  = 6%nat.
Proof.
  apply (part1_solo_list_grows_every_cycle soloServer part1Config channels
           soloClients clientA).
  - by intros [].
  - by intros [].
  - by vm_compute.
  - intros clid []. cbn. unfold clientinfo. repeat (case_match; try done).
  - by left.
  - apply (bool_decide_unpack (NoDup (ID <$> soloClients))). by vm_compute.
  - intros c2 Hc2. unfold soloClients in Hc2.
    repeat (apply elem_of_cons in Hc2 as [-> | Hc2]); try done.
    by apply elem_of_nil in Hc2.
  - intros []. exists 120000. split; [reflexivity | cbn; lia].
  - reflexivity.
  - by vm_compute.
Defined.

(** X15 on client A of the scenario: three clients, three moves at least. *)
Lemma part2_moves_client_once_per_listed_client_witness :
  (3 ≤ moveCount 10
         (trace (Part2.processClients server (part2Config true) tt Part2.initial)))%nat.
Proof.
  apply (part2_moves_client_once_per_listed_client server (part2Config true)
           channels clients tt tt tt clientA eq_refl eq_refl).
  - by vm_compute.
  - intros clid []. cbn. unfold clientinfo. repeat (case_match; try done).
  - intros x [] Hx. unfold clients in Hx.
    repeat (apply elem_of_cons in Hx as [-> | Hx]); try (by eexists);
      by apply elem_of_nil in Hx.
  - by left.
  - intros H. by specialize (H clientB ltac:(right; left)).
  - intros []. exists 120000. split; [reflexivity | cbn; lia].
  - reflexivity.
  - by vm_compute.
Defined.

(** X16 on the reply for client A. *)
Lemma idle_time_is_decimal_capture_witness :
  0 <= 120000 <= maxInt.
Proof.
  destruct (idle_time_is_decimal_capture server 10 tt) as [_ H].
  apply (H 120000). reflexivity.
Defined.

(** X17 on client A of the scenario, listed first, idle and not alone. *)
Lemma part1_first_listed_client_never_moved_witness :
  Forall (notMoveOf 10) (trace (Part1.main server part1Config 3 tt Part1.initial)).
Proof.
  apply (part1_first_listed_client_never_moved server part1Config channels
           clientA [clientB; clientC]); by intros [].
Defined.

(** X18 on the scenario of the specification. *)
Lemma moves_follow_snapshot_order_witness :
  moves (trace (Main.cycle server mainConfig tt tt))
  `sublist_of` [(10, 2); (11, 2); (12, 2)] ∧
  moves (trace (Part1.cycle server part1Config tt Part1.initial))
  `sublist_of` [(10, 2); (11, 2); (12, 2)].
Proof.
  destruct (moves_follow_snapshot_order server channels clients tt tt tt
              eq_refl eq_refl) as [H0 H1].
  split; [apply (H0 mainConfig tt) | apply (H1 part1Config Part1.initial)].
Defined.

(** X19 on an environment without TS3_USER. *)
Lemma unset_variable_stops_loading_witness :
  (∃ e, Main.parseEnvConfig emptyArrayOnly noUserEnv = inl e) ∧
  (∃ e, Part1.loadConfigFromEnv emptyArrayOnly noUserEnv = inl e) ∧
  (∃ e, Part2.loadConfigFromEnv emptyArrayOnly noUserEnv = inl e).
Proof.
  destruct (unset_variable_stops_loading emptyArrayOnly noUserEnv "TS3_USER"
              eq_refl) as (H0 & H1 & H2).
  split_and!; [apply H0 | apply H1 | apply H2]; by left.
Defined.

(** X20 on an environment with the six required variables only. *)
Lemma main_ignored_channels_default_witness :
  Main.parseEnvConfig emptyArrayOnly sixEnv
  = Main.parseEnvConfig emptyArrayOnly (setenv "TS3_IGNORED_CHANNELS" "[]" sixEnv) ∧
  Part1.loadConfigFromEnv emptyArrayOnly (setenv "TS3_IGNORED_CHANNELS" "[]" sixEnv)
  = sum_map id part1OfMain (Main.parseEnvConfig emptyArrayOnly sixEnv).
Proof.
  apply (main_ignored_channels_default emptyArrayOnly sixEnv). reflexivity.
Defined.

(** X21 on an environment with all eight variables. *)
Lemma loaders_agree_witness :
  Part1.loadConfigFromEnv emptyArrayOnly fullEnv
  = sum_map id part1OfMain (Main.parseEnvConfig emptyArrayOnly fullEnv) ∧
  Part2.loadConfigFromEnv emptyArrayOnly fullEnv
  = bindE (Part1.loadConfigFromEnv emptyArrayOnly fullEnv) (fun config =>
      bindE (getRequiredEnv fullEnv "TS3_ALLOW_GRACE_PERIOD")
        (fun allowGracePeriod =>
           bindE (orError NotBoolean (ParseBool allowGracePeriod))
             (fun allow => inr (part2OfPart1 config allow)))).
Proof.
  apply (loaders_agree emptyArrayOnly fullEnv). by eexists.
Defined.

(** X22 on sixty seconds. *)
Lemma threshold_is_seconds_times_1000_witness :
  thresholdOf fullEnv 60000.
Proof.
  destruct (threshold_is_seconds_times_1000 emptyArrayOnly fullEnv) as (_ & _ & H2).
  destruct (Part2.loadConfigFromEnv emptyArrayOnly fullEnv) as [e|config] eqn:Hload;
    [discriminate Hload|].
  injection Hload as <-. by apply (H2 _ eq_refl).
Defined.

(** X23 on an environment and the same with one more variable. *)
Lemma loaders_read_only_their_variables_witness :
  Main.parseEnvConfig emptyArrayOnly fullEnv
  = Main.parseEnvConfig emptyArrayOnly (setenv "HOME" "/root" fullEnv) ∧
  Part2.loadConfigFromEnv emptyArrayOnly fullEnv
  = Part2.loadConfigFromEnv emptyArrayOnly (setenv "HOME" "/root" fullEnv).
Proof.
  destruct (loaders_read_only_their_variables emptyArrayOnly fullEnv
              (setenv "HOME" "/root" fullEnv)) as (H0 & _ & H2).
  - intros key Hkey. unfold part1Required, mainRequired in Hkey. cbn in Hkey.
    repeat (apply elem_of_cons in Hkey as [-> | Hkey]); try reflexivity.
    by apply elem_of_nil in Hkey.
  - split; [exact H0 | by apply H2].
Defined.

(** X24 on an environment without TS3_USER, and on one whose
    TS3_MAX_IDLE_TIME_SEC is not a number. *)
Lemma load_errors_name_the_cause_witness :
  explains emptyArrayOnly noUserEnv (NotSet "TS3_USER") ∧
  explains emptyArrayOnly badNumberEnv (NotANumber "TS3_MAX_IDLE_TIME_SEC").
Proof.
  split.
  - apply (load_errors_name_the_cause emptyArrayOnly noUserEnv). by left.
  - apply (load_errors_name_the_cause emptyArrayOnly badNumberEnv). by right; right.
Defined.

(** X25 on three rounds against the scenario of the specification, and
    against a server without channel list. *)
Lemma main_loop_sleeps_every_round_witness :
  slept (trace (Main.main server mainConfig 3 tt tt)) = 30 ∧
  15 <= slept (trace (Part1.main channelErrorServer part1Config 3 tt Part1.initial))
     <= 30 ∧
  30 <= slept (trace (Part2.main server (part2Config true) 3 tt Part2.initial)) <= 45.
Proof.
  split; [|split].
  - destruct (main_loop_sleeps_every_round server 3 tt) as (H0 & _ & _).
    apply (H0 mainConfig tt). reflexivity.
  - destruct (main_loop_sleeps_every_round channelErrorServer 3 tt) as (_ & H1 & _).
    apply (H1 part1Config Part1.initial). reflexivity.
  - destruct (main_loop_sleeps_every_round server 3 tt) as (_ & _ & H2).
    apply (H2 (part2Config true) Part2.initial). reflexivity.
Defined.
End FurtherConcrete.
